(** * Webhook reconciliation core of the Mercado Pago plugin for Better Auth

    A shallow embedding of [security.ts] (signature verifier, rate limiter,
    idempotency store, amount and metadata validators, error translation)
    and of the two variants of the plugin's [createPayment] and [webhook]
    endpoints: the marketplace variant of [server.ts] and the
    external-reference variant; then of [secureCompare],
    [ValidationRules.email] and four further endpoints of [server.ts]
    ([getOrCreateCustomer], [getPayment], [createSubscription] and
    [cancelSubscription]).

    Conventions.
    - A JavaScript string is represented by the bytes of its UTF-8 encoding
      ([string] of Rocq), which is what [Buffer.from] and [hmac.update] see;
      splitting on [","] and ["="], [startsWith] and concatenation commute
      with that encoding. Where the code units of a string matter (its
      [length], a regular expression, an unpaired surrogate), the string is
      the list of its UTF-16 code units and [Buffer.from] is written out.
    - A JavaScript [number] that carries an amount is a binary64 float
      ([PrimFloat.float]); clock readings and counters are integers ([Z]).
    - An exception is an explicit outcome [Throw e]; every endpoint is run
      against an explicit world (stores, tables, trace of effects) and an
      explicit environment (clock readings, answers of the provider, whether
      a user callback throws). *)

From Stdlib Require Import ZArith List String Ascii Bool Lia DecimalString.
From Stdlib Require Import Floats.PrimFloat.
From Stdlib Require Floats.FloatAxioms Floats.SpecFloat Floats.FloatOps.
From stdpp Require Import gmap strings list fin_maps.

Set Warnings "-inexact-float,-register-all".

(** ** Outcomes: a value or a thrown exception *)

Inductive Status :=
| BAD_REQUEST | UNAUTHORIZED | FORBIDDEN | NOT_FOUND
| TOO_MANY_REQUESTS | INTERNAL_SERVER_ERROR.

(** A value thrown by an external collaborator (the provider's SDK, the
    persistence adapter, a user callback): an object whose [status], [code]
    and [message] may each be missing. *)
Module MpError.
Record t := { status : option Z; code : option string; message : option string }.
End MpError.

Inductive Exn :=
| RangeError                                  (* thrown by [crypto.timingSafeEqual] *)
| APIError (type : Status) (message : string) (* better-auth's [APIError] *)
| Foreign (error : MpError.t).

Inductive Outcome (A : Type) :=
| Return (a : A)
| Throw (e : Exn).
Arguments Return {A} a.
Arguments Throw {A} e.

Definition is_api_error (e : Exn) : bool :=
  match e with APIError _ _ => true | _ => false end.

(** ** node:crypto — SHA-256 (FIPS 180-4), HMAC (RFC 2104), timingSafeEqual *)

Module Crypto.
Local Open Scope Z_scope.

Definition w32 (x : Z) : Z := x mod 2 ^ 32.
Definition rotr (n x : Z) : Z := Z.lor (Z.shiftr x n) (w32 (Z.shiftl x (32 - n))).
Definition shr (n x : Z) : Z := Z.shiftr x n.
Definition Ch (x y z : Z) : Z := Z.lxor (Z.land x y) (Z.land (w32 (Z.lnot x)) z).
Definition Maj (x y z : Z) : Z :=
  Z.lxor (Z.lxor (Z.land x y) (Z.land x z)) (Z.land y z).
Definition bsig0 (x : Z) : Z := Z.lxor (Z.lxor (rotr 2 x) (rotr 13 x)) (rotr 22 x).
Definition bsig1 (x : Z) : Z := Z.lxor (Z.lxor (rotr 6 x) (rotr 11 x)) (rotr 25 x).
Definition ssig0 (x : Z) : Z := Z.lxor (Z.lxor (rotr 7 x) (rotr 18 x)) (shr 3 x).
Definition ssig1 (x : Z) : Z := Z.lxor (Z.lxor (rotr 17 x) (rotr 19 x)) (shr 10 x).

(** The round constants are the first 32 bits of the fractional parts of
    the cube roots of the first 64 primes, the initial hash value those of
    the square roots of the first 8 primes. *)
Definition is_prime (n : Z) : bool :=
  forallb (fun d => negb (n mod Z.of_nat d =? 0)) (seq 2 (Z.to_nat n - 2)).

Definition primes : list Z :=
  Eval vm_compute in filter is_prime (map Z.of_nat (seq 2 310)).

(** The integer cube root, one bit at a time. *)
Fixpoint cube_root_bits (n : nat) (x r : Z) : Z :=
  match n with
  | O => r
  | S n' =>
      let c := r + 2 ^ Z.of_nat n' in
      if c * c * c <=? x then cube_root_bits n' x c else cube_root_bits n' x r
  end.

Definition K : list Z :=
  Eval vm_compute in map (fun p => w32 (cube_root_bits 40 (p * 2 ^ 96) 0)) primes.

(** The eight working words. *)
Record Hash := MkHash { ha : Z; hb : Z; hc : Z; hd : Z; he : Z; hf : Z; hg : Z; hh : Z }.

Definition fractional_sqrt (p : Z) : Z := w32 (Z.sqrt (p * 2 ^ 64)).

Definition H0 : Hash :=
  Eval vm_compute in
    MkHash (fractional_sqrt 2) (fractional_sqrt 3) (fractional_sqrt 5) (fractional_sqrt 7)
           (fractional_sqrt 11) (fractional_sqrt 13) (fractional_sqrt 17) (fractional_sqrt 19).

(** Message schedule, built backwards: the head of [rw] is W[t-1]. *)
Fixpoint extend (n : nat) (rw : list Z) : list Z :=
  match n with
  | O => rw
  | S n' =>
      let w := w32 (ssig1 (nth 1 rw 0) + nth 6 rw 0 + ssig0 (nth 14 rw 0) + nth 15 rw 0) in
      extend n' (w :: rw)
  end.

Definition schedule (block : list Z) : list Z := rev (extend 48 (rev block)).

Definition round (s : Hash) (kw : Z * Z) : Hash :=
  let t1 := w32 (hh s + bsig1 (he s) + Ch (he s) (hf s) (hg s) + fst kw + snd kw) in
  let t2 := w32 (bsig0 (ha s) + Maj (ha s) (hb s) (hc s)) in
  MkHash (w32 (t1 + t2)) (ha s) (hb s) (hc s) (w32 (hd s + t1)) (he s) (hf s) (hg s).

Definition compress (h : Hash) (block : list Z) : Hash :=
  let s := fold_left round (combine K (schedule block)) h in
  MkHash (w32 (ha h + ha s)) (w32 (hb h + hb s)) (w32 (hc h + hc s)) (w32 (hd h + hd s))
         (w32 (he h + he s)) (w32 (hf h + hf s)) (w32 (hg h + hg s)) (w32 (hh h + hh s)).

Definition be_bytes (n : nat) (x : Z) : list Z :=
  map (fun i => (x / 2 ^ (8 * Z.of_nat i)) mod 256) (rev (seq 0 n)).

Definition pad (msg : list Z) : list Z :=
  let len := Z.of_nat (length msg) in
  msg ++ [0x80] ++ repeat 0 (Z.to_nat ((55 - len) mod 64)) ++ be_bytes 8 (8 * len).

Fixpoint words (bs : list Z) : list Z :=
  match bs with
  | b0 :: b1 :: b2 :: b3 :: r => (b0 * 2 ^ 24 + b1 * 2 ^ 16 + b2 * 2 ^ 8 + b3) :: words r
  | _ => []
  end.

Fixpoint blocks (fuel : nat) (ws : list Z) : list (list Z) :=
  match fuel, ws with
  | S f, _ :: _ => firstn 16 ws :: blocks f (skipn 16 ws)
  | _, _ => []
  end.

Definition sha256 (msg : list Z) : Hash :=
  let ws := words (pad msg) in
  fold_left compress (blocks (length ws) ws) H0.

Definition word_bytes (x : Z) : list Z :=
  [ (x / 2 ^ 24) mod 256; (x / 2 ^ 16) mod 256; (x / 2 ^ 8) mod 256; x mod 256 ].

Definition digest_bytes (h : Hash) : list Z :=
  word_bytes (ha h) ++ word_bytes (hb h) ++ word_bytes (hc h) ++ word_bytes (hd h) ++
  word_bytes (he h) ++ word_bytes (hf h) ++ word_bytes (hg h) ++ word_bytes (hh h).

Definition hmac_sha256 (key msg : list Z) : Hash :=
  let k0 := if (64 <? Z.of_nat (length key)) then digest_bytes (sha256 key) else key in
  let k := k0 ++ repeat 0 (64 - length k0)%nat in
  sha256 (map (Z.lxor 0x5c) k ++ digest_bytes (sha256 (map (Z.lxor 0x36) k ++ msg))).

Definition hex_chars : list ascii :=
  list_ascii_of_string "0123456789abcdef".

Definition hex_digit (x : Z) : ascii := nth (Z.to_nat (x mod 16)) hex_chars "0"%char.

Definition hex_byte (b : Z) : list ascii := [hex_digit (b / 16); hex_digit b].

Definition hex (bs : list Z) : string :=
  string_of_list_ascii (flat_map hex_byte bs).

Definition bytes_of (s : string) : list Z :=
  map (fun c => Z.of_N (N_of_ascii c)) (list_ascii_of_string s).

(** [crypto.createHmac("sha256", secret).update(manifest).digest("hex")] *)
Definition hmac_sha256_hex (secret manifest : string) : string :=
  hex (digest_bytes (hmac_sha256 (bytes_of secret) (bytes_of manifest))).

(** [crypto.timingSafeEqual(Buffer.from(a), Buffer.from(b))]: a [RangeError]
    when the byte lengths differ, otherwise whether the bytes are equal. *)
Definition timingSafeEqual (a b : string) : Outcome bool :=
  if Nat.eqb (String.length a) (String.length b)
  then Return (String.eqb a b)
  else Throw RangeError.

End Crypto.

(** ** JavaScript string and truthiness helpers *)

Module Js.

(** [s.split(sep)] for a one-character separator. *)
Fixpoint split (sep : ascii) (s : string) : list string :=
  match s with
  | EmptyString => [EmptyString]
  | String c r =>
      if Ascii.eqb c sep then EmptyString :: split sep r
      else match split sep r with
           | h :: t => String c h :: t
           | [] => [String c EmptyString]
           end
  end.

(** [s.startsWith(p)] *)
Fixpoint startsWith (p s : string) : bool :=
  match p, s with
  | EmptyString, _ => true
  | String a p', String b s' => Ascii.eqb a b && startsWith p' s'
  | String _ _, EmptyString => false
  end.

(** [!v] for [v : string | null | undefined]. *)
Definition falsy (v : option string) : bool :=
  match v with
  | Some (String _ _) => false
  | _ => true
  end.

(** [s.endsWith(suffix)] *)
Definition endsWith (suffix s : string) : bool :=
  (String.length suffix <=? String.length s)%nat
  && String.eqb (String.substring (String.length s - String.length suffix)
                                  (String.length suffix) s) suffix.

(** Truthiness of [v : number | undefined]: zero and NaN are falsy. *)
Definition truthy_number (v : option float) : bool :=
  match v with
  | Some x => negb (PrimFloat.is_nan x || PrimFloat.eqb x 0%float)
  | None => false
  end.




End Js.

(** ** security.ts — verifyWebhookSignature *)

(** [parts.find((p) => p.startsWith(name))?.split("=")[1]] *)
Definition component (name : string) (parts : list string) : option string :=
  match find (Js.startsWith name) parts with
  | Some p => nth_error (Js.split "=" p) 1
  | None => None
  end.

Definition manifest (dataId xRequestId ts : string) : string :=
  ("id:" ++ dataId ++ ";request-id:" ++ xRequestId ++ ";ts:" ++ ts ++ ";")%string.

Definition verifyWebhookSignature
  (xSignature xRequestId : option string) (dataId secret : string) : Outcome bool :=
  if Js.falsy xSignature || Js.falsy xRequestId then Return false
  else
    let parts := Js.split "," (default EmptyString xSignature) in
    let ts := component "ts=" parts in
    let hash := component "v1=" parts in
    if Js.falsy ts || Js.falsy hash then Return false
    else
      let manifest :=
        manifest dataId (default EmptyString xRequestId) (default EmptyString ts) in
      let expectedHash := Crypto.hmac_sha256_hex secret manifest in
      Crypto.timingSafeEqual (default EmptyString hash) expectedHash.


(** ** security.ts — RateLimiter *)

Module RateLimiter.

Record Attempt := { count : Z; resetAt : Z }.

(** [check(key, maxAttempts, windowMs)] at clock reading [now]; the map is
    the private field [attempts]. [record.count++] mutates the stored
    object, which is an insert at the same key. *)
Definition check (now : Z) (key : string) (maxAttempts windowMs : Z)
  (attempts : gmap string Attempt) : bool * gmap string Attempt :=
  match attempts !! key with
  | Some record =>
      if (now >? resetAt record)%Z then
        (true, <[key := {| count := 1; resetAt := (now + windowMs)%Z |}]> attempts)
      else if (count record >=? maxAttempts)%Z then (false, attempts)
      else
        (true, <[key := {| count := (count record + 1)%Z; resetAt := resetAt record |}]> attempts)
  | None =>
      (true, <[key := {| count := 1; resetAt := (now + windowMs)%Z |}]> attempts)
  end.

(** The sweep run every five minutes. *)
Definition cleanup (now : Z) (attempts : gmap string Attempt) : gmap string Attempt :=
  filter (fun kv => (now <= resetAt kv.2)%Z) attempts.

(** A run of calls for one key, each with its own clock reading. *)
Fixpoint run (key : string) (maxAttempts windowMs : Z) (times : list Z)
  (attempts : gmap string Attempt) : list bool * gmap string Attempt :=
  match times with
  | [] => ([], attempts)
  | t :: rest =>
      let r := check t key maxAttempts windowMs attempts in
      let rs := run key maxAttempts windowMs rest r.2 in
      (r.1 :: rs.1, rs.2)
  end.

End RateLimiter.

(** ** security.ts — validatePaymentAmount, ValidationRules *)

Definition default_tolerance : float := 0.01%float.

Definition validatePaymentAmount (requestedAmount mpPaymentAmount tolerance : float) : bool :=
  let diff := PrimFloat.abs (PrimFloat.sub requestedAmount mpPaymentAmount) in
  PrimFloat.leb diff tolerance.

(** [x || 0] for [x : number | undefined]: zero, NaN and undefined give 0. *)
Definition number_or_zero (x : option float) : float :=
  match x with
  | Some v => if PrimFloat.is_nan v || PrimFloat.eqb v 0%float then 0%float else v
  | None => 0%float
  end.

Module ValidationRules.

Definition amount (amount : float) : bool :=
  PrimFloat.ltb 0%float amount && PrimFloat.leb amount 999999999%float
  && negb (PrimFloat.is_nan amount).

Definition validCurrencies : list string :=
  ["ARS"; "BRL"; "CLP"; "MXN"; "COP"; "PEN"; "UYU"]%string.

Definition currency (currency : string) : bool :=
  existsb (String.eqb currency) validCurrencies.

End ValidationRules.

(** ** security.ts — validateIdempotencyKey *)

Definition in_range (lo hi c : ascii) : bool :=
  (N_of_ascii lo <=? N_of_ascii c)%N && (N_of_ascii c <=? N_of_ascii hi)%N.

Definition is_digit (c : ascii) : bool := in_range "0" "9" c.
Definition is_hex_i (c : ascii) : bool :=
  is_digit c || in_range "a" "f" c || in_range "A" "F" c.
Definition is_word (c : ascii) : bool :=
  in_range "a" "z" c || in_range "A" "Z" c || is_digit c
  || Ascii.eqb c "_" || Ascii.eqb c "-".

(** One position of the UUID pattern. *)
Inductive UuidPos := Hex | Dash | Four | Clock.

Definition uuid_pos_ok (p : UuidPos) (c : ascii) : bool :=
  match p with
  | Hex => is_hex_i c
  | Dash => Ascii.eqb c "-"
  | Four => Ascii.eqb c "4"
  | Clock =>
      Ascii.eqb c "8" || Ascii.eqb c "9" || Ascii.eqb c "a" || Ascii.eqb c "b"
      || Ascii.eqb c "A" || Ascii.eqb c "B"
  end.

(** [/^[0-9a-f]{8}-[0-9a-f]{4}-4[0-9a-f]{3}-[89ab][0-9a-f]{3}-[0-9a-f]{12}$/i] *)
Definition uuid_pattern : list UuidPos :=
  repeat Hex 8 ++ [Dash] ++ repeat Hex 4 ++ [Dash; Four] ++ repeat Hex 3
  ++ [Dash; Clock] ++ repeat Hex 3 ++ [Dash] ++ repeat Hex 12.

Fixpoint matches (pat : list UuidPos) (cs : list ascii) : bool :=
  match pat, cs with
  | [], [] => true
  | p :: pat', c :: cs' => uuid_pos_ok p c && matches pat' cs'
  | _, _ => false
  end.

Definition uuidRegex (key : string) : bool :=
  matches uuid_pattern (list_ascii_of_string key).

(** [/^[a-zA-Z0-9_-]{8,64}$/] *)
Definition customRegex (key : string) : bool :=
  forallb is_word (list_ascii_of_string key)
  && (8 <=? String.length key)%nat && (String.length key <=? 64)%nat.

Definition validateIdempotencyKey (key : string) : bool :=
  uuidRegex key || customRegex key.

(** ** security.ts — isValidWebhookTopic *)

Definition VALID_WEBHOOK_TOPICS : list string :=
  [ "payment"; "merchant_order"; "subscription_preapproval";
    "subscription_preapproval_plan"; "subscription_authorized_payment";
    "point_integration_wh"; "topic_claims_integration_wh";
    "topic_merchant_order_wh"; "delivery_cancellation" ]%string.

Definition isValidWebhookTopic (topic : string) : bool :=
  existsb (String.eqb topic) VALID_WEBHOOK_TOPICS.

(** ** security.ts — handleMercadoPagoError *)

(** [MercadoPagoError.toAPIError]: [errorMap[this.statusCode] || "BAD_REQUEST"]. *)
Definition errorMap (statusCode : Z) : Status :=
  if (statusCode =? 400)%Z then BAD_REQUEST
  else if (statusCode =? 401)%Z then UNAUTHORIZED
  else if (statusCode =? 403)%Z then FORBIDDEN
  else if (statusCode =? 404)%Z then NOT_FOUND
  else if (statusCode =? 429)%Z then TOO_MANY_REQUESTS
  else if (statusCode =? 500)%Z then INTERNAL_SERVER_ERROR
  else BAD_REQUEST.

Definition nonempty_or (d : string) (v : option string) : string :=
  match v with
  | Some (String _ _ as s) => s
  | _ => d
  end.

(** The function has return type [never]: what it computes is the
    exception it throws. *)
Definition handleMercadoPagoError (error : MpError.t) : Exn :=
  match MpError.status error with
  | Some st =>
      if (st =? 0)%Z then
        APIError INTERNAL_SERVER_ERROR "Failed to process Mercado Pago request"
      else
        APIError (errorMap st)
                 (nonempty_or "An error occurred with Mercado Pago" (MpError.message error))
  | None => APIError INTERNAL_SERVER_ERROR "Failed to process Mercado Pago request"
  end.

(** ** security.ts — sanitizeMetadata *)

(** A JSON value as the request body delivers it. In the strings of a
    metadata value one character stands for one UTF-16 code unit, which is
    what [length] and [substring] count. *)

Inductive Json :=
| JNull
| JBool (b : bool)
| JNum (x : float)
| JStr (s : string)
| JArr (items : list Json)
| JObj (fields : list (string * Json)).

(** An object is the list of its own enumerable entries in the order of
    [Object.entries]; the entries of an array are keyed by its indices. *)
Definition index_key (i : nat) : string := NilEmpty.string_of_uint (Nat.to_uint i).

Definition polluting (key : string) : bool :=
  String.eqb key "__proto__" || String.eqb key "constructor"
  || String.eqb key "prototype".

Definition max_string_length : nat := 5000.

(** The body of the loop for one entry; [nested] is the result of the
    recursive call on [value]. *)
Definition sanitizeEntry (key : string) (value nested : Json) : option (string * Json) :=
  if polluting key then None
  else
    match value with
    | JStr s =>
        if (max_string_length <? String.length s)%nat
        then Some (key, JStr (String.substring 0 max_string_length s))
        else Some (key, value)
    | JObj _ | JArr _ => Some (key, nested)
    | _ => Some (key, value)
    end.

Fixpoint sanitizeMetadata (metadata : Json) : Json :=
  match metadata with
  | JObj fields =>
      JObj ((fix loop (es : list (string * Json)) : list (string * Json) :=
               match es with
               | [] => []
               | (key, value) :: rest =>
                   match sanitizeEntry key value (sanitizeMetadata value) with
                   | Some e => e :: loop rest
                   | None => loop rest
                   end
               end) fields)
  | JArr items =>
      JObj ((fix loop (i : nat) (xs : list Json) : list (string * Json) :=
               match xs with
               | [] => []
               | value :: rest =>
                   match sanitizeEntry (index_key i) value (sanitizeMetadata value) with
                   | Some e => e :: loop (S i) rest
                   | None => loop (S i) rest
                   end
               end) 0%nat items)
  | _ => JObj []
  end.

(** [{ ...obj, key: value }] *)
Fixpoint obj_set (key : string) (value : Json) (fields : list (string * Json))
  : list (string * Json) :=
  match fields with
  | [] => [(key, value)]
  | (k, v) :: rest =>
      if String.eqb k key then (k, value) :: rest else (k, v) :: obj_set key value rest
  end.

Definition fields_of (v : Json) : list (string * Json) :=
  match v with JObj fs => fs | _ => [] end.

(** Whether every string at any depth of [v] has at most [n] characters. *)
Fixpoint strings_within (n : nat) (v : Json) : bool :=
  match v with
  | JStr s => (String.length s <=? n)%nat
  | JObj fields =>
      (fix all (es : list (string * Json)) : bool :=
         match es with
         | [] => true
         | (_, value) :: rest => strings_within n value && all rest
         end) fields
  | JArr items =>
      (fix all (xs : list Json) : bool :=
         match xs with
         | [] => true
         | value :: rest => strings_within n value && all rest
         end) items
  | _ => true
  end.

(** Whether some object at any depth of [v] has one of the three keys. *)
Fixpoint has_polluting_key (v : Json) : bool :=
  match v with
  | JObj fields =>
      (fix any (es : list (string * Json)) : bool :=
         match es with
         | [] => false
         | (key, value) :: rest => polluting key || has_polluting_key value || any rest
         end) fields
  | JArr items =>
      (fix any (xs : list Json) : bool :=
         match xs with
         | [] => false
         | value :: rest => has_polluting_key value || any rest
         end) items
  | _ => false
  end.

(** ** types.ts — local records and provider responses *)

Module CustomerRecord.
Record t := {
  id : string; userId : string; mercadoPagoId : string; email : string;
  createdAt : Z; updatedAt : Z }.
End CustomerRecord.

(** The payment table of both variants: [externalReference] exists only in
    the external-reference variant, where [mercadoPagoPaymentId] is optional. *)
Module PaymentRecord.
Record t := {
  id : string;
  externalReference : option string;
  userId : string;
  mercadoPagoPaymentId : option string;
  preferenceId : string;
  status : string;
  statusDetail : option string;
  amount : float;
  currency : string;
  paymentMethodId : option string;
  paymentTypeId : option string;
  metadata : Json;               (* the value handed to [JSON.stringify] *)
  createdAt : Z;
  updatedAt : Z }.
End PaymentRecord.

Module SubscriptionRecord.
Record t := {
  id : string; userId : string; mercadoPagoSubscriptionId : string;
  planId : string; status : string; reason : option string;
  nextPaymentDate : option Z; lastPaymentDate : option Z;
  summarized : option Json; updatedAt : Z }.
End SubscriptionRecord.

Module SplitRecord.
Record t := {
  id : string; paymentId : string; collectorId : string; collectorEmail : string;
  applicationFeeAmount : float; applicationFeePercentage : option float;
  netAmount : float; createdAt : Z }.
End SplitRecord.

Module PaymentResponse.
Record t := {
  status : option string;
  status_detail : option string;
  transaction_amount : option float;
  payment_method_id : option string;
  payment_type_id : option string;
  external_reference : option string }.
End PaymentResponse.

Module PreApprovalResponse.
Record t := {
  status : option string; reason : option string;
  next_payment_date : option Z; last_modified : option Z;
  summarized : option Json }.
End PreApprovalResponse.

Module PreferenceItem.
Record t := {
  id : string; title : string; quantity : float; unit_price : float;
  currency_id : string }.
End PreferenceItem.

(** The body handed to [Preference.create]. *)
Module PreferenceBody.
Record t := {
  items : list PreferenceItem.t;
  payer_email : option string;
  back_urls : string * string * string;       (* success, failure, pending *)
  notification_url : option string;
  auto_return : option string;
  external_reference : option string;
  metadata : Json;
  expires : bool;
  expiration_date_from : option Z;
  expiration_date_to : option Z;
  marketplace : option string;
  marketplace_fee : option float }.
End PreferenceBody.

Module PreferenceResponse.
Record t := { id : string; init_point : string }.
End PreferenceResponse.

(** The value returned by [createPayment] and cached under the client's
    idempotency key. *)
Module CreateResult.
Record t := { checkoutUrl : string; preferenceId : string; payment : PaymentRecord.t }.
End CreateResult.

(** ** security.ts — IdempotencyStore *)

Module IdempotencyStore.

(** What the endpoints put in the store: [true] for a webhook, the response
    for a creation request. Both are truthy. *)
Inductive Cached :=
| CTrue
| CResult (result : CreateResult.t).

Record Entry := { result : Cached; expiresAt : Z }.

(** [get(key)]: an absent or expired entry is deleted and [null] returned. *)
Definition get (now : Z) (key : string) (store : gmap string Entry)
  : option Cached * gmap string Entry :=
  match store !! key with
  | Some record =>
      if (now >? expiresAt record)%Z then (None, delete key store)
      else (Some (result record), store)
  | None => (None, delete key store)
  end.

Definition default_ttl : Z := (24 * 60 * 60 * 1000)%Z.

Definition set (now : Z) (key : string) (r : Cached) (ttlMs : Z)
  (store : gmap string Entry) : gmap string Entry :=
  <[key := {| result := r; expiresAt := (now + ttlMs)%Z |}]> store.

(** The sweep run every hour. *)
Definition cleanup (now : Z) (store : gmap string Entry) : gmap string Entry :=
  filter (fun kv => (now <= expiresAt kv.2)%Z) store.

End IdempotencyStore.

(** ** The world an endpoint runs in *)

Inductive LogLevel := Info | Warn | Error.

Inductive Event :=
| RateLimitCheck (key : string) (allowed : bool)
| IdempotencyGet (key : string) (hit : bool)
| IdempotencySet (key : string)
| GenerateId (id : string)
| CustomerCreate (email : string)
| PreferenceCreate (body : PreferenceBody.t)
| PaymentGet (id : string)
| PreApprovalGet (id : string)
| AdapterFindOne (model field value : string)
| AdapterCreate (model id : string)
| AdapterUpdate (model id : string)
| Callback (name : string)
| Log (level : LogLevel) (message : string).

Record World := {
  attempts : gmap string RateLimiter.Attempt;          (* [rateLimiter] *)
  idempotency : gmap string IdempotencyStore.Entry;    (* [idempotencyStore] *)
  mercadoPagoCustomer : list CustomerRecord.t;
  mercadoPagoPayment : list PaymentRecord.t;
  mercadoPagoSubscription : list SubscriptionRecord.t;
  mercadoPagoMarketplaceSplit : list SplitRecord.t;
  next_id : nat;                                       (* position in the stream of ids *)
  trace : list Event }.                                (* effects, oldest first *)

Definition with_attempts (a : gmap string RateLimiter.Attempt) (w : World) : World :=
  {| attempts := a; idempotency := idempotency w;
     mercadoPagoCustomer := mercadoPagoCustomer w;
     mercadoPagoPayment := mercadoPagoPayment w;
     mercadoPagoSubscription := mercadoPagoSubscription w;
     mercadoPagoMarketplaceSplit := mercadoPagoMarketplaceSplit w;
     next_id := next_id w; trace := trace w |}.

Definition with_idempotency (s : gmap string IdempotencyStore.Entry) (w : World) : World :=
  {| attempts := attempts w; idempotency := s;
     mercadoPagoCustomer := mercadoPagoCustomer w;
     mercadoPagoPayment := mercadoPagoPayment w;
     mercadoPagoSubscription := mercadoPagoSubscription w;
     mercadoPagoMarketplaceSplit := mercadoPagoMarketplaceSplit w;
     next_id := next_id w; trace := trace w |}.

Definition with_customers (l : list CustomerRecord.t) (w : World) : World :=
  {| attempts := attempts w; idempotency := idempotency w;
     mercadoPagoCustomer := l;
     mercadoPagoPayment := mercadoPagoPayment w;
     mercadoPagoSubscription := mercadoPagoSubscription w;
     mercadoPagoMarketplaceSplit := mercadoPagoMarketplaceSplit w;
     next_id := next_id w; trace := trace w |}.

Definition with_payments (l : list PaymentRecord.t) (w : World) : World :=
  {| attempts := attempts w; idempotency := idempotency w;
     mercadoPagoCustomer := mercadoPagoCustomer w;
     mercadoPagoPayment := l;
     mercadoPagoSubscription := mercadoPagoSubscription w;
     mercadoPagoMarketplaceSplit := mercadoPagoMarketplaceSplit w;
     next_id := next_id w; trace := trace w |}.

Definition with_subscriptions (l : list SubscriptionRecord.t) (w : World) : World :=
  {| attempts := attempts w; idempotency := idempotency w;
     mercadoPagoCustomer := mercadoPagoCustomer w;
     mercadoPagoPayment := mercadoPagoPayment w;
     mercadoPagoSubscription := l;
     mercadoPagoMarketplaceSplit := mercadoPagoMarketplaceSplit w;
     next_id := next_id w; trace := trace w |}.

Definition with_splits (l : list SplitRecord.t) (w : World) : World :=
  {| attempts := attempts w; idempotency := idempotency w;
     mercadoPagoCustomer := mercadoPagoCustomer w;
     mercadoPagoPayment := mercadoPagoPayment w;
     mercadoPagoSubscription := mercadoPagoSubscription w;
     mercadoPagoMarketplaceSplit := l;
     next_id := next_id w; trace := trace w |}.

Definition with_next_id (n : nat) (w : World) : World :=
  {| attempts := attempts w; idempotency := idempotency w;
     mercadoPagoCustomer := mercadoPagoCustomer w;
     mercadoPagoPayment := mercadoPagoPayment w;
     mercadoPagoSubscription := mercadoPagoSubscription w;
     mercadoPagoMarketplaceSplit := mercadoPagoMarketplaceSplit w;
     next_id := n; trace := trace w |}.

Definition with_trace (t : list Event) (w : World) : World :=
  {| attempts := attempts w; idempotency := idempotency w;
     mercadoPagoCustomer := mercadoPagoCustomer w;
     mercadoPagoPayment := mercadoPagoPayment w;
     mercadoPagoSubscription := mercadoPagoSubscription w;
     mercadoPagoMarketplaceSplit := mercadoPagoMarketplaceSplit w;
     next_id := next_id w; trace := t |}.

Definition empty_world : World :=
  {| attempts := ∅; idempotency := ∅; mercadoPagoCustomer := [];
     mercadoPagoPayment := []; mercadoPagoSubscription := [];
     mercadoPagoMarketplaceSplit := []; next_id := 0; trace := [] |}.

(** ** A state monad with exceptions *)

Definition M (A : Type) : Type := World -> Outcome A * World.

Definition ret {A} (a : A) : M A := fun w => (Return a, w).
Definition throw {A} (e : Exn) : M A := fun w => (Throw e, w).

Definition bind {A B} (m : M A) (k : A -> M B) : M B :=
  fun w =>
    match m w with
    | (Return a, w') => k a w'
    | (Throw e, w') => (Throw e, w')
    end.

(** [try { m } catch (error) { handler(error) }] *)
Definition try_catch {A} (m : M A) (handler : Exn -> M A) : M A :=
  fun w =>
    match m w with
    | (Return a, w') => (Return a, w')
    | (Throw e, w') => handler e w'
    end.

Declare Scope m_scope.
Delimit Scope m_scope with M.
Notation "'let*' x := m 'in' k" := (bind m (fun x => k))
  (at level 10, x name, m at level 100, k at level 200) : m_scope.
Notation "'run' m 'then' k" := (bind m (fun _ => k))
  (at level 10, m at level 100, k at level 200) : m_scope.

Definition emit (e : Event) : M unit :=
  fun w => (Return tt, with_trace (trace w ++ [e]) w).

Definition log (level : LogLevel) (message : string) : M unit :=
  emit (Log level message).

Definition when (b : bool) (m : M unit) : M unit := if b then m else ret tt.

Definition gets {A} (f : World -> A) : M A := fun w => (Return (f w), w).
Definition modify (f : World -> World) : M unit := fun w => (Return tt, f w).

(** ** Plugin options, request context and environment *)

(** A user callback is the function the host application supplies: [None]
    when it returns, [Some e] when it throws [e]. *)
Record Options := {
  webhookSecret : option string;
  baseUrl : option string;
  trustedOrigins : option (list string);
  onPaymentUpdate : option (PaymentRecord.t -> PaymentResponse.t -> option MpError.t);
  onSubscriptionUpdate :
    option (SubscriptionRecord.t -> PreApprovalResponse.t -> option MpError.t);
  onSubscriptionPayment :
    option (SubscriptionRecord.t -> PaymentResponse.t -> option MpError.t) }.

(** What one request observes of the outside: the clock (read as one value
    per request), the stream [generateId()] draws from, the health of the
    persistence adapter and the answers of the provider ([inl e]: the call
    throws [e]). *)
Record Env := {
  now : Z;
  baseURL : string;                                   (* [ctx.context.baseURL] *)
  fresh : nat -> string;
  adapter_down : option MpError.t;
  paymentGet : string -> MpError.t + PaymentResponse.t;
  preApprovalGet : string -> MpError.t + PreApprovalResponse.t;
  customerCreate : string -> MpError.t + string;
  preferenceCreate : PreferenceBody.t -> MpError.t + PreferenceResponse.t;
  production : bool;                                  (* [NODE_ENV === "production"] *)
  parseUrl : string -> option (string * string) }.    (* [new URL(url)]: protocol, hostname *)

Module Session.
Record t := { id : string; email : string }.          (* [session.user] *)
End Session.

(** The body of a webhook notification and what the handler reads of the
    request. *)
Module Notification.
Record t := {
  type : option string;
  data_id : option string;
  has_request : bool;                                 (* [ctx.request] is defined *)
  x_signature : option string;
  x_request_id : option string }.
End Notification.

(** [ctx.json({ received: true })] *)
Inductive Ack := Received.

(** ** Effects as monadic operations *)

Definition rateLimit (env : Env) (key : string) (maxAttempts windowMs : Z) : M bool :=
  (let* r := gets (fun w => RateLimiter.check (now env) key maxAttempts windowMs (attempts w)) in
   run modify (with_attempts r.2) then
   run emit (RateLimitCheck key r.1) then
   ret r.1)%M.

Definition idempotencyGet (env : Env) (key : string) : M (option IdempotencyStore.Cached) :=
  (let* r := gets (fun w => IdempotencyStore.get (now env) key (idempotency w)) in
   run modify (with_idempotency r.2) then
   run emit (IdempotencyGet key (bool_decide (is_Some r.1))) then
   ret r.1)%M.

Definition idempotencySet (env : Env) (key : string) (r : IdempotencyStore.Cached)
  (ttlMs : Z) : M unit :=
  (run modify (fun w =>
         with_idempotency (IdempotencyStore.set (now env) key r ttlMs (idempotency w)) w) then
   emit (IdempotencySet key))%M.

(** An id drawn from the stream. *)
Definition draw (env : Env) : M string :=
  (let* n := gets next_id in
   run modify (with_next_id (S n)) then
   ret (fresh env n))%M.

(** [generateId()] *)
Definition generateId (env : Env) : M string :=
  (let* id := draw env in
   run emit (GenerateId id) then
   ret id)%M.

(** An id the adapter assigns itself when the data carries none. *)
Definition adapterId (env : Env) : M string := draw env.

Definition adapter_call (env : Env) : M unit :=
  match adapter_down env with
  | Some e => throw (Foreign e)
  | None => ret tt
  end.

Definition call {A} (e : Event) (answer : MpError.t + A) : M A :=
  (run emit e then
   match answer with
   | inl error => throw (Foreign error)
   | inr a => ret a
   end)%M.

(** [adapter.update] changes the first record the filter selects. *)
Fixpoint update_first {A} (p : A -> bool) (f : A -> A) (l : list A) : list A :=
  match l with
  | [] => []
  | x :: r => if p x then f x :: r else x :: update_first p f r
  end.

Definition opt_eqb (a : option string) (b : string) : bool :=
  match a with Some x => String.eqb x b | None => false end.

Module Adapter.

Definition findCustomer (env : Env) (userId : string) : M (option CustomerRecord.t) :=
  (run emit (AdapterFindOne "mercadoPagoCustomer" "userId" userId) then
   run adapter_call env then
   gets (fun w => find (fun c => String.eqb (CustomerRecord.userId c) userId)
                       (mercadoPagoCustomer w)))%M.

Definition createCustomer (env : Env) (c : CustomerRecord.t) : M CustomerRecord.t :=
  (run emit (AdapterCreate "mercadoPagoCustomer" (CustomerRecord.id c)) then
   run adapter_call env then
   run modify (fun w => with_customers (mercadoPagoCustomer w ++ [c]) w) then
   ret c)%M.

Definition findPayment (env : Env) (field value : string)
  (select : PaymentRecord.t -> bool) : M (option PaymentRecord.t) :=
  (run emit (AdapterFindOne "mercadoPagoPayment" field value) then
   run adapter_call env then
   gets (fun w => find select (mercadoPagoPayment w)))%M.

Definition createPayment (env : Env) (p : PaymentRecord.t) : M PaymentRecord.t :=
  (run emit (AdapterCreate "mercadoPagoPayment" (PaymentRecord.id p)) then
   run adapter_call env then
   run modify (fun w => with_payments (mercadoPagoPayment w ++ [p]) w) then
   ret p)%M.

Definition updatePayment (env : Env) (id : string)
  (f : PaymentRecord.t -> PaymentRecord.t) : M unit :=
  (run emit (AdapterUpdate "mercadoPagoPayment" id) then
   run adapter_call env then
   modify (fun w =>
     with_payments
       (update_first (fun p => String.eqb (PaymentRecord.id p) id) f (mercadoPagoPayment w))
       w))%M.

Definition findSubscription (env : Env) (field value : string)
  (select : SubscriptionRecord.t -> bool) : M (option SubscriptionRecord.t) :=
  (run emit (AdapterFindOne "mercadoPagoSubscription" field value) then
   run adapter_call env then
   gets (fun w => find select (mercadoPagoSubscription w)))%M.

Definition updateSubscription (env : Env) (id : string)
  (f : SubscriptionRecord.t -> SubscriptionRecord.t) : M unit :=
  (run emit (AdapterUpdate "mercadoPagoSubscription" id) then
   run adapter_call env then
   modify (fun w =>
     with_subscriptions
       (update_first (fun s => String.eqb (SubscriptionRecord.id s) id) f
                     (mercadoPagoSubscription w))
       w))%M.

Definition createSplit (env : Env) (s : SplitRecord.t) : M SplitRecord.t :=
  (run emit (AdapterCreate "mercadoPagoMarketplaceSplit" (SplitRecord.id s)) then
   run adapter_call env then
   run modify (fun w => with_splits (mercadoPagoMarketplaceSplit w ++ [s]) w) then
   ret s)%M.

End Adapter.

(** A user callback invoked with [await]: it throws what the host's function
    throws. *)
Definition invoke (name : string) (result : option MpError.t) : M unit :=
  (run emit (Callback name) then
   match result with
   | Some error => throw (Foreign error)
   | None => ret tt
   end)%M.

(** [v || undefined] and [v || ""] on optional strings. *)
Definition or_undefined (v : option string) : option string :=
  match v with
  | Some (String _ _ as s) => Some s
  | _ => None
  end.

(** A field whose new value is [undefined] is left as it is. *)
Definition assign {A} (new : option A) (old : A) : A := default old new.
Definition assign_opt {A} (new : option A) (old : option A) : option A :=
  match new with Some _ => new | None => old end.

(** The update both webhook variants apply to a payment record; the
    external-reference variant also sets [mercadoPagoPaymentId]. *)
Definition payment_update (providerId : option string) (mpPayment : PaymentResponse.t)
  (updatedAt : Z) (p : PaymentRecord.t) : PaymentRecord.t :=
  {| PaymentRecord.id := PaymentRecord.id p;
     PaymentRecord.externalReference := PaymentRecord.externalReference p;
     PaymentRecord.userId := PaymentRecord.userId p;
     PaymentRecord.mercadoPagoPaymentId :=
       assign_opt providerId (PaymentRecord.mercadoPagoPaymentId p);
     PaymentRecord.preferenceId := PaymentRecord.preferenceId p;
     PaymentRecord.status := assign (PaymentResponse.status mpPayment) (PaymentRecord.status p);
     PaymentRecord.statusDetail :=
       assign_opt (or_undefined (PaymentResponse.status_detail mpPayment))
                  (PaymentRecord.statusDetail p);
     PaymentRecord.amount := PaymentRecord.amount p;
     PaymentRecord.currency := PaymentRecord.currency p;
     PaymentRecord.paymentMethodId :=
       assign_opt (or_undefined (PaymentResponse.payment_method_id mpPayment))
                  (PaymentRecord.paymentMethodId p);
     PaymentRecord.paymentTypeId :=
       assign_opt (or_undefined (PaymentResponse.payment_type_id mpPayment))
                  (PaymentRecord.paymentTypeId p);
     PaymentRecord.metadata := PaymentRecord.metadata p;
     PaymentRecord.createdAt := PaymentRecord.createdAt p;
     PaymentRecord.updatedAt := updatedAt |}.

Definition subscription_update (mp : PreApprovalResponse.t) (updatedAt : Z)
  (s : SubscriptionRecord.t) : SubscriptionRecord.t :=
  {| SubscriptionRecord.id := SubscriptionRecord.id s;
     SubscriptionRecord.userId := SubscriptionRecord.userId s;
     SubscriptionRecord.mercadoPagoSubscriptionId :=
       SubscriptionRecord.mercadoPagoSubscriptionId s;
     SubscriptionRecord.planId := SubscriptionRecord.planId s;
     SubscriptionRecord.status :=
       assign (PreApprovalResponse.status mp) (SubscriptionRecord.status s);
     SubscriptionRecord.reason :=
       assign_opt (or_undefined (PreApprovalResponse.reason mp)) (SubscriptionRecord.reason s);
     SubscriptionRecord.nextPaymentDate :=
       assign_opt (PreApprovalResponse.next_payment_date mp)
                  (SubscriptionRecord.nextPaymentDate s);
     SubscriptionRecord.lastPaymentDate :=
       assign_opt (PreApprovalResponse.last_modified mp)
                  (SubscriptionRecord.lastPaymentDate s);
     SubscriptionRecord.summarized :=
       assign_opt (PreApprovalResponse.summarized mp) (SubscriptionRecord.summarized s);
     SubscriptionRecord.updatedAt := updatedAt |}.

(** ** The request body of [createPayment] *)

(** An item of the body. In the external-reference variant the items are
    unchecked ([z.any()]): there a missing [currencyId] is any string outside
    the allow-list. *)
Module Item.
Record t := {
  id : string; title : string; quantity : float; unitPrice : float;
  currencyId : string }.
End Item.

Module MarketplaceConfig.
Record t := {
  collectorId : string;
  applicationFee : option float;
  applicationFeePercentage : option float }.
End MarketplaceConfig.

(** [successUrl], [failureUrl] and [pendingUrl] are [back_urls.success] and
    so on in the external-reference variant, which has no [marketplace]. *)
Module CreateBody.
Record t := {
  items : list Item.t;
  metadata : option Json;
  marketplace : option MarketplaceConfig.t;
  successUrl : option string;
  failureUrl : option string;
  pendingUrl : option string;
  idempotencyKey : option string }.
End CreateBody.

(** ** security.ts — validateCallbackUrl *)

Definition validateCallbackUrl (env : Env) (url : string) (allowedDomains : list string)
  : bool :=
  match parseUrl env url with
  | None => false
  | Some (protocol, hostname) =>
      if production env && negb (String.eqb protocol "https:") then false
      else
        existsb
          (fun domain =>
             if Js.startsWith "*." domain
             then Js.endsWith (String.substring 2 (String.length domain - 2) domain) hostname
             else String.eqb hostname domain)
          allowedDomains
  end.

(** ** Steps shared by both variants of [createPayment] *)

(** The object a [catch] clause hands to [handleMercadoPagoError]. Inside the
    guarded blocks only collaborators throw; an error of another kind has no
    numeric [status]. *)
Definition thrown (e : Exn) : MpError.t :=
  match e with
  | Foreign error => error
  | APIError _ m => {| MpError.status := None; MpError.code := None; MpError.message := Some m |}
  | RangeError => {| MpError.status := None; MpError.code := None; MpError.message := None |}
  end.

(** The idempotency check at the head of [createPayment]: the cached
    response, if any. *)
Definition idempotency_check (env : Env) (idempotencyKey : option string)
  : M (option IdempotencyStore.Cached) :=
  if Js.falsy idempotencyKey then ret None
  else if negb (validateIdempotencyKey (default EmptyString idempotencyKey))
  then throw (APIError BAD_REQUEST "Invalid idempotency key format")
  else idempotencyGet env (default EmptyString idempotencyKey).

Definition totalAmount (items : list Item.t) : float :=
  fold_left (fun sum item => PrimFloat.add sum (PrimFloat.mul (Item.unitPrice item)
                                                               (Item.quantity item)))
            items 0%float.

Definition preference_items (items : list Item.t) : list PreferenceItem.t :=
  map (fun item =>
         {| PreferenceItem.id := Item.id item;
            PreferenceItem.title := Item.title item;
            PreferenceItem.quantity := Item.quantity item;
            PreferenceItem.unit_price := Item.unitPrice item;
            PreferenceItem.currency_id := Item.currencyId item |})
      items.

(** [items[0]?.currencyId || "ARS"] *)
Definition first_currency (items : list Item.t) : string :=
  nonempty_or "ARS" (option_map Item.currencyId (head items)).

Definition sanitized (metadata : option Json) : Json :=
  match metadata with
  | Some m => sanitizeMetadata m
  | None => JObj []
  end.

Definition cache_result (env : Env) (idempotencyKey : option string)
  (result : CreateResult.t) : M unit :=
  if Js.falsy idempotencyKey then ret tt
  else idempotencySet env (default EmptyString idempotencyKey)
                      (IdempotencyStore.CResult result) IdempotencyStore.default_ttl.

(** [for (const url of urls) if (!validateCallbackUrl(...)) throw FORBIDDEN] *)
Fixpoint check_urls (env : Env) (allowed : list string) (urls : list string) : M unit :=
  match urls with
  | [] => ret tt
  | url :: rest =>
      if negb (validateCallbackUrl env url allowed)
      then throw (APIError FORBIDDEN ("URL " ++ url ++ " is not in trusted origins"))
      else check_urls env allowed rest
  end.

(** [[successUrl, failureUrl, pendingUrl].filter(Boolean)] *)
Definition given_urls (body : CreateBody.t) : list string :=
  omap or_undefined
       [CreateBody.successUrl body; CreateBody.failureUrl body; CreateBody.pendingUrl body].

(** Signature step of both webhook variants (only the marketplace variant
    logs): an exception of the verifier propagates, a [false] verdict is an
    [UNAUTHORIZED] error. *)
Definition verify_step (logged : bool) (secret : string) (n : Notification.t)
  (dataId : string) : M unit :=
  match verifyWebhookSignature (Notification.x_signature n) (Notification.x_request_id n)
                               dataId secret with
  | Throw e => throw e
  | Return isValid =>
      if negb isValid then
        (run when logged (log Error "Invalid webhook signature") then
         throw (APIError UNAUTHORIZED "Invalid webhook signature"))%M
      else ret tt
  end.

(** [if (options.webhookSecret) { ... }] *)
Definition signature_check (logged : bool) (opts : Options) (n : Notification.t)
  (dataId : string) : M unit :=
  if negb (Js.falsy (webhookSecret opts))
  then verify_step logged (default EmptyString (webhookSecret opts)) n dataId
  else ret tt.

(** ** server.ts — the endpoints of the marketplace variant *)

Module Server.

Definition webhookId (id type : string) : string :=
  ("webhook:" ++ id ++ ":" ++ type)%string.

(** [if (notification.type === "payment") { ... }] *)
Definition on_payment (opts : Options) (env : Env) (paymentId : string) : M unit :=
  (if Js.falsy (Some paymentId) then throw (APIError BAD_REQUEST "Missing payment ID")
   else
     let* mpPayment :=
       try_catch (call (PaymentGet paymentId) (paymentGet env paymentId))
         (fun _ =>
            run log Error "Failed to fetch payment from MP" then
            throw (APIError BAD_REQUEST "Failed to fetch payment details")) in
     let* existingPayment :=
       Adapter.findPayment env "mercadoPagoPaymentId" paymentId
         (fun p => opt_eqb (PaymentRecord.mercadoPagoPaymentId p) paymentId) in
     match existingPayment with
     | Some existingPayment =>
         if negb (validatePaymentAmount (PaymentRecord.amount existingPayment)
                    (number_or_zero (PaymentResponse.transaction_amount mpPayment))
                    default_tolerance)
         then
           run log Error "Payment amount mismatch" then
           throw (APIError BAD_REQUEST "Payment amount mismatch")
         else
           run Adapter.updatePayment env (PaymentRecord.id existingPayment)
                 (payment_update None mpPayment (now env)) then
           match onPaymentUpdate opts with
           | Some callback =>
               try_catch (invoke "onPaymentUpdate" (callback existingPayment mpPayment))
                 (fun _ => log Error "Error in onPaymentUpdate callback")
           | None => ret tt
           end
     | None => ret tt
     end)%M.

(** [if (type === "subscription_preapproval" || type === "subscription_preapproval_plan")] *)
Definition on_preapproval (opts : Options) (env : Env) (preapprovalId : string) : M unit :=
  (if Js.falsy (Some preapprovalId) then throw (APIError BAD_REQUEST "Missing preapproval ID")
   else
     let* mpPreapproval :=
       try_catch (call (PreApprovalGet preapprovalId) (preApprovalGet env preapprovalId))
         (fun _ =>
            run log Error "Failed to fetch preapproval from MP" then
            throw (APIError BAD_REQUEST "Failed to fetch subscription details")) in
     let* existingSubscription :=
       Adapter.findSubscription env "mercadoPagoSubscriptionId" preapprovalId
         (fun s => String.eqb (SubscriptionRecord.mercadoPagoSubscriptionId s) preapprovalId) in
     match existingSubscription with
     | Some existingSubscription =>
         run Adapter.updateSubscription env (SubscriptionRecord.id existingSubscription)
               (subscription_update mpPreapproval (now env)) then
         match onSubscriptionUpdate opts with
         | Some callback =>
             try_catch
               (invoke "onSubscriptionUpdate" (callback existingSubscription mpPreapproval))
               (fun _ => log Error "Error in onSubscriptionUpdate callback")
         | None => ret tt
         end
     | None => ret tt
     end)%M.

(** [if (type === "subscription_authorized_payment" || type === "authorized_payment")] *)
Definition on_authorized_payment (opts : Options) (env : Env) (paymentId : string) : M unit :=
  (if Js.falsy (Some paymentId) then throw (APIError BAD_REQUEST "Missing payment ID")
   else
     let* mpPayment :=
       try_catch (call (PaymentGet paymentId) (paymentGet env paymentId))
         (fun _ =>
            run log Error "Failed to fetch authorized payment from MP" then
            throw (APIError BAD_REQUEST "Failed to fetch payment details")) in
     match or_undefined (PaymentResponse.external_reference mpPayment) with
     | Some external_reference =>
         let* subscription :=
           Adapter.findSubscription env "id" external_reference
             (fun s => String.eqb (SubscriptionRecord.id s) external_reference) in
         match subscription with
         | Some subscription =>
             match onSubscriptionPayment opts with
             | Some callback =>
                 try_catch (invoke "onSubscriptionPayment" (callback subscription mpPayment))
                   (fun _ => log Error "Error in onSubscriptionPayment callback")
             | None => ret tt
             end
         | None => log Warn "Subscription not found for authorized payment"
         end
     | None => ret tt
     end)%M.

(** The body of the [try] block: three consecutive [if]s on the type. *)
Definition process (opts : Options) (env : Env) (type id : string) : M unit :=
  (run when (String.eqb type "payment") (on_payment opts env id) then
   run when (String.eqb type "subscription_preapproval"
             || String.eqb type "subscription_preapproval_plan")
            (on_preapproval opts env id) then
   when (String.eqb type "subscription_authorized_payment"
         || String.eqb type "authorized_payment")
        (on_authorized_payment opts env id))%M.

(** The handler of [/mercado-pago/webhook]. Reading [ctx.body] does not
    throw, and the guard [if (!dataId)] of the signature step cannot fire
    after the check of [notification.data?.id]: neither is modelled. *)
Definition webhook (opts : Options) (env : Env) (notification : Notification.t) : M Ack :=
  (let* allowed := rateLimit env "webhook:global" 1000 (60 * 1000) in
   if negb allowed then throw (APIError TOO_MANY_REQUESTS "Webhook rate limit exceeded")
   else if Js.falsy (Notification.type notification)
           || negb (isValidWebhookTopic (default EmptyString (Notification.type notification)))
           || Js.falsy (Notification.data_id notification)
   then
     run log Warn "Invalid webhook topic received" then
     ret Received
   else
     let type := default EmptyString (Notification.type notification) in
     let id := default EmptyString (Notification.data_id notification) in
     if negb (Notification.has_request notification)
     then throw (APIError BAD_REQUEST "Missing request")
     else
       run signature_check true opts notification id then
       let webhookId := webhookId id type in
       let* alreadyProcessed := idempotencyGet env webhookId in
       match alreadyProcessed with
       | Some _ =>
           run log Info "Webhook already processed" then
           ret Received
       | None =>
           run idempotencySet env webhookId IdempotencyStore.CTrue (24 * 60 * 60 * 1000) then
           run try_catch (process opts env type id)
                 (fun error =>
                    run log Error "Error processing webhook" then
                    if is_api_error error then throw error else ret tt) then
           ret Received
       end)%M.

(** [createPayment]: the handler of [/mercado-pago/payment/create]. *)
Definition ensure_customer (env : Env) (user : Session.t)
  (customer : option CustomerRecord.t) : M (option CustomerRecord.t) :=
  match customer with
  | Some _ => ret customer
  | None =>
      try_catch
        (let* mpCustomerId :=
           call (CustomerCreate (Session.email user)) (customerCreate env (Session.email user)) in
         let* id := generateId env in
         let* created :=
           Adapter.createCustomer env
             {| CustomerRecord.id := id;
                CustomerRecord.userId := Session.id user;
                CustomerRecord.mercadoPagoId := mpCustomerId;
                CustomerRecord.email := Session.email user;
                CustomerRecord.createdAt := now env;
                CustomerRecord.updatedAt := now env |} in
         ret (Some created))%M
        (fun error => throw (handleMercadoPagoError (thrown error)))
  end.

(** [applicationFeeAmount] after the fee computation. *)
Definition fee_amount (total : float) (marketplace : option MarketplaceConfig.t) : float :=
  match marketplace with
  | Some m =>
      if Js.truthy_number (MarketplaceConfig.applicationFee m)
      then default 0%float (MarketplaceConfig.applicationFee m)
      else if Js.truthy_number (MarketplaceConfig.applicationFeePercentage m)
      then PrimFloat.div
             (PrimFloat.mul total
                (default 0%float (MarketplaceConfig.applicationFeePercentage m)))
             100%float
      else 0%float
  | None => 0%float
  end.

Definition preferenceBody (opts : Options) (env : Env) (user : Session.t)
  (body : CreateBody.t) (customer : option CustomerRecord.t) (fee : float)
  : PreferenceBody.t :=
  let baseUrl := nonempty_or (baseURL env) (baseUrl opts) in
  let withUser :=
    obj_set "userId" (JStr (Session.id user))
            (fields_of (sanitized (CreateBody.metadata body))) in
  {| PreferenceBody.items := preference_items (CreateBody.items body);
     PreferenceBody.payer_email := Some (Session.email user);
     PreferenceBody.back_urls :=
       (nonempty_or (baseUrl ++ "/payment/success") (CreateBody.successUrl body),
        nonempty_or (baseUrl ++ "/payment/failure") (CreateBody.failureUrl body),
        nonempty_or (baseUrl ++ "/payment/pending") (CreateBody.pendingUrl body))%string;
     PreferenceBody.notification_url :=
       Some (baseUrl ++ "/api/auth/mercado-pago/webhook")%string;
     PreferenceBody.auto_return := None;
     PreferenceBody.external_reference := None;
     PreferenceBody.metadata :=
       JObj match customer with
            | Some c => obj_set "customerId" (JStr (CustomerRecord.id c)) withUser
            | None => withUser
            end;
     PreferenceBody.expires := true;
     PreferenceBody.expiration_date_from := Some (now env);
     PreferenceBody.expiration_date_to := Some (now env + 30 * 24 * 60 * 60 * 1000)%Z;
     PreferenceBody.marketplace :=
       option_map MarketplaceConfig.collectorId (CreateBody.marketplace body);
     PreferenceBody.marketplace_fee :=
       option_map (fun _ => fee) (CreateBody.marketplace body) |}.

(** From the preference call to the response. *)
Definition create_and_persist (opts : Options) (env : Env) (user : Session.t)
  (body : CreateBody.t) (customer : option CustomerRecord.t) (total fee : float)
  : M IdempotencyStore.Cached :=
  (let preferenceBody := preferenceBody opts env user body customer fee in
   let* preference :=
     try_catch (call (PreferenceCreate preferenceBody) (preferenceCreate env preferenceBody))
       (fun error => throw (handleMercadoPagoError (thrown error))) in
   let* paymentRecordId := generateId env in
   let* payment :=
     Adapter.createPayment env
       {| PaymentRecord.id := paymentRecordId;
          PaymentRecord.externalReference := None;
          PaymentRecord.userId := Session.id user;
          PaymentRecord.mercadoPagoPaymentId := Some (PreferenceResponse.id preference);
          PaymentRecord.preferenceId := PreferenceResponse.id preference;
          PaymentRecord.status := "pending";
          PaymentRecord.statusDetail := None;
          PaymentRecord.amount := total;
          PaymentRecord.currency := first_currency (CreateBody.items body);
          PaymentRecord.paymentMethodId := None;
          PaymentRecord.paymentTypeId := None;
          PaymentRecord.metadata := sanitized (CreateBody.metadata body);
          PaymentRecord.createdAt := now env;
          PaymentRecord.updatedAt := now env |} in
   run match CreateBody.marketplace body with
       | Some m =>
           let* splitId := generateId env in
           let* _ :=
             Adapter.createSplit env
               {| SplitRecord.id := splitId;
                  SplitRecord.paymentId := PaymentRecord.id payment;
                  SplitRecord.collectorId := MarketplaceConfig.collectorId m;
                  SplitRecord.collectorEmail := "";
                  SplitRecord.applicationFeeAmount := fee;
                  SplitRecord.applicationFeePercentage :=
                    MarketplaceConfig.applicationFeePercentage m;
                  SplitRecord.netAmount := PrimFloat.sub total fee;
                  SplitRecord.createdAt := now env |} in
           ret tt
       | None => ret tt
       end then
   let result :=
     {| CreateResult.checkoutUrl := PreferenceResponse.init_point preference;
        CreateResult.preferenceId := PreferenceResponse.id preference;
        CreateResult.payment := payment |} in
   run cache_result env (CreateBody.idempotencyKey body) result then
   ret (IdempotencyStore.CResult result))%M.

(** The handler, run on [ctx.body]: the request body as the schema of the
    endpoint parsed it. A body that fails the schema does not get here. *)
Definition createPayment (opts : Options) (env : Env) (session : option Session.t)
  (body : CreateBody.t) : M IdempotencyStore.Cached :=
  match session with
  | None => throw (APIError UNAUTHORIZED "")
  | Some user =>
      (let rateLimitKey := ("payment:create:" ++ Session.id user)%string in
       let* allowed := rateLimit env rateLimitKey 10 (60 * 1000) in
       if negb allowed then
         throw (APIError TOO_MANY_REQUESTS
                  "Too many payment creation attempts. Please try again later.")
       else
         let* cachedResult := idempotency_check env (CreateBody.idempotencyKey body) in
         match cachedResult with
         | Some cachedResult => ret cachedResult
         | None =>
             run match trustedOrigins opts with
                 | Some origins => check_urls env origins (given_urls body)
                 | None => ret tt
                 end then
             if existsb (fun item => negb (ValidationRules.currency (Item.currencyId item)))
                        (CreateBody.items body)
             then throw (APIError BAD_REQUEST "Invalid currency code")
             else
               let* found := Adapter.findCustomer env (Session.id user) in
               let* customer := ensure_customer env user found in
               let total := totalAmount (CreateBody.items body) in
               if negb (ValidationRules.amount total)
               then throw (APIError BAD_REQUEST "Invalid payment amount")
               else
                 let fee := fee_amount total (CreateBody.marketplace body) in
                 if bool_decide (is_Some (CreateBody.marketplace body))
                    && PrimFloat.leb total fee
                 then throw (APIError BAD_REQUEST "Application fee cannot exceed total amount")
                 else create_and_persist opts env user body customer total fee
         end)%M
  end.

End Server.

(** ** The endpoints of the external-reference variant *)

Module ExternalRef.

Definition webhookId (type id : string) : string :=
  ("mp:webhook:" ++ type ++ ":" ++ id)%string.

(** The body of the [try] block; each early [return ctx.json(...)] ends it. *)
Definition process (opts : Options) (env : Env) (paymentId : string) : M unit :=
  (let* mpPayment := call (PaymentGet paymentId) (paymentGet env paymentId) in
   match or_undefined (PaymentResponse.external_reference mpPayment) with
   | None => log Warn "Payment without external_reference"
   | Some externalRef =>
       let* existingPayment :=
         Adapter.findPayment env "externalReference" externalRef
           (fun p => opt_eqb (PaymentRecord.externalReference p) externalRef) in
       match existingPayment with
       | None => log Warn "Payment not found by external_reference"
       | Some existingPayment =>
           if negb (validatePaymentAmount (PaymentRecord.amount existingPayment)
                      (number_or_zero (PaymentResponse.transaction_amount mpPayment))
                      default_tolerance)
           then throw (APIError BAD_REQUEST "Payment amount mismatch")
           else
             run Adapter.updatePayment env (PaymentRecord.id existingPayment)
                   (payment_update (Some paymentId) mpPayment (now env)) then
             match onPaymentUpdate opts with
             | Some callback =>
                 if negb (Js.falsy (PaymentResponse.status mpPayment))
                 then invoke "onPaymentUpdate" (callback existingPayment mpPayment)
                 else ret tt
             | None => ret tt
             end
       end
   end)%M.

Definition webhook (opts : Options) (env : Env) (notification : Notification.t) : M Ack :=
  (let* allowed := rateLimit env "webhook:global" 1000 (60 * 1000) in
   if negb allowed then throw (APIError TOO_MANY_REQUESTS "Webhook rate limit exceeded")
   else if negb (opt_eqb (Notification.type notification) "payment")
           || Js.falsy (Notification.data_id notification)
   then ret Received
   else
     let type := default EmptyString (Notification.type notification) in
     let id := default EmptyString (Notification.data_id notification) in
     if negb (Notification.has_request notification)
     then throw (APIError BAD_REQUEST "Missing request")
     else
       run signature_check false opts notification id then
       let webhookId := webhookId type id in
       let* cached := idempotencyGet env webhookId in
       match cached with
       | Some _ => ret Received
       | None =>
           run idempotencySet env webhookId IdempotencyStore.CTrue (24 * 60 * 60 * 1000) then
           run try_catch (process opts env id)
                 (fun _ => log Error "Error processing MP webhook") then
           ret Received
       end)%M.

(** [createPayment]: the handler of [/mercado-pago/create-payment]. *)
Definition preferenceBody (opts : Options) (env : Env) (user : Session.t)
  (body : CreateBody.t) (externalReference : string) : PreferenceBody.t :=
  let baseUrl := nonempty_or (baseURL env) (baseUrl opts) in
  {| PreferenceBody.items := preference_items (CreateBody.items body);
     PreferenceBody.payer_email := None;
     PreferenceBody.back_urls :=
       (nonempty_or (baseUrl ++ "/payments/one-time?status=success")
                    (CreateBody.successUrl body),
        nonempty_or (baseUrl ++ "/payments/one-time?status=failure")
                    (CreateBody.failureUrl body),
        nonempty_or (baseUrl ++ "/payments/one-time?status=pending")
                    (CreateBody.pendingUrl body))%string;
     PreferenceBody.notification_url := None;
     PreferenceBody.auto_return := Some "approved"%string;
     PreferenceBody.external_reference := Some externalReference;
     PreferenceBody.metadata :=
       JObj (obj_set "userId" (JStr (Session.id user))
                     (fields_of (sanitized (CreateBody.metadata body))));
     PreferenceBody.expires := true;
     PreferenceBody.expiration_date_from := None;
     PreferenceBody.expiration_date_to := None;
     PreferenceBody.marketplace := None;
     PreferenceBody.marketplace_fee := None |}.

(** From the generation of the external reference to the response. *)
Definition create_and_persist (opts : Options) (env : Env) (user : Session.t)
  (body : CreateBody.t) (total : float) : M IdempotencyStore.Cached :=
  (let* externalReference := generateId env in
   let preferenceBody := preferenceBody opts env user body externalReference in
   let* preference :=
     call (PreferenceCreate preferenceBody) (preferenceCreate env preferenceBody) in
   let* recordId := adapterId env in
   let* payment :=
     Adapter.createPayment env
       {| PaymentRecord.id := recordId;
          PaymentRecord.externalReference := Some externalReference;
          PaymentRecord.userId := Session.id user;
          PaymentRecord.mercadoPagoPaymentId := None;
          PaymentRecord.preferenceId := PreferenceResponse.id preference;
          PaymentRecord.status := "pending";
          PaymentRecord.statusDetail := None;
          PaymentRecord.amount := total;
          PaymentRecord.currency := first_currency (CreateBody.items body);
          PaymentRecord.paymentMethodId := None;
          PaymentRecord.paymentTypeId := None;
          PaymentRecord.metadata :=
            JObj (obj_set "preferenceId" (JStr (PreferenceResponse.id preference))
                          (fields_of (sanitized (CreateBody.metadata body))));
          PaymentRecord.createdAt := now env;
          PaymentRecord.updatedAt := now env |} in
   let result :=
     {| CreateResult.checkoutUrl := PreferenceResponse.init_point preference;
        CreateResult.preferenceId := PreferenceResponse.id preference;
        CreateResult.payment := payment |} in
   run cache_result env (CreateBody.idempotencyKey body) result then
   ret (IdempotencyStore.CResult result))%M.

(** The handler, run on [ctx.body]: the request body as the schema of the
    endpoint parsed it. A body that fails the schema does not get here. *)
Definition createPayment (opts : Options) (env : Env) (session : option Session.t)
  (body : CreateBody.t) : M IdempotencyStore.Cached :=
  match session with
  | None => throw (APIError UNAUTHORIZED "")
  | Some user =>
      (let rateLimitKey := ("payment:create:" ++ Session.id user)%string in
       let* allowed := rateLimit env rateLimitKey 10 (60 * 1000) in
       if negb allowed then
         throw (APIError TOO_MANY_REQUESTS
                  "Too many payment creation attempts. Please try again later.")
       else
         let* cachedResult := idempotency_check env (CreateBody.idempotencyKey body) in
         match cachedResult with
         | Some cachedResult => ret cachedResult
         | None =>
             if existsb (fun item => negb (ValidationRules.currency (Item.currencyId item)))
                        (CreateBody.items body)
             then throw (APIError BAD_REQUEST "Invalid currency code")
             else
               let total := totalAmount (CreateBody.items body) in
               if negb (ValidationRules.amount total)
               then throw (APIError BAD_REQUEST "Invalid payment amount")
               else create_and_persist opts env user body total
         end)%M
  end.

End ExternalRef.

(** ** Reading a trace *)

(** The events of business logic: calls to the provider, to the persistence
    adapter and to user callbacks. *)
Definition business (e : Event) : bool :=
  match e with
  | PaymentGet _ | PreApprovalGet _ | CustomerCreate _ | PreferenceCreate _
  | AdapterFindOne _ _ _ | AdapterCreate _ _ | AdapterUpdate _ _ | Callback _ => true
  | _ => false
  end.

Definition is_update (e : Event) : bool :=
  match e with AdapterUpdate _ _ => true | _ => false end.

Definition is_callback (e : Event) : bool :=
  match e with Callback _ => true | _ => false end.

Definition is_generate (e : Event) : bool :=
  match e with GenerateId _ => true | _ => false end.

Definition creates (model : string) (e : Event) : bool :=
  match e with AdapterCreate m _ => String.eqb m model | _ => false end.

Definition is_preference_create (e : Event) : bool :=
  match e with PreferenceCreate _ => true | _ => false end.

(** How many events of a trace satisfy [p]. *)
Definition count (p : Event -> bool) (t : list Event) : nat := length (List.filter p t).

(** The local tables. *)
Definition tables (w : World) :=
  (mercadoPagoCustomer w, mercadoPagoPayment w, mercadoPagoSubscription w,
   mercadoPagoMarketplaceSplit w).

(** Whether the request gets past the rate limiter and the signature step. *)
Definition within_rate (env : Env) (w : World) : bool :=
  (RateLimiter.check (now env) "webhook:global" 1000 (60 * 1000) (attempts w)).1.

Definition signature_ok (opts : Options) (n : Notification.t) (id : string) : bool :=
  Js.falsy (webhookSecret opts)
  || match verifyWebhookSignature (Notification.x_signature n) (Notification.x_request_id n)
                                  id (default EmptyString (webhookSecret opts)) with
     | Return true => true
     | _ => false
     end.

(** How the trace of a delivery that is not a duplicate begins: the key is
    marked before anything else happens. *)
Definition opening (key : string) : list Event :=
  [RateLimitCheck "webhook:global" true; IdempotencyGet key false; IdempotencySet key].

(** The entry the webhook stores for a notification. *)
Definition mark (env : Env) : IdempotencyStore.Entry :=
  {| IdempotencyStore.result := IdempotencyStore.CTrue;
     IdempotencyStore.expiresAt := (now env + 24 * 60 * 60 * 1000)%Z |}.

(** ** The two variants side by side *)

Inductive Variant := ServerTs | ExternalReference.

Definition webhook_of (v : Variant) : Options -> Env -> Notification.t -> M Ack :=
  match v with
  | ServerTs => Server.webhook
  | ExternalReference => ExternalRef.webhook
  end.

Definition createPayment_of (v : Variant)
  : Options -> Env -> option Session.t -> CreateBody.t -> M IdempotencyStore.Cached :=
  match v with
  | ServerTs => Server.createPayment
  | ExternalReference => ExternalRef.createPayment
  end.

(** The dedup key of a notification. *)
Definition key_of (v : Variant) (id type : string) : string :=
  match v with
  | ServerTs => Server.webhookId id type
  | ExternalReference => ExternalRef.webhookId type id
  end.

(** The types a variant processes. *)
Definition accepts (v : Variant) (type : string) : bool :=
  match v with
  | ServerTs => isValidWebhookTopic type
  | ExternalReference => String.eqb type "payment"
  end.

(** The local record a payment notification is correlated with. *)
Definition correlated (v : Variant) (id : string) (mpPayment : PaymentResponse.t)
  (w : World) : option PaymentRecord.t :=
  match v with
  | ServerTs =>
      find (fun p => opt_eqb (PaymentRecord.mercadoPagoPaymentId p) id) (mercadoPagoPayment w)
  | ExternalReference =>
      match or_undefined (PaymentResponse.external_reference mpPayment) with
      | Some externalRef =>
          find (fun p => opt_eqb (PaymentRecord.externalReference p) externalRef)
               (mercadoPagoPayment w)
      | None => None
      end
  end.

Definition amounts_agree (p : PaymentRecord.t) (mpPayment : PaymentResponse.t) : bool :=
  validatePaymentAmount (PaymentRecord.amount p)
    (number_or_zero (PaymentResponse.transaction_amount mpPayment)) default_tolerance.

(** Whether the variant calls [onPaymentUpdate] for this provider answer. *)
Definition notifies (v : Variant) (mpPayment : PaymentResponse.t) : bool :=
  match v with
  | ServerTs => true
  | ExternalReference => negb (Js.falsy (PaymentResponse.status mpPayment))
  end.

(** The provider id the update writes. *)
Definition backfill (v : Variant) (id : string) : option string :=
  match v with
  | ServerTs => None
  | ExternalReference => Some id
  end.

(** ** What happens to the process between two deliveries *)





(** The external references sent to the provider, call by call. *)
Definition sent_references (t : list Event) : list (option string) :=
  flat_map (fun e => match e with
                     | PreferenceCreate body => [PreferenceBody.external_reference body]
                     | _ => []
                     end) t.

(** ** Induction on metadata values, and the loops of the sanitizer *)

Section JsonInduction.

Variable P : Json -> Prop.
Hypothesis Hnull : P JNull.
Hypothesis Hbool : forall b, P (JBool b).
Hypothesis Hnum : forall x, P (JNum x).
Hypothesis Hstr : forall s, P (JStr s).
Hypothesis Harr : forall items, Forall P items -> P (JArr items).
Hypothesis Hobj : forall fields, Forall (fun kv => P kv.2) fields -> P (JObj fields).

Fixpoint Json_nested_ind (v : Json) : P v :=
  match v with
  | JNull => Hnull
  | JBool b => Hbool b
  | JNum x => Hnum x
  | JStr s => Hstr s
  | JArr items =>
      Harr items
        ((fix go (xs : list Json) : Forall P xs :=
            match xs with
            | [] => List.Forall_nil P
            | x :: r => List.Forall_cons P x r (Json_nested_ind x) (go r)
            end) items)
  | JObj fields =>
      Hobj fields
        ((fix go (es : list (string * Json)) : Forall (fun kv => P kv.2) es :=
            match es with
            | [] => List.Forall_nil _
            | kv :: r => List.Forall_cons _ kv r (Json_nested_ind kv.2) (go r)
            end) fields)
  end.

End JsonInduction.

(** The loops of the sanitizer and of the two checks, as list functions. *)
Fixpoint sanitize_items (i : nat) (xs : list Json) : list (string * Json) :=
  match xs with
  | [] => []
  | value :: rest =>
      match sanitizeEntry (index_key i) value (sanitizeMetadata value) with
      | Some e => e :: sanitize_items (S i) rest
      | None => sanitize_items (S i) rest
      end
  end.

Definition clean (v : Json) : Prop :=
  has_polluting_key v = false /\ strings_within max_string_length v = true.

Definition clean_entry (e : string * Json) : Prop :=
  polluting e.1 = false /\ clean e.2.

(** ** Running a monadic program, and what runs are summarised by *)

(** [wp m Q w]: the outcome and the world of [m] run from [w] satisfy [Q]. *)
Definition wp {A} (m : M A) (Q : Outcome A -> World -> Prop) (w : World) : Prop :=
  Q (m w).1 (m w).2.

(** What a run of the business logic of a webhook may do: it leaves the
    rate limiter and the idempotency store alone, appends events to the
    trace, updates at most one record and calls at most one callback; and
    without an update the tables are as before. *)
Definition processed (w : World) {A} (_ : Outcome A) (w' : World) : Prop :=
  attempts w' = attempts w /\ idempotency w' = idempotency w
  /\ exists evs,
       trace w' = trace w ++ evs
       /\ (count is_update evs <= 1)%nat /\ (count is_callback evs <= 1)%nat
       /\ (count is_update evs = 0%nat -> tables w' = tables w).

(** What a delivery does when its key is marked and the mark has not
    expired: it is acknowledged, and apart from the rate limiter and the
    trace nothing changes; no business event happens. *)
Definition acknowledged_only (w : World) (o : Outcome Ack) (w' : World) : Prop :=
  o = Return Received /\ tables w' = tables w /\ idempotency w' = idempotency w
  /\ exists evs, trace w' = trace w ++ evs /\ count business evs = 0%nat.

(** What a delivery does when its key is not marked (or the mark has
    expired): the key is marked before any business event, the mark is
    still there at the end whatever the outcome, and the business logic
    updates at most one record and calls at most one callback. *)
Definition first_delivery (env : Env) (key : string) (w : World)
  (_ : Outcome Ack) (w' : World) : Prop :=
  idempotency w' !! key = Some (mark env)
  /\ exists evs,
       trace w' = trace w ++ opening key ++ evs
       /\ (count is_update evs <= 1)%nat /\ (count is_callback evs <= 1)%nat
       /\ (count is_update evs = 0%nat -> tables w' = tables w).


(** What a run of [createPayment] of the external-reference variant did
    with respect to the external reference, given the events [evs] it
    appended to the trace. Either the provider was not called, and then no
    id was generated and no payment persisted; or exactly one id was
    generated, immediately before the one provider call, whose body carries
    it as [external_reference], and a response of the endpoint comes with
    one new pending record that holds the same id as [externalReference]. *)
Definition reference_discipline (w : World) (o : Outcome IdempotencyStore.Cached)
  (w' : World) (evs : list Event) : Prop :=
  (count is_preference_create evs = 0%nat /\ count is_generate evs = 0%nat
   /\ mercadoPagoPayment w' = mercadoPagoPayment w)
  \/ exists ref b pre post,
       evs = pre ++ [GenerateId ref; PreferenceCreate b] ++ post
       /\ PreferenceBody.external_reference b = Some ref
       /\ count is_generate (pre ++ post) = 0%nat
       /\ count business pre = 0%nat
       /\ count is_preference_create post = 0%nat
       /\ match o with
          | Return (IdempotencyStore.CResult result) =>
              mercadoPagoPayment w' = mercadoPagoPayment w ++ [CreateResult.payment result]
              /\ PaymentRecord.externalReference (CreateResult.payment result) = Some ref
              /\ PaymentRecord.status (CreateResult.payment result) = "pending"%string
          | Return IdempotencyStore.CTrue => False
          | Throw _ => mercadoPagoPayment w' = mercadoPagoPayment w
          end.

(** ** Scenarios used to run the endpoints *)

Module Scenario.

Definition secret : string := "s3cret".

(** [ts=1700000000], request id [req-1], data id [pay_1], signed with [secret]. *)
Definition good_signature : string :=
  "ts=1700000000,v1=7ddce138a235c7ac583b00b6c07828d3e78e1df7322213adc7f848b285e85045".

Definition no_error : MpError.t :=
  {| MpError.status := None; MpError.code := None; MpError.message := None |}.

Definition not_found : MpError.t :=
  {| MpError.status := Some 404%Z; MpError.code := Some "resource_not_found"%string;
     MpError.message := Some "Payment not found"%string |}.

Definition approved (amount : float) : PaymentResponse.t :=
  {| PaymentResponse.status := Some "approved"%string;
     PaymentResponse.status_detail := Some "accredited"%string;
     PaymentResponse.transaction_amount := Some amount;
     PaymentResponse.payment_method_id := Some "visa"%string;
     PaymentResponse.payment_type_id := Some "credit_card"%string;
     PaymentResponse.external_reference := Some "ref_1"%string |}.

Definition opts : Options :=
  {| webhookSecret := Some secret; baseUrl := None; trustedOrigins := None;
     onPaymentUpdate := Some (fun _ _ => None);
     onSubscriptionUpdate := None; onSubscriptionPayment := None |}.

(** The provider knows payment [pay_1] and nothing else. *)
Definition env (now : Z) (provider : MpError.t + PaymentResponse.t) : Env :=
  {| now := now; baseURL := "https://app.test";
     fresh := fun n => ("id_" ++ index_key n)%string;
     adapter_down := None;
     paymentGet := fun id => if String.eqb id "pay_1" then provider else inl not_found;
     preApprovalGet := fun _ => inl not_found;
     customerCreate := fun _ => inr "cus_1"%string;
     preferenceCreate :=
       fun _ => inr {| PreferenceResponse.id := "pref_123";
                       PreferenceResponse.init_point := "https://mp.test/checkout?pref_id=pref_123" |};
     production := false;
     parseUrl := fun _ => None |}.

Definition notification : Notification.t :=
  {| Notification.type := Some "payment"%string;
     Notification.data_id := Some "pay_1"%string;
     Notification.has_request := true;
     Notification.x_signature := Some good_signature;
     Notification.x_request_id := Some "req-1"%string |}.

(** A pending payment of 100 ARS known under both correlation keys. *)
Definition pending : PaymentRecord.t :=
  {| PaymentRecord.id := "local_1";
     PaymentRecord.externalReference := Some "ref_1"%string;
     PaymentRecord.userId := "user_123";
     PaymentRecord.mercadoPagoPaymentId := Some "pay_1"%string;
     PaymentRecord.preferenceId := "pref_123";
     PaymentRecord.status := "pending";
     PaymentRecord.statusDetail := None;
     PaymentRecord.amount := 100%float;
     PaymentRecord.currency := "ARS";
     PaymentRecord.paymentMethodId := None;
     PaymentRecord.paymentTypeId := None;
     PaymentRecord.metadata := JObj [];
     PaymentRecord.createdAt := 1699999000000%Z;
     PaymentRecord.updatedAt := 1699999000000%Z |}.

Definition world : World := with_payments [pending] empty_world.

Definition t0 : Z := 1700000000000%Z.

Definition user : Session.t := {| Session.id := "user_123"; Session.email := "test@example.com" |}.

Definition item : Item.t :=
  {| Item.id := "item_1"; Item.title := "Widget"; Item.quantity := 1%float;
     Item.unitPrice := 100%float; Item.currencyId := "ARS" |}.

Definition body (metadata : option Json) : CreateBody.t :=
  {| CreateBody.items := [item]; CreateBody.metadata := metadata;
     CreateBody.marketplace := None; CreateBody.successUrl := None;
     CreateBody.failureUrl := None; CreateBody.pendingUrl := None;
     CreateBody.idempotencyKey := None |}.

End Scenario.
(** ** Strings as UTF-16 code units, and the bytes [Buffer.from] makes of them *)

(** A string as JavaScript holds it: the list of its UTF-16 code units.
    [s.length] is the length of that list. *)
Definition CodeUnits := list N.

Module Utf8.

Definition is_high (u : N) : bool := ((0xD800 <=? u) && (u <=? 0xDBFF))%N.
Definition is_low (u : N) : bool := ((0xDC00 <=? u) && (u <=? 0xDFFF))%N.
Definition is_surrogate (u : N) : bool := ((0xD800 <=? u) && (u <=? 0xDFFF))%N.

Definition bytes (l : list N) : string := string_of_list_ascii (map ascii_of_N l).

(** The bytes written for one code point: one for ASCII, two to four
    otherwise. A surrogate that reaches the encoder is unpaired and is
    written as U+FFFD, the bytes EF BF BD. *)
Definition encode (cp : N) : string :=
  if (cp <? 0x80)%N then bytes [cp]
  else if (cp <? 0x800)%N then bytes [0xC0 + cp / 0x40; 0x80 + cp mod 0x40]%N
  else if is_surrogate cp then bytes [0xEF; 0xBF; 0xBD]%N
  else if (cp <? 0x10000)%N then
    bytes [0xE0 + cp / 0x1000; 0x80 + (cp / 0x40) mod 0x40; 0x80 + cp mod 0x40]%N
  else
    bytes [0xF0 + cp / 0x40000; 0x80 + (cp / 0x1000) mod 0x40;
           0x80 + (cp / 0x40) mod 0x40; 0x80 + cp mod 0x40]%N.

(** The code points of a string: a high surrogate followed by a low one
    is one code point outside the basic plane, any other unit stands for
    itself. *)
Fixpoint code_points (s : CodeUnits) : list N :=
  match s with
  | [] => []
  | u :: s' =>
      if is_high u then
        match s' with
        | l :: s'' =>
            if is_low l
            then (0x10000 + (u - 0xD800) * 0x400 + (l - 0xDC00))%N :: code_points s''
            else u :: code_points s'
        | [] => [u]
        end
      else u :: code_points s'
  end.

(** Sixteen-bit units, every surrogate in a pair. *)
Fixpoint well_formed (s : CodeUnits) : bool :=
  match s with
  | [] => true
  | u :: s' =>
      if is_high u then
        match s' with
        | l :: s'' => is_low l && well_formed s''
        | [] => false
        end
      else negb (is_low u) && (u <? 0x10000)%N && well_formed s'
  end.

End Utf8.

Module Buffer.

(** [Buffer.from(s)]: the UTF-8 encoding of the string. *)
Definition from (s : CodeUnits) : string :=
  fold_right (fun cp rest => (Utf8.encode cp ++ rest)%string) EmptyString
             (Utf8.code_points s).

End Buffer.


(** ** security.ts — secureCompare, validateCSRFToken *)

(** The length test compares code units, [timingSafeEqual] compares bytes
    and throws when their numbers differ; the [catch] clause turns that
    into [false]. *)
Definition secureCompare (a b : CodeUnits) : bool :=
  if negb (Nat.eqb (length a) (length b)) then false
  else
    match Crypto.timingSafeEqual (Buffer.from a) (Buffer.from b) with
    | Return equal => equal
    | Throw _ => false
    end.

Definition validateCSRFToken (token expectedToken : CodeUnits) : bool :=
  secureCompare token expectedToken.

(** ** security.ts — sanitizeMetadata: what it leaves alone *)

(** Whether [v] holds an array at any depth. *)
Fixpoint has_array (v : Json) : bool :=
  match v with
  | JArr _ => true
  | JObj fields =>
      (fix any (es : list (string * Json)) : bool :=
         match es with
         | [] => false
         | (_, value) :: rest => has_array value || any rest
         end) fields
  | _ => false
  end.

(** ** security.ts — ValidationRules.email *)

(** The regular-expression engine reads a string by its code units. *)

(** The class [\s]: the white space and line terminator code points. *)
Definition is_space (u : N) : bool :=
  existsb (N.eqb u)
    [0x09; 0x0A; 0x0B; 0x0C; 0x0D; 0x20; 0xA0; 0x1680; 0x2028; 0x2029; 0x202F; 0x205F;
     0x3000; 0xFEFF]%N
  || ((0x2000 <=? u) && (u <=? 0x200A))%N.

(** A pattern [^p1 p2 ... pn$] whose pieces are a character class, taken
    once ([One]) or one or more times ([Many], the quantifier [+]). *)
Inductive Piece :=
| One (class : N -> bool)
| Many (class : N -> bool).

(** [regex.test(s)] by backtracking over the pieces. *)
Fixpoint regex_test (s : CodeUnits) (pieces : list Piece) {struct s} : bool :=
  match pieces, s with
  | [], [] => true
  | [], _ :: _ => false
  | _ :: _, [] => false
  | One class :: rest, u :: s' => class u && regex_test s' rest
  | Many class :: rest, u :: s' => class u && (regex_test s' rest || regex_test s' pieces)
  end.

Definition at_sign : N := 64.
Definition full_stop : N := 46.

(** The class [[^\s@]]. *)
Definition plain (u : N) : bool := negb (is_space u || N.eqb u at_sign).

(** [/^[^\s@]+@[^\s@]+\.[^\s@]+$/] *)
Definition emailRegex : list Piece :=
  [Many plain; One (N.eqb at_sign); Many plain; One (N.eqb full_stop); Many plain].

(** [ValidationRules.email] *)
Definition email (email : CodeUnits) : bool :=
  regex_test email emailRegex && (length email <=? 255)%nat.

(** ** Reading the endpoints: keys and correlation *)

(** The rate-limiter key of a user's creation requests. *)
Definition create_key (user : Session.t) : string :=
  ("payment:create:" ++ Session.id user)%string.

(** The filter by which the webhook of a variant looks for the record of a
    payment notification: the provider's payment id in [server.ts], the
    external reference of the provider's answer in the other variant. *)
Definition selects (v : Variant) (id : string) (mpPayment : PaymentResponse.t)
  (p : PaymentRecord.t) : bool :=
  match v with
  | ServerTs => opt_eqb (PaymentRecord.mercadoPagoPaymentId p) id
  | ExternalReference =>
      match or_undefined (PaymentResponse.external_reference mpPayment) with
      | Some externalRef => opt_eqb (PaymentRecord.externalReference p) externalRef
      | None => false
      end
  end.

(** The message logged when the callback of a payment notification throws. *)
Definition callback_failure_log (v : Variant) : string :=
  match v with
  | ServerTs => "Error in onPaymentUpdate callback"
  | ExternalReference => "Error processing MP webhook"
  end.


(** The types for which the [try] block of [server.ts] has a branch. *)
Definition handled (type : string) : bool :=
  String.eqb type "payment"
  || (String.eqb type "subscription_preapproval"
      || String.eqb type "subscription_preapproval_plan")
  || (String.eqb type "subscription_authorized_payment"
      || String.eqb type "authorized_payment").

(** ** The endpoint around the handler of [createPayment] *)

(** [createAuthEndpoint] is given the body schema of the endpoint (in
    [server.ts] the object schema written in place, in the other variant
    the preference schema of [schemas.ts] with [idempotencyKey]) and parses
    the request body with it before the handler runs: [ctx.body] is the
    parsed body, and a body that fails the schema is answered with the
    framework's error without the handler being called. What the schema
    makes of a body, and that error, are the library's. *)
Record Framework := {
  parseBody : Json -> option CreateBody.t;
  invalidBody : Exn }.

Definition createPayment_endpoint (v : Variant) (framework : Framework) (opts : Options)
  (env : Env) (session : option Session.t) (rawBody : Json) : M IdempotencyStore.Cached :=
  match parseBody framework rawBody with
  | Some body => createPayment_of v opts env session body
  | None => throw (invalidBody framework)
  end.

(** The requests of one user to the endpoint, served one after the other:
    each with what it observes and its raw body. *)
Definition serve (v : Variant) (framework : Framework) (opts : Options) (user : Session.t)
  (requests : list (Env * Json)) (w : World) : World :=
  fold_left (fun w r => (createPayment_endpoint v framework opts r.1 (Some user) r.2 w).2)
            requests w.

(** The clock readings of the requests whose body passes the schema, that
    is, of the requests that reach the handler. *)
Definition reaching (framework : Framework) (requests : list (Env * Json)) : list Z :=
  omap (fun r => option_map (fun _ => now r.1) (parseBody framework r.2)) requests.

(** ** Reading a run of [createPayment] *)

(** What the endpoint did with the store, read off the idempotency key of
    the request: with a key and an answer, the answer is in the store under
    the key for 24 hours. *)
Definition cached (env : Env) (body : CreateBody.t)
  (o : Outcome IdempotencyStore.Cached) (w' : World) : Prop :=
  forall res key,
    o = Return res -> CreateBody.idempotencyKey body = Some key -> key <> EmptyString ->
    validateIdempotencyKey key = true
    /\ idempotency w' !! key
       = Some {| IdempotencyStore.result := res;
                 IdempotencyStore.expiresAt := (now env + IdempotencyStore.default_ttl)%Z |}.

(** The run from [w] to [w'] asked the provider for one preference, and
    [preference] is the provider's answer to the body it sent. *)
Definition answered_with (env : Env) (w w' : World) (preference : PreferenceResponse.t)
  : Prop :=
  exists preferenceBody,
    List.filter is_preference_create (trace w')
    = List.filter is_preference_create (trace w) ++ [PreferenceCreate preferenceBody]
    /\ preferenceCreate env preferenceBody = inr preference.

(** What a request that is answered without a replay has persisted. *)
Definition persisted (v : Variant) (env : Env) (user : Session.t) (body : CreateBody.t)
  (w : World) (o : Outcome IdempotencyStore.Cached) (w' : World) : Prop :=
  forall res, o = Return res ->
    exists result,
      res = IdempotencyStore.CResult result
      /\ mercadoPagoPayment w' = mercadoPagoPayment w ++ [CreateResult.payment result]
      /\ PaymentRecord.status (CreateResult.payment result) = "pending"%string
      /\ PaymentRecord.amount (CreateResult.payment result)
         = totalAmount (CreateBody.items body)
      /\ PaymentRecord.userId (CreateResult.payment result) = Session.id user
      /\ PaymentRecord.preferenceId (CreateResult.payment result)
         = CreateResult.preferenceId result
      /\ match v with
         | ServerTs =>
             PaymentRecord.mercadoPagoPaymentId (CreateResult.payment result)
             = Some (CreateResult.preferenceId result)
             /\ PaymentRecord.externalReference (CreateResult.payment result) = None
         | ExternalReference =>
             PaymentRecord.mercadoPagoPaymentId (CreateResult.payment result) = None
             /\ PaymentRecord.externalReference (CreateResult.payment result)
                = Some (fresh env (next_id w))
         end
      /\ exists preference,
           answered_with env w w' preference
           /\ CreateResult.preferenceId result = PreferenceResponse.id preference
           /\ CreateResult.checkoutUrl result = PreferenceResponse.init_point preference.

(** What the rate limiter saw of the request, and what a refusal looks
    like. *)
Definition limited (env : Env) (user : Session.t) (w : World)
  (o : Outcome IdempotencyStore.Cached) (w' : World) : Prop :=
  let verdict := RateLimiter.check (now env) (create_key user) 10 (60 * 1000) (attempts w) in
  attempts w' = verdict.2
  /\ (verdict.1 = false ->
      o = Throw (APIError TOO_MANY_REQUESTS
                   "Too many payment creation attempts. Please try again later.")
      /\ tables w' = tables w /\ idempotency w' = idempotency w
      /\ trace w' = trace w ++ [RateLimitCheck (create_key user) false]).

(** The request does not find its key in the store. *)
Definition misses (env : Env) (body : CreateBody.t) (w : World) : Prop :=
  forall key, CreateBody.idempotencyKey body = Some key ->
    (IdempotencyStore.get (now env) key (idempotency w)).1 = None.

(** What a run that is answered without a replay has recorded of the
    marketplace configuration: in [server.ts], with a configuration, the fee
    is below the total and one split record is added for the new payment;
    otherwise the split table is as before. *)
Definition split_recorded (v : Variant) (env : Env) (body : CreateBody.t)
  (w : World) (o : Outcome IdempotencyStore.Cached) (w' : World) : Prop :=
  forall result, o = Return (IdempotencyStore.CResult result) ->
    match v, CreateBody.marketplace body with
    | ServerTs, Some m =>
        let total := totalAmount (CreateBody.items body) in
        let fee := Server.fee_amount total (Some m) in
        PrimFloat.leb total fee = false
        /\ exists splitId,
             mercadoPagoMarketplaceSplit w'
             = mercadoPagoMarketplaceSplit w
               ++ [{| SplitRecord.id := splitId;
                      SplitRecord.paymentId := PaymentRecord.id (CreateResult.payment result);
                      SplitRecord.collectorId := MarketplaceConfig.collectorId m;
                      SplitRecord.collectorEmail := "";
                      SplitRecord.applicationFeeAmount := fee;
                      SplitRecord.applicationFeePercentage :=
                        MarketplaceConfig.applicationFeePercentage m;
                      SplitRecord.netAmount := PrimFloat.sub total fee;
                      SplitRecord.createdAt := now env |}]
    | _, _ => mercadoPagoMarketplaceSplit w' = mercadoPagoMarketplaceSplit w
    end.

(** ** server.ts — further endpoints *)

(** What these endpoints ask of the provider besides the calls of [Env]:
    [preApprovalClient.create] and [preApprovalClient.update]. *)
Module AutoRecurring.
Record t := {
  frequency : float; frequencyType : string; transactionAmount : float;
  currencyId : string; startDate : option string; endDate : option string;
  freeTrial : option (float * string) }.
End AutoRecurring.

Module PreApprovalBody.
Record t := {
  preapproval_plan_id : option string;
  reason : option string;
  auto_recurring : option AutoRecurring.t;
  payer_email : string;
  back_url : string;
  status : string;
  external_reference : string }.
End PreApprovalBody.

Module PreApprovalCreated.
Record t := { id : string; init_point : string }.
End PreApprovalCreated.

Record Provider := {
  preApprovalCreate : PreApprovalBody.t -> MpError.t + PreApprovalCreated.t;
  preApprovalUpdate : string -> string -> MpError.t + unit }.   (* id, new status *)

(** The body of [createSubscription]. *)
Module SubscriptionBody.
Record t := {
  preapprovalPlanId : option string;
  reason : option string;
  autoRecurring : option AutoRecurring.t;
  backUrl : option string }.
End SubscriptionBody.

Module SubscriptionResult.
Record t := { checkoutUrl : string; subscription : SubscriptionRecord.t }.
End SubscriptionResult.

(** A call to the provider for which the trace has no event: it returns
    the provider's answer or throws what the provider throws. *)
Definition ask {A} (answer : MpError.t + A) : M A :=
  match answer with
  | inl error => throw (Foreign error)
  | inr a => ret a
  end.

Module ServerEndpoints.

(** [getOrCreateCustomer]: the handler of [/mercado-pago/customer]. The
    names of the body only travel to the provider. *)
Definition getOrCreateCustomer (env : Env) (session : option Session.t)
  (email : option string) : M CustomerRecord.t :=
  match session with
  | None => throw (APIError UNAUTHORIZED "You must be logged in")
  | Some user =>
      (let userEmail := nonempty_or (Session.email user) email in
       let* existingCustomer := Adapter.findCustomer env (Session.id user) in
       match existingCustomer with
       | Some customer => ret customer
       | None =>
           let* mpCustomerId :=
             call (CustomerCreate userEmail) (customerCreate env userEmail) in
           let* id := generateId env in
           Adapter.createCustomer env
             {| CustomerRecord.id := id;
                CustomerRecord.userId := Session.id user;
                CustomerRecord.mercadoPagoId := mpCustomerId;
                CustomerRecord.email := userEmail;
                CustomerRecord.createdAt := now env;
                CustomerRecord.updatedAt := now env |}
       end)%M
  end.

(** [getPayment]: the handler of [/mercado-pago/payment/:id]. The filter
    has two clauses, the id and the owner; the event names the first. *)
Definition getPayment (env : Env) (session : option Session.t) (paymentId : string)
  : M PaymentRecord.t :=
  match session with
  | None => throw (APIError UNAUTHORIZED "")
  | Some user =>
      (let* payment :=
         Adapter.findPayment env "id" paymentId
           (fun p => String.eqb (PaymentRecord.id p) paymentId
                     && String.eqb (PaymentRecord.userId p) (Session.id user)) in
       match payment with
       | Some payment => ret payment
       | None => throw (APIError NOT_FOUND "Payment not found")
       end)%M
  end.

(** The update [cancelSubscription] applies to the record. *)
Definition cancelled (updatedAt : Z) (s : SubscriptionRecord.t) : SubscriptionRecord.t :=
  {| SubscriptionRecord.id := SubscriptionRecord.id s;
     SubscriptionRecord.userId := SubscriptionRecord.userId s;
     SubscriptionRecord.mercadoPagoSubscriptionId :=
       SubscriptionRecord.mercadoPagoSubscriptionId s;
     SubscriptionRecord.planId := SubscriptionRecord.planId s;
     SubscriptionRecord.status := "cancelled";
     SubscriptionRecord.reason := SubscriptionRecord.reason s;
     SubscriptionRecord.nextPaymentDate := SubscriptionRecord.nextPaymentDate s;
     SubscriptionRecord.lastPaymentDate := SubscriptionRecord.lastPaymentDate s;
     SubscriptionRecord.summarized := SubscriptionRecord.summarized s;
     SubscriptionRecord.updatedAt := updatedAt |}.

(** [cancelSubscription]: the handler of [/mercado-pago/subscription/cancel]. *)
Definition cancelSubscription (provider : Provider) (env : Env)
  (session : option Session.t) (subscriptionId : string) : M unit :=
  match session with
  | None => throw (APIError UNAUTHORIZED "")
  | Some user =>
      (let* subscription :=
         Adapter.findSubscription env "id" subscriptionId
           (fun s => String.eqb (SubscriptionRecord.id s) subscriptionId
                     && String.eqb (SubscriptionRecord.userId s) (Session.id user)) in
       match subscription with
       | None => throw (APIError NOT_FOUND "Subscription not found")
       | Some subscription =>
           run ask (preApprovalUpdate provider
                      (SubscriptionRecord.mercadoPagoSubscriptionId subscription)
                      "cancelled") then
           Adapter.updateSubscription env subscriptionId (cancelled (now env))
       end)%M
  end.

Definition createSubscriptionRecord (env : Env) (s : SubscriptionRecord.t)
  : M SubscriptionRecord.t :=
  (run emit (AdapterCreate "mercadoPagoSubscription" (SubscriptionRecord.id s)) then
   run adapter_call env then
   run modify (fun w => with_subscriptions (mercadoPagoSubscription w ++ [s]) w) then
   ret s)%M.

(** The [auto_recurring] object built from the body: a date is copied
    when it is given and not empty. *)
Definition autoRecurringBody (ar : AutoRecurring.t) : AutoRecurring.t :=
  {| AutoRecurring.frequency := AutoRecurring.frequency ar;
     AutoRecurring.frequencyType := AutoRecurring.frequencyType ar;
     AutoRecurring.transactionAmount := AutoRecurring.transactionAmount ar;
     AutoRecurring.currencyId := AutoRecurring.currencyId ar;
     AutoRecurring.startDate := or_undefined (AutoRecurring.startDate ar);
     AutoRecurring.endDate := or_undefined (AutoRecurring.endDate ar);
     AutoRecurring.freeTrial := AutoRecurring.freeTrial ar |}.

(** The body sent to [preApprovalClient.create], if one is sent: with a
    plan id the plan is used, otherwise the recurrence of the request. *)
Definition preApprovalBody (opts : Options) (env : Env) (user : Session.t)
  (body : SubscriptionBody.t) (subscriptionId : string) : option PreApprovalBody.t :=
  let baseUrl := nonempty_or (baseURL env) (baseUrl opts) in
  let back_url :=
    nonempty_or (baseUrl ++ "/subscription/success")%string (SubscriptionBody.backUrl body) in
  match or_undefined (SubscriptionBody.preapprovalPlanId body) with
  | Some preapprovalPlanId =>
      Some {| PreApprovalBody.preapproval_plan_id := Some preapprovalPlanId;
              PreApprovalBody.reason := None;
              PreApprovalBody.auto_recurring := None;
              PreApprovalBody.payer_email := Session.email user;
              PreApprovalBody.back_url := back_url;
              PreApprovalBody.status := "pending";
              PreApprovalBody.external_reference := subscriptionId |}
  | None =>
      match SubscriptionBody.autoRecurring body with
      | Some ar =>
          Some {| PreApprovalBody.preapproval_plan_id := None;
                  PreApprovalBody.reason := SubscriptionBody.reason body;
                  PreApprovalBody.auto_recurring := Some (autoRecurringBody ar);
                  PreApprovalBody.payer_email := Session.email user;
                  PreApprovalBody.back_url := back_url;
                  PreApprovalBody.status := "pending";
                  PreApprovalBody.external_reference := subscriptionId |}
      | None => None
      end
  end.

(** [preapprovalPlanId || reason || "direct"] *)
Definition planId (body : SubscriptionBody.t) : string :=
  nonempty_or (nonempty_or "direct" (SubscriptionBody.reason body))
              (SubscriptionBody.preapprovalPlanId body).

(** [createSubscription]: the handler of [/mercado-pago/subscription/create]. *)
Definition createSubscription (opts : Options) (provider : Provider) (env : Env)
  (session : option Session.t) (body : SubscriptionBody.t) : M SubscriptionResult.t :=
  match session with
  | None => throw (APIError UNAUTHORIZED "")
  | Some user =>
      if Js.falsy (SubscriptionBody.preapprovalPlanId body)
         && (Js.falsy (SubscriptionBody.reason body)
             || negb (bool_decide (is_Some (SubscriptionBody.autoRecurring body))))
      then throw (APIError BAD_REQUEST
                    "Must provide either preapprovalPlanId or (reason + autoRecurring)")
      else
        (let* found := Adapter.findCustomer env (Session.id user) in
         run match found with
             | Some _ => ret tt
             | None =>
                 let* mpCustomerId :=
                   call (CustomerCreate (Session.email user))
                        (customerCreate env (Session.email user)) in
                 let* id := generateId env in
                 let* _ :=
                   Adapter.createCustomer env
                     {| CustomerRecord.id := id;
                        CustomerRecord.userId := Session.id user;
                        CustomerRecord.mercadoPagoId := mpCustomerId;
                        CustomerRecord.email := Session.email user;
                        CustomerRecord.createdAt := now env;
                        CustomerRecord.updatedAt := now env |} in
                 ret tt
             end then
         let* subscriptionId := generateId env in
         match preApprovalBody opts env user body subscriptionId with
         | None => throw (APIError BAD_REQUEST "Failed to create subscription")
         | Some preApprovalBody =>
             let* preapproval := ask (preApprovalCreate provider preApprovalBody) in
             let* subscription :=
               createSubscriptionRecord env
                 {| SubscriptionRecord.id := subscriptionId;
                    SubscriptionRecord.userId := Session.id user;
                    SubscriptionRecord.mercadoPagoSubscriptionId :=
                      PreApprovalCreated.id preapproval;
                    SubscriptionRecord.planId := planId body;
                    SubscriptionRecord.status := "pending";
                    SubscriptionRecord.reason := None;
                    SubscriptionRecord.nextPaymentDate := None;
                    SubscriptionRecord.lastPaymentDate := None;
                    SubscriptionRecord.summarized := None;
                    SubscriptionRecord.updatedAt := now env |} in
             ret {| SubscriptionResult.checkoutUrl := PreApprovalCreated.init_point preapproval;
                    SubscriptionResult.subscription := subscription |}
         end)%M
  end.

End ServerEndpoints.

(** ** Further scenarios *)

Module Cases.

(** Options whose callbacks throw. *)
Definition throwing : Options :=
  {| webhookSecret := Some Scenario.secret; baseUrl := None; trustedOrigins := None;
     onPaymentUpdate := Some (fun _ _ => Some Scenario.no_error);
     onSubscriptionUpdate := Some (fun _ _ => Some Scenario.no_error);
     onSubscriptionPayment := Some (fun _ _ => Some Scenario.no_error) |}.

(** The notification of [Scenario], of another type. *)
Definition notification (type : string) : Notification.t :=
  {| Notification.type := Some type;
     Notification.data_id := Some "pay_1"%string;
     Notification.has_request := true;
     Notification.x_signature := Some Scenario.good_signature;
     Notification.x_request_id := Some "req-1"%string |}.

(** The same with a signature of the right length that is not the HMAC. *)
Definition forged : Notification.t :=
  {| Notification.type := Some "payment"%string;
     Notification.data_id := Some "pay_1"%string;
     Notification.has_request := true;
     Notification.x_signature :=
       Some "ts=1700000000,v1=0000000000000000000000000000000000000000000000000000000000000000"%string;
     Notification.x_request_id := Some "req-1"%string |}.

(** A request with an idempotency key. *)
Definition keyed : CreateBody.t :=
  {| CreateBody.items := [Scenario.item]; CreateBody.metadata := None;
     CreateBody.marketplace := None; CreateBody.successUrl := None;
     CreateBody.failureUrl := None; CreateBody.pendingUrl := None;
     CreateBody.idempotencyKey := Some "order-0001"%string |}.

(** A request for a marketplace seller, with a fee of 10 on 100. *)
Definition marketplace : MarketplaceConfig.t :=
  {| MarketplaceConfig.collectorId := "seller_1";
     MarketplaceConfig.applicationFee := Some 10%float;
     MarketplaceConfig.applicationFeePercentage := None |}.

Definition for_seller : CreateBody.t :=
  {| CreateBody.items := [Scenario.item]; CreateBody.metadata := None;
     CreateBody.marketplace := Some marketplace; CreateBody.successUrl := None;
     CreateBody.failureUrl := None; CreateBody.pendingUrl := None;
     CreateBody.idempotencyKey := None |}.

(** A framework whose schema takes every JSON object for the body of
    [Scenario] and refuses anything else. *)
Definition framework : Framework :=
  {| parseBody := fun rawBody => match rawBody with
                                 | JObj _ => Some (Scenario.body None)
                                 | _ => None
                                 end;
     invalidBody := APIError BAD_REQUEST "Invalid body" |}.

Definition other_user : Session.t :=
  {| Session.id := "user_456"; Session.email := "other@example.com" |}.

(** The provider's answer about a payment of 100 that carries [reference]. *)
Definition paid (reference : string) : PaymentResponse.t :=
  {| PaymentResponse.status := Some "approved"%string;
     PaymentResponse.status_detail := Some "accredited"%string;
     PaymentResponse.transaction_amount := Some 100%float;
     PaymentResponse.payment_method_id := Some "visa"%string;
     PaymentResponse.payment_type_id := Some "credit_card"%string;
     PaymentResponse.external_reference := Some reference |}.

Definition authorized : PreApprovalResponse.t :=
  {| PreApprovalResponse.status := Some "authorized"%string;
     PreApprovalResponse.reason := Some "Premium"%string;
     PreApprovalResponse.next_payment_date := Some 1702592000000%Z;
     PreApprovalResponse.last_modified := None;
     PreApprovalResponse.summarized := None |}.

(** An environment whose provider answers every payment id with
    [payment] and every pre-approval id with [authorized]. *)
Definition env (now : Z) (payment : MpError.t + PaymentResponse.t) : Env :=
  {| now := now; baseURL := "https://app.test";
     fresh := fun n => ("id_" ++ index_key n)%string;
     adapter_down := None;
     paymentGet := fun _ => payment;
     preApprovalGet := fun _ => inr authorized;
     customerCreate := fun _ => inr "cus_1"%string;
     preferenceCreate :=
       fun _ => inr {| PreferenceResponse.id := "pref_123";
                       PreferenceResponse.init_point := "https://mp.test/checkout?pref_id=pref_123" |};
     production := false;
     parseUrl := fun _ => None |}.

Definition provider : Provider :=
  {| preApprovalCreate :=
       fun _ => inr {| PreApprovalCreated.id := "pay_1";
                       PreApprovalCreated.init_point := "https://mp.test/subscribe/pay_1" |};
     preApprovalUpdate := fun _ _ => inr tt |}.

Definition subscription : SubscriptionRecord.t :=
  {| SubscriptionRecord.id := "sub_1"; SubscriptionRecord.userId := "user_123";
     SubscriptionRecord.mercadoPagoSubscriptionId := "pay_1";
     SubscriptionRecord.planId := "plan_1"; SubscriptionRecord.status := "pending";
     SubscriptionRecord.reason := None; SubscriptionRecord.nextPaymentDate := None;
     SubscriptionRecord.lastPaymentDate := None; SubscriptionRecord.summarized := None;
     SubscriptionRecord.updatedAt := 1699999000000%Z |}.

Definition subscribed : World := with_subscriptions [subscription] empty_world.

Definition by_plan : SubscriptionBody.t :=
  {| SubscriptionBody.preapprovalPlanId := Some "plan_1"%string;
     SubscriptionBody.reason := None; SubscriptionBody.autoRecurring := None;
     SubscriptionBody.backUrl := None |}.

(** The value of a run that returned, and a default for one that threw. *)
Definition returned {A} (default : A) (r : Outcome A * World) : A :=
  match r.1 with
  | Return a => a
  | Throw _ => default
  end.

Definition no_result : CreateResult.t :=
  {| CreateResult.checkoutUrl := ""; CreateResult.preferenceId := "";
     CreateResult.payment := Scenario.pending |}.

Definition result_of (r : Outcome IdempotencyStore.Cached * World) : CreateResult.t :=
  match r.1 with
  | Return (IdempotencyStore.CResult result) => result
  | _ => no_result
  end.

Definition no_customer : CustomerRecord.t :=
  {| CustomerRecord.id := ""; CustomerRecord.userId := ""; CustomerRecord.mercadoPagoId := "";
     CustomerRecord.email := ""; CustomerRecord.createdAt := 0; CustomerRecord.updatedAt := 0 |}.

Definition no_subscription : SubscriptionResult.t :=
  {| SubscriptionResult.checkoutUrl := ""; SubscriptionResult.subscription := subscription |}.

End Cases.

(** * Properties *)

(** ** Rate limiter *)

Section RateLimiterWindow.

Variables (key : string) (maxAttempts windowMs : Z).

Lemma check_fresh now (attempts : gmap string RateLimiter.Attempt) :
  attempts !! key = None ->
  RateLimiter.check now key maxAttempts windowMs attempts
  = (true, <[key := {| RateLimiter.count := 1;
                       RateLimiter.resetAt := (now + windowMs)%Z |}]> attempts).
Proof. intros H. unfold RateLimiter.check. now rewrite H. Qed.

Lemma check_expired now (attempts : gmap string RateLimiter.Attempt) record :
  attempts !! key = Some record ->
  (RateLimiter.resetAt record < now)%Z ->
  RateLimiter.check now key maxAttempts windowMs attempts
  = (true, <[key := {| RateLimiter.count := 1;
                       RateLimiter.resetAt := (now + windowMs)%Z |}]> attempts).
Proof.
  intros H Hlt. unfold RateLimiter.check. rewrite H.
  destruct (Z.gtb_spec now (RateLimiter.resetAt record)); [reflexivity | lia].
Qed.

Lemma check_within now (attempts : gmap string RateLimiter.Attempt) c r :
  attempts !! key = Some {| RateLimiter.count := c; RateLimiter.resetAt := r |} ->
  (now <= r)%Z -> (c < maxAttempts)%Z ->
  RateLimiter.check now key maxAttempts windowMs attempts
  = (true, <[key := {| RateLimiter.count := (c + 1)%Z; RateLimiter.resetAt := r |}]> attempts).
Proof.
  intros H Hle Hc. unfold RateLimiter.check. rewrite H. cbn.
  destruct (Z.gtb_spec now r); [lia |].
  destruct (Z.geb_spec c maxAttempts); [lia | reflexivity].
Qed.

Lemma check_exhausted now (attempts : gmap string RateLimiter.Attempt) c r :
  attempts !! key = Some {| RateLimiter.count := c; RateLimiter.resetAt := r |} ->
  (now <= r)%Z -> (maxAttempts <= c)%Z ->
  RateLimiter.check now key maxAttempts windowMs attempts = (false, attempts).
Proof.
  intros H Hle Hc. unfold RateLimiter.check. rewrite H. cbn.
  destruct (Z.gtb_spec now r); [lia |].
  destruct (Z.geb_spec c maxAttempts); [reflexivity | lia].
Qed.

(** Calls inside the window succeed while the count stays below the
    maximum, and each one adds one to the count. *)
Lemma run_within times : forall (attempts : gmap string RateLimiter.Attempt) c r,
  attempts !! key = Some {| RateLimiter.count := c; RateLimiter.resetAt := r |} ->
  Forall (fun t => (t <= r)%Z) times ->
  (c + Z.of_nat (length times) <= maxAttempts)%Z ->
  let out := RateLimiter.run key maxAttempts windowMs times attempts in
  out.1 = repeat true (length times)
  /\ out.2 !! key = Some {| RateLimiter.count := (c + Z.of_nat (length times))%Z;
                             RateLimiter.resetAt := r |}.
Proof.
  induction times as [|t times IH]; intros attempts c r Hk Hall Hc; cbn.
  - split; [reflexivity |]. rewrite Hk. do 2 f_equal. lia.
  - inversion Hall as [|? ? Ht Hrest]; subst.
    cbn [length] in Hc.
    rewrite (check_within t attempts c r) by (auto; lia). cbn.
    destruct (IH (<[key := {| RateLimiter.count := (c + 1)%Z; RateLimiter.resetAt := r |}]> attempts)
                 (c + 1)%Z r) as [IH1 IH2].
    + apply lookup_insert_eq.
    + assumption.
    + lia.
    + split; [now rewrite IH1 |]. rewrite IH2. do 2 f_equal. lia.
Qed.

(** Whatever happens inside the window, the window itself stays. *)
Lemma run_keeps_window times : forall (attempts : gmap string RateLimiter.Attempt) c r,
  attempts !! key = Some {| RateLimiter.count := c; RateLimiter.resetAt := r |} ->
  Forall (fun t => (t <= r)%Z) times ->
  exists c', (RateLimiter.run key maxAttempts windowMs times attempts).2 !! key
             = Some {| RateLimiter.count := c'; RateLimiter.resetAt := r |}.
Proof.
  induction times as [|t times IH]; intros attempts c r Hk Hall; cbn.
  - eauto.
  - inversion Hall as [|? ? Ht Hrest]; subst.
    destruct (Z.lt_ge_cases c maxAttempts) as [Hlt|Hge].
    + rewrite (check_within t attempts c r) by auto. cbn.
      eapply IH; [apply lookup_insert_eq | assumption].
    + rewrite (check_exhausted t attempts c r) by (auto; lia). cbn.
      eapply IH; eauto.
Qed.

Lemma run_app t1 t2 (attempts : gmap string RateLimiter.Attempt) :
  RateLimiter.run key maxAttempts windowMs (t1 ++ t2) attempts
  = let a := RateLimiter.run key maxAttempts windowMs t1 attempts in
    let b := RateLimiter.run key maxAttempts windowMs t2 a.2 in
    (a.1 ++ b.1, b.2).
Proof.
  revert attempts. induction t1 as [|t t1 IH]; intros attempts; cbn.
  - now destruct (RateLimiter.run key maxAttempts windowMs t2 attempts).
  - now rewrite IH.
Qed.

End RateLimiterWindow.

(** C8. Fixed-window rate limiting. Starting without a record for [key],
    with a maximum of [N >= 1] attempts and a window of [W] milliseconds:
    the first call (at [t1]) stores count 1 with the reset time [t1 + W] and
    succeeds; the first [N] calls made no later than [t1 + W] all succeed;
    call [N + 1] inside the same window returns [false]; and after any
    number of calls inside the window, a call later than [t1 + W] succeeds
    and opens a new window with count 1. *)
Theorem rate_limiter_fixed_window
  (key : string) (N : nat) (W t1 : Z) (within : list Z) (over : Z)
  (attempts : gmap string RateLimiter.Attempt) :
  (1 <= N)%nat ->
  attempts !! key = None ->
  length within = (N - 1)%nat ->
  Forall (fun t => (t <= t1 + W)%Z) within ->
  (over <= t1 + W)%Z ->
  RateLimiter.check t1 key (Z.of_nat N) W attempts
  = (true, <[key := {| RateLimiter.count := 1; RateLimiter.resetAt := (t1 + W)%Z |}]> attempts)
  /\ (RateLimiter.run key (Z.of_nat N) W (t1 :: within ++ [over]) attempts).1
     = repeat true N ++ [false]
  /\ forall (inside : list Z) (late : Z),
       Forall (fun t => (t <= t1 + W)%Z) inside ->
       (t1 + W < late)%Z ->
       let before := (RateLimiter.run key (Z.of_nat N) W (t1 :: inside) attempts).2 in
       RateLimiter.check late key (Z.of_nat N) W before
       = (true, <[key := {| RateLimiter.count := 1; RateLimiter.resetAt := (late + W)%Z |}]> before).
Proof.
  intros HN Hnone Hlen Hwithin Hover.
  pose proof (check_fresh key (Z.of_nat N) W t1 attempts Hnone) as Hfirst.
  split; [exact Hfirst |]. split.
  - cbn [RateLimiter.run]. rewrite Hfirst. cbn [fst snd].
    rewrite run_app. cbn [fst snd].
    set (a1 := <[key := _]> attempts).
    destruct (run_within key (Z.of_nat N) W within a1 1 (t1 + W)%Z) as [R1 R2].
    { apply lookup_insert_eq. }
    { assumption. }
    { rewrite Hlen. lia. }
    rewrite R1. cbn [RateLimiter.run].
    rewrite (check_exhausted key (Z.of_nat N) W over _ _ _ R2) by (auto; rewrite Hlen; lia).
    cbn. rewrite Hlen.
    replace N with (S (N - 1)) at 2 by lia. reflexivity.
  - intros inside late Hin Hlate before. subst before.
    cbn [RateLimiter.run]. rewrite Hfirst. cbn [fst snd].
    destruct (run_keeps_window key (Z.of_nat N) W inside
                (<[key := {| RateLimiter.count := 1; RateLimiter.resetAt := (t1 + W)%Z |}]> attempts)
                1 (t1 + W)%Z) as [c' Hc'].
    { apply lookup_insert_eq. }
    { assumption. }
    eapply check_expired; [exact Hc' | cbn; lia].
Qed.

Lemma rate_limiter_fixed_window_witness :
  let key := "payment:create:user_123"%string in
  RateLimiter.check 0 key (Z.of_nat 3) 60000 ∅
  = (true, <[key := {| RateLimiter.count := 1; RateLimiter.resetAt := (0 + 60000)%Z |}]> ∅)
  /\ (RateLimiter.run key (Z.of_nat 3) 60000 (0 :: [10; 59999] ++ [60000])%Z ∅).1
     = repeat true 3 ++ [false]
  /\ forall (inside : list Z) (late : Z),
       Forall (fun t => (t <= 0 + 60000)%Z) inside ->
       (0 + 60000 < late)%Z ->
       let before := (RateLimiter.run key (Z.of_nat 3) 60000 (0%Z :: inside) ∅).2 in
       RateLimiter.check late key (Z.of_nat 3) 60000 before
       = (true, <[key := {| RateLimiter.count := 1;
                            RateLimiter.resetAt := (late + 60000)%Z |}]> before).
Proof.
  apply (rate_limiter_fixed_window "payment:create:user_123" 3 60000 0
           [10; 59999]%Z 60000%Z ∅).
  - lia.
  - apply lookup_empty.
  - reflexivity.
  - repeat constructor; lia.
  - lia.
Defined.

(** ** node:crypto: known answers, and the shape of a hex digest *)

Example round_constants :
  length Crypto.K = 64%nat
  /\ nth 0 Crypto.K 0%Z = 0x428a2f98%Z /\ nth 63 Crypto.K 0%Z = 0xc67178f2%Z
  /\ Crypto.ha Crypto.H0 = 0x6a09e667%Z /\ Crypto.hh Crypto.H0 = 0x5be0cd19%Z.
Proof. repeat split; reflexivity. Qed.

Example sha256_abc :
  Crypto.hex (Crypto.digest_bytes (Crypto.sha256 (Crypto.bytes_of "abc")))
  = "ba7816bf8f01cfea414140de5dae2223b00361a396177a9cb410ff61f20015ad"%string.
Proof. vm_compute. reflexivity. Qed.

Example hmac_rfc4231_case2 :
  Crypto.hmac_sha256_hex "Jefe" "what do ya want for nothing?"
  = "5bdcc146bf60754e6a042426089575c75a003f089d2739839dec58b964ec3843"%string.
Proof. vm_compute. reflexivity. Qed.

Example hmac_long_key :
  Crypto.hmac_sha256_hex
    "kkkkkkkkkkkkkkkkkkkkkkkkkkkkkkkkkkkkkkkkkkkkkkkkkkkkkkkkkkkkkkkkkkkkkk"
    "id:pay_1;request-id:req-1;ts:1700000000;"
  = "547535908a9ef6b16099e458fd6ca493803c8c4861574f1350492fcbebe26466"%string.
Proof. vm_compute. reflexivity. Qed.

Lemma string_length_of_list (l : list ascii) :
  String.length (string_of_list_ascii l) = length l.
Proof. induction l as [|c l IH]; cbn; [reflexivity | now rewrite IH]. Qed.







(** ** Splitting and mutating strings *)


Lemma append_nil (s : string) : ("" ++ s)%string = s.
Proof. reflexivity. Qed.

Lemma append_cons (c : ascii) (a b : string) :
  (String c a ++ b)%string = String c (a ++ b).
Proof. reflexivity. Qed.






Lemma falsy_nonempty (s : string) : s <> EmptyString -> Js.falsy (Some s) = false.
Proof. destruct s; [congruence | reflexivity]. Qed.


(** ** The signature verifier *)






(** The verdicts the verifier does give as [false]. *)
Lemma verify_missing_header (xSignature xRequestId : option string) (dataId secret : string) :
  Js.falsy xSignature = true \/ Js.falsy xRequestId = true ->
  verifyWebhookSignature xSignature xRequestId dataId secret = Return false.
Proof.
  intros [H|H]; unfold verifyWebhookSignature; rewrite H; [reflexivity |].
  now rewrite orb_true_r.
Qed.

Lemma verify_missing_component (sig requestId dataId secret : string) :
  Js.falsy (component "ts=" (Js.split "," sig)) = true
  \/ Js.falsy (component "v1=" (Js.split "," sig)) = true ->
  verifyWebhookSignature (Some sig) (Some requestId) dataId secret = Return false.
Proof.
  intros H. unfold verifyWebhookSignature.
  destruct (Js.falsy (Some sig) || Js.falsy (Some requestId)); [reflexivity |].
  cbn [from_option id].
  destruct H as [H|H]; rewrite H; [reflexivity | now rewrite orb_true_r].
Qed.

(** The verifier never accepts a hash other than the expected one. *)
Lemma verify_true_only_expected (xSignature xRequestId : option string) (dataId secret : string) :
  verifyWebhookSignature xSignature xRequestId dataId secret = Return true ->
  exists sig requestId ts,
    xSignature = Some sig /\ xRequestId = Some requestId
    /\ component "ts=" (Js.split "," sig) = Some ts
    /\ component "v1=" (Js.split "," sig)
       = Some (Crypto.hmac_sha256_hex secret (manifest dataId requestId ts)).
Proof.
  unfold verifyWebhookSignature.
  destruct xSignature as [sig|]; [| discriminate].
  destruct xRequestId as [requestId|]; [| now rewrite orb_true_r].
  destruct (Js.falsy (Some sig) || Js.falsy (Some requestId)); [discriminate |].
  cbn [from_option id].
  destruct (component "ts=" (Js.split "," sig)) as [ts|] eqn:Ets; [| discriminate].
  destruct (component "v1=" (Js.split "," sig)) as [hash|] eqn:Eh;
    [| now rewrite orb_true_r].
  destruct (Js.falsy (Some ts) || Js.falsy (Some hash)); [discriminate |].
  cbn [from_option id]. unfold Crypto.timingSafeEqual.
  destruct (Nat.eqb _ _); [| discriminate].
  intros H. injection H as H. apply String.eqb_eq in H. subst hash.
  exists sig, requestId, ts. tauto.
Qed.


(** C4. The verifier is not total as a boolean function: on the header
    [ts=1700000000,v1=abc], whose [v1] has three characters instead of the
    64 of the digest, [crypto.timingSafeEqual] throws a [RangeError] and so
    does [verifyWebhookSignature], where the claim expects [false]. *)
Theorem verifier_throws_on_short_hash :
  verifyWebhookSignature (Some "ts=1700000000,v1=abc"%string) (Some "req-1"%string)
                         "pay_1" "s3cret"
  = Throw RangeError.
Proof. vm_compute. reflexivity. Qed.

(** ** Replacing one character of the hash *)

Ltac div_elim a b :=
  let q := fresh "q" in
  let r := fresh "r" in
  pose proof (N.div_mod a b ltac:(discriminate));
  pose proof (N.mod_lt a b ltac:(discriminate));
  set (q := (a / b)%N) in *; set (r := (a mod b)%N) in *; clearbody q r.

(** Linear arithmetic over [N] with divisions by constants. *)
Ltac div_lia :=
  repeat match goal with
         | |- context [ (?a / ?b)%N ] => div_elim a b
         | H : context [ (?a / ?b)%N ] |- _ => div_elim a b
         | |- context [ (?a mod ?b)%N ] => div_elim a b
         | H : context [ (?a mod ?b)%N ] |- _ => div_elim a b
         end;
  lia.

(** The cases of [Utf8.encode], each with its bounds. *)
Ltac encode_cases cp :=
  unfold Utf8.encode, Utf8.is_surrogate;
  destruct (N.ltb_spec cp 0x80);
  [| destruct (N.ltb_spec cp 0x800);
     [| destruct (N.leb_spec 0xD800 cp); destruct (N.leb_spec cp 0xDFFF);
        cbn [andb]; try destruct (N.ltb_spec cp 0x10000) ] ].














(** ** Metadata sanitizer *)


Lemma substring_length_le (n : nat) (s : string) :
  (String.length (String.substring 0 n s) <= n)%nat.
Proof.
  revert s. induction n as [|n IH]; intros [|c s]; cbn; try lia.
  specialize (IH s). lia.
Qed.


Lemma sanitize_obj (fields : list (string * Json)) :
  sanitizeMetadata (JObj fields)
  = JObj (omap (fun kv => sanitizeEntry kv.1 kv.2 (sanitizeMetadata kv.2)) fields).
Proof.
  cbn [sanitizeMetadata]. f_equal.
  induction fields as [|[k v] rest IH]; [reflexivity |].
  cbn [omap list_omap fst snd]. rewrite <- IH.
  now destruct (sanitizeEntry k v (sanitizeMetadata v)).
Qed.

Lemma sanitize_arr (items : list Json) :
  sanitizeMetadata (JArr items) = JObj (sanitize_items 0 items).
Proof.
  reflexivity.
Qed.

Lemma polluting_fields (fields : list (string * Json)) :
  has_polluting_key (JObj fields)
  = existsb (fun kv => polluting kv.1 || has_polluting_key kv.2) fields.
Proof.
  cbn [has_polluting_key].
  induction fields as [|[k v] rest IH]; [reflexivity |].
  cbn [existsb fst snd]. now rewrite IH.
Qed.

Lemma within_fields (n : nat) (fields : list (string * Json)) :
  strings_within n (JObj fields) = forallb (fun kv => strings_within n kv.2) fields.
Proof.
  cbn [strings_within].
  induction fields as [|[k v] rest IH]; [reflexivity |].
  cbn [forallb fst snd]. now rewrite IH.
Qed.


Lemma clean_object (fields : list (string * Json)) :
  Forall clean_entry fields -> clean (JObj fields).
Proof.
  intros H. unfold clean. rewrite polluting_fields, within_fields.
  induction H as [|[k v] rest (Hk & Hp & Hs) _ [IH1 IH2]]; [split; reflexivity |].
  cbn [existsb forallb fst snd] in *. now rewrite Hk, Hp, Hs, IH1, IH2.
Qed.

(** What one pass of the loop keeps of an entry is clean when the nested
    result is. *)
Lemma sanitizeEntry_clean (key : string) (value nested : Json) (e : string * Json) :
  clean nested -> sanitizeEntry key value nested = Some e -> clean_entry e.
Proof.
  intros Hn. unfold sanitizeEntry, clean_entry, clean.
  destruct (polluting key) eqn:Hk; [discriminate |].
  destruct value as [| b | x | s | items | fields]; try (intros [= <-]; now auto).
  destruct (Nat.ltb_spec max_string_length (String.length s)); intros [= <-]; cbn [fst snd].
  - split; [assumption |]. split; [reflexivity |].
    cbn [strings_within]. apply Nat.leb_le, substring_length_le.
  - split; [assumption |]. split; [reflexivity |].
    cbn [strings_within]. now apply Nat.leb_le.
Qed.

(** The output has none of the three keys at any depth and no string of
    more than 5000 characters. *)
Lemma sanitize_clean (metadata : Json) : clean (sanitizeMetadata metadata).
Proof.
  induction metadata as [| b | x | s | items IH | fields IH] using Json_nested_ind;
    try (split; reflexivity).
  - rewrite sanitize_arr. apply clean_object. generalize 0%nat.
    induction IH as [|value rest Hv _ IHrest]; intros i; [constructor |].
    cbn [sanitize_items].
    destruct (sanitizeEntry (index_key i) value (sanitizeMetadata value)) as [e|] eqn:He;
      [| apply IHrest].
    constructor; [| apply IHrest]. eapply sanitizeEntry_clean; eassumption.
  - rewrite sanitize_obj. apply clean_object.
    induction IH as [|[key value] rest Hv _ IHrest]; [constructor |].
    cbn [omap list_omap fst snd] in *.
    destruct (sanitizeEntry key value (sanitizeMetadata value)) as [e|] eqn:He;
      [| apply IHrest].
    constructor; [| apply IHrest]. eapply sanitizeEntry_clean; eassumption.
Qed.

(** A scalar value that is not a long string is kept as it is. *)
Lemma sanitize_keeps_scalar (key : string) (value : Json) (rest : list (string * Json)) :
  polluting key = false ->
  match value with
  | JNull | JBool _ | JNum _ => True
  | JStr s => (String.length s <= max_string_length)%nat
  | _ => False
  end ->
  sanitizeMetadata (JObj ((key, value) :: rest))
  = JObj ((key, value) :: fields_of (sanitizeMetadata (JObj rest))).
Proof.
  intros Hk Hv. cbn [sanitizeMetadata fields_of]. unfold sanitizeEntry at 1. rewrite Hk.
  destruct value as [| b | x | s | items | fields]; try reflexivity; try contradiction.
  destruct (Nat.ltb_spec max_string_length (String.length s)); [lia | reflexivity].
Qed.

(** An array value does not stay an array: it comes out as the object of
    its indices. *)
Lemma sanitize_array_becomes_object (key : string) (items : list Json)
  (rest : list (string * Json)) :
  polluting key = false ->
  exists fields,
    sanitizeMetadata (JObj ((key, JArr items) :: rest))
    = JObj ((key, JObj fields) :: fields_of (sanitizeMetadata (JObj rest))).
Proof.
  intros Hk. cbn [sanitizeMetadata fields_of]. unfold sanitizeEntry at 1. rewrite Hk.
  eexists. reflexivity.
Qed.

(** C7. The sanitizer does not leave arrays untouched. On
    [{ tags: ["a", 1] }] it returns [{ tags: { "0": "a", "1": 1 } }]: the
    array has become a plain object keyed by its indices, where the claim
    says that it remains an array. *)
Theorem sanitize_rewrites_arrays :
  sanitizeMetadata (JObj [("tags", JArr [JStr "a"; JNum 1])]%string)
  = JObj [("tags", JObj [("0", JStr "a"); ("1", JNum 1)])]%string.
Proof. reflexivity. Qed.

Example sanitize_strips_proto :
  sanitizeMetadata
    (JObj [("orderId", JStr "123"); ("__proto__", JObj [("isAdmin", JBool true)]);
           ("nested", JObj [("constructor", JNull); ("k", JStr "v")])]%string)
  = JObj [("orderId", JStr "123"); ("nested", JObj [("k", JStr "v")])]%string.
Proof. reflexivity. Qed.

Example sanitize_truncates_6000 :
  sanitizeMetadata (JObj [("note", JStr (string_of_list_ascii (repeat "x"%char (6 * 1000))))]%string)
  = JObj [("note", JStr (string_of_list_ascii (repeat "x"%char (5 * 1000))))]%string.
Proof. vm_compute. reflexivity. Qed.

(** ** Running a monadic program symbolically *)



Lemma wp_ret {A} (a : A) Q w : Q (Return a) w -> wp (ret a) Q w.
Proof. exact id. Qed.

Lemma wp_throw {A} (e : Exn) (Q : Outcome A -> World -> Prop) w :
  Q (Throw e) w -> wp (throw e) Q w.
Proof. exact id. Qed.

Lemma wp_bind {A B} (m : M A) (k : A -> M B) Q w :
  wp m (fun o w' => match o with
                    | Return a => wp (k a) Q w'
                    | Throw e => Q (Throw e) w'
                    end) w ->
  wp (bind m k) Q w.
Proof. unfold wp, bind. now destruct (m w) as [[a|e] w']. Qed.

Lemma wp_try_catch {A} (m : M A) (h : Exn -> M A) Q w :
  wp m (fun o w' => match o with
                    | Return a => Q (Return a) w'
                    | Throw e => wp (h e) Q w'
                    end) w ->
  wp (try_catch m h) Q w.
Proof. unfold wp, try_catch. now destruct (m w) as [[a|e] w']. Qed.

Lemma wp_emit (e : Event) Q w :
  Q (Return tt) (with_trace (trace w ++ [e]) w) -> wp (emit e) Q w.
Proof. exact id. Qed.

Lemma wp_gets {A} (f : World -> A) Q w : Q (Return (f w)) w -> wp (gets f) Q w.
Proof. exact id. Qed.

Lemma wp_modify (f : World -> World) Q w : Q (Return tt) (f w) -> wp (modify f) Q w.
Proof. exact id. Qed.



Lemma wp_mono {A} (m : M A) (Q Q' : Outcome A -> World -> Prop) w :
  wp m Q w -> (forall o w', Q o w' -> Q' o w') -> wp m Q' w.
Proof. unfold wp. auto. Qed.

(** Projections of an updated world. *)
Ltac world_simpl :=
  cbn [trace attempts idempotency mercadoPagoCustomer mercadoPagoPayment
       mercadoPagoSubscription mercadoPagoMarketplaceSplit next_id
       with_trace with_attempts with_idempotency with_customers with_payments
       with_subscriptions with_splits with_next_id fst snd] in *.

(** One step of symbolic execution. A branch is decided by a hypothesis
    when there is one for its condition, and split otherwise. *)
Ltac decide_branch x :=
  first
    [ match goal with H : x = _ |- _ => rewrite H end
    | let E := fresh "E" in destruct x eqn:E ].

Ltac wp_step :=
  lazymatch goal with
  | |- wp (bind _ _) _ _ => apply wp_bind
  | |- wp (try_catch _ _) _ _ => apply wp_try_catch
  | |- wp (ret _) _ _ => apply wp_ret
  | |- wp (throw _) _ _ => apply wp_throw
  | |- wp (emit _) _ _ => apply wp_emit
  | |- wp (log _ _) _ _ => apply wp_emit
  | |- wp (when ?b _) _ _ => unfold when
  | |- wp (call _ _) _ _ => unfold call
  | |- wp (invoke _ _) _ _ => unfold invoke
  | |- wp (adapter_call _) _ _ => unfold adapter_call
  | |- wp (gets _) _ _ => apply wp_gets
  | |- wp (modify _) _ _ => apply wp_modify
  | |- wp (rateLimit _ _ _ _) _ _ => unfold rateLimit
  | |- wp (idempotencyGet _ _) _ _ => unfold idempotencyGet
  | |- wp (idempotencySet _ _ _ _) _ _ => unfold idempotencySet
  | |- wp (draw _) _ _ => unfold draw
  | |- wp (generateId _) _ _ => unfold generateId
  | |- wp (adapterId _) _ _ => unfold adapterId
  | |- wp (Adapter.findCustomer _ _) _ _ => unfold Adapter.findCustomer
  | |- wp (Adapter.createCustomer _ _) _ _ => unfold Adapter.createCustomer
  | |- wp (Adapter.findPayment _ _ _ _) _ _ => unfold Adapter.findPayment
  | |- wp (Adapter.createPayment _ _) _ _ => unfold Adapter.createPayment
  | |- wp (Adapter.updatePayment _ _ _) _ _ => unfold Adapter.updatePayment
  | |- wp (Adapter.findSubscription _ _ _ _) _ _ => unfold Adapter.findSubscription
  | |- wp (Adapter.updateSubscription _ _ _) _ _ => unfold Adapter.updateSubscription
  | |- wp (Adapter.createSplit _ _) _ _ => unfold Adapter.createSplit
  | |- wp (if ?b then _ else _) _ _ => decide_branch b
  | |- wp (match ?x with _ => _ end) _ _ => decide_branch x
  | |- wp (let _ := _ in _) _ _ => cbv zeta
  end;
  cbv beta; cbn [fst snd]; cbv match.

Ltac wp_run := repeat wp_step.

(** ** Traces *)

Lemma count_app (p : Event -> bool) (a b : list Event) :
  count p (a ++ b) = (count p a + count p b)%nat.
Proof. unfold count. now rewrite List.filter_app, length_app. Qed.

Lemma count_zero_forall (p : Event -> bool) (t : list Event) :
  count p t = 0%nat <-> forallb (fun e => negb (p e)) t = true.
Proof.
  unfold count. induction t as [|e t IH]; cbn; [tauto |].
  destruct (p e); cbn; [split; [lia | discriminate] | exact IH].
Qed.


Ltac trace_norm := rewrite <- ?app_assoc; cbn [app].

Ltac solve_processed :=
  unfold processed; world_simpl;
  split; [reflexivity |]; split; [reflexivity |];
  eexists; split; [trace_norm; try reflexivity; rewrite app_nil_r; reflexivity |];
  cbn; repeat split; try lia; try reflexivity; try discriminate.

Lemma Server_on_payment_processed opts env id w :
  wp (Server.on_payment opts env id) (processed w) w.
Proof.
  unfold Server.on_payment. wp_run; solve_processed.
Qed.

Lemma Server_on_preapproval_processed opts env id w :
  wp (Server.on_preapproval opts env id) (processed w) w.
Proof.
  unfold Server.on_preapproval. wp_run; solve_processed.
Qed.

Lemma Server_on_authorized_payment_processed opts env id w :
  wp (Server.on_authorized_payment opts env id) (processed w) w.
Proof.
  unfold Server.on_authorized_payment. wp_run; solve_processed.
Qed.

Lemma processed_refl w {A} (o : Outcome A) : processed w o w.
Proof.
  unfold processed. split; [reflexivity |]. split; [reflexivity |].
  exists []. rewrite app_nil_r. cbn. repeat split; lia.
Qed.


Ltac eval_type_tests := cbn [String.eqb Ascii.eqb Bool.eqb orb andb when].

(** Finish with the summary [L] of the handler that is left to run. *)
Ltac by_summary L :=
  wp_run; eapply wp_mono; [apply L | intros [?|?] ? ?; wp_run; assumption].

(** The three [if]s of the [try] block test for disjoint sets of types, so
    that at most one of the handlers runs. *)
Lemma Server_process_processed opts env type id w :
  wp (Server.process opts env type id) (processed w) w.
Proof.
  unfold Server.process.
  destruct (String.eqb_spec type "payment") as [->|_].
  { eval_type_tests. by_summary Server_on_payment_processed. }
  destruct (String.eqb_spec type "subscription_preapproval") as [->|_].
  { eval_type_tests. by_summary Server_on_preapproval_processed. }
  destruct (String.eqb_spec type "subscription_preapproval_plan") as [->|_].
  { eval_type_tests. by_summary Server_on_preapproval_processed. }
  destruct (String.eqb_spec type "subscription_authorized_payment") as [->|_].
  { eval_type_tests. by_summary Server_on_authorized_payment_processed. }
  destruct (String.eqb_spec type "authorized_payment") as [->|_].
  { eval_type_tests. by_summary Server_on_authorized_payment_processed. }
  eval_type_tests. wp_run. apply processed_refl.
Qed.

Lemma ExternalRef_process_processed opts env id w :
  wp (ExternalRef.process opts env id) (processed w) w.
Proof.
  unfold ExternalRef.process. wp_run; solve_processed.
Qed.

(** ** The webhook endpoints *)

(** Use the boolean facts at hand before looking at a branch. *)
Ltac rew_hyps :=
  cbn [trace attempts idempotency mercadoPagoCustomer mercadoPagoPayment
       mercadoPagoSubscription mercadoPagoMarketplaceSplit next_id
       with_trace with_attempts with_idempotency with_customers with_payments
       with_subscriptions with_splits with_next_id fst snd from_option id
       is_api_error];
  repeat match goal with
         | H : _ = true |- _ => progress (rewrite H)
         | H : _ = false |- _ => progress (rewrite H)
         | H : _ = Some _ |- _ => progress (rewrite H)
         | H : _ = None |- _ => progress (rewrite H)
         | H : _ = inl _ |- _ => progress (rewrite H)
         | H : _ = inr _ |- _ => progress (rewrite H)
         | H : _ = Return _ |- _ => progress (rewrite H)
         | H : _ = (_, _) |- _ => progress (rewrite H)
         end;
  cbn [negb orb andb fst snd]; cbv match.

Ltac wp_go := repeat (rew_hyps; wp_step).

Lemma valid_topic_nonempty (type : string) :
  isValidWebhookTopic type = true -> Js.falsy (Some type) = false.
Proof. destruct type; [discriminate | reflexivity]. Qed.

Lemma get_marked now key (store : gmap string IdempotencyStore.Entry) entry :
  store !! key = Some entry -> (now <= IdempotencyStore.expiresAt entry)%Z ->
  IdempotencyStore.get now key store = (Some (IdempotencyStore.result entry), store).
Proof.
  intros H Hle. unfold IdempotencyStore.get. rewrite H.
  destruct (Z.gtb_spec now (IdempotencyStore.expiresAt entry)); [lia | reflexivity].
Qed.

Lemma signature_step opts n id logged Q w :
  signature_ok opts n id = true ->
  Q (Return tt) w ->
  wp (signature_check logged opts n id) Q w.
Proof.
  unfold signature_ok, signature_check. intros H HQ.
  destruct (Js.falsy (webhookSecret opts)); cbn [negb orb] in *; [exact HQ |].
  unfold verify_step.
  destruct (verifyWebhookSignature _ _ _ _) as [[|]|]; try discriminate.
  exact HQ.
Qed.


Ltac solve_acknowledged :=
  unfold acknowledged_only, tables; world_simpl;
  repeat split; try reflexivity;
  eexists; split; [trace_norm; reflexivity | reflexivity].

Lemma Server_webhook_marked opts env n w type id entry :
  Notification.type n = Some type -> isValidWebhookTopic type = true ->
  Notification.data_id n = Some id -> id <> EmptyString ->
  Notification.has_request n = true ->
  signature_ok opts n id = true -> within_rate env w = true ->
  idempotency w !! Server.webhookId id type = Some entry ->
  (now env <= IdempotencyStore.expiresAt entry)%Z ->
  wp (Server.webhook opts env n) (acknowledged_only w) w.
Proof.
  intros Htype Hvalid Hid Hne Hreq Hsig Hrate Hmark Hfresh.
  pose proof (valid_topic_nonempty type Hvalid) as Hft.
  pose proof (falsy_nonempty id Hne) as Hfi.
  pose proof (get_marked (now env) _ _ _ Hmark Hfresh) as Hget.
  unfold within_rate in Hrate.
  unfold Server.webhook. wp_go.
  apply signature_step; [assumption |].
  wp_go. solve_acknowledged.
Qed.

Lemma ExternalRef_webhook_marked opts env n w id entry :
  Notification.type n = Some "payment"%string ->
  Notification.data_id n = Some id -> id <> EmptyString ->
  Notification.has_request n = true ->
  signature_ok opts n id = true -> within_rate env w = true ->
  idempotency w !! ExternalRef.webhookId "payment" id = Some entry ->
  (now env <= IdempotencyStore.expiresAt entry)%Z ->
  wp (ExternalRef.webhook opts env n) (acknowledged_only w) w.
Proof.
  intros Htype Hid Hne Hreq Hsig Hrate Hmark Hfresh.
  pose proof (falsy_nonempty id Hne) as Hfi.
  pose proof (get_marked (now env) _ _ _ Hmark Hfresh) as Hget.
  unfold within_rate in Hrate.
  unfold ExternalRef.webhook. rewrite Htype. cbn [opt_eqb String.eqb Ascii.eqb Bool.eqb].
  wp_go.
  apply signature_step; [assumption |].
  wp_go. solve_acknowledged.
Qed.


Lemma not_marked_miss now key (store : gmap string IdempotencyStore.Entry) :
  (IdempotencyStore.get now key store).1 = None ->
  bool_decide (is_Some (IdempotencyStore.get now key store).1) = false.
Proof. intros ->. reflexivity. Qed.

Ltac solve_first Hp :=
  unfold processed, tables in Hp; world_simpl;
  destruct Hp as (_ & Hstore & evs & Htrace & Hu & Hc & Ht);
  unfold first_delivery, tables, opening; world_simpl;
  split;
  [ rewrite Hstore; apply lookup_insert_eq
  | rewrite Htrace;
    eexists; split; [trace_norm; reflexivity |];
    rewrite ?count_app; cbn [count List.filter is_update is_callback length];
    rewrite ?Nat.add_0_r; auto ].

Lemma Server_webhook_first opts env n w type id :
  Notification.type n = Some type -> isValidWebhookTopic type = true ->
  Notification.data_id n = Some id -> id <> EmptyString ->
  Notification.has_request n = true ->
  signature_ok opts n id = true -> within_rate env w = true ->
  (IdempotencyStore.get (now env) (Server.webhookId id type) (idempotency w)).1 = None ->
  wp (Server.webhook opts env n) (first_delivery env (Server.webhookId id type) w) w.
Proof.
  intros Htype Hvalid Hid Hne Hreq Hsig Hrate Hget.
  pose proof (valid_topic_nonempty type Hvalid) as Hft.
  pose proof (falsy_nonempty id Hne) as Hfi.
  pose proof (not_marked_miss _ _ _ Hget) as Hmiss.
  unfold within_rate in Hrate.
  unfold Server.webhook. wp_go.
  apply signature_step; [assumption |].
  wp_go.
  eapply wp_mono; [apply Server_process_processed |].
  intros [[]|e] w' Hp; wp_go; solve_first Hp.
Qed.

Lemma ExternalRef_webhook_first opts env n w id :
  Notification.type n = Some "payment"%string ->
  Notification.data_id n = Some id -> id <> EmptyString ->
  Notification.has_request n = true ->
  signature_ok opts n id = true -> within_rate env w = true ->
  (IdempotencyStore.get (now env) (ExternalRef.webhookId "payment" id) (idempotency w)).1 = None ->
  wp (ExternalRef.webhook opts env n)
     (first_delivery env (ExternalRef.webhookId "payment" id) w) w.
Proof.
  intros Htype Hid Hne Hreq Hsig Hrate Hget.
  pose proof (falsy_nonempty id Hne) as Hfi.
  pose proof (not_marked_miss _ _ _ Hget) as Hmiss.
  unfold within_rate in Hrate.
  unfold ExternalRef.webhook. rewrite Htype. cbn [opt_eqb String.eqb Ascii.eqb Bool.eqb].
  wp_go.
  apply signature_step; [assumption |].
  wp_go.
  eapply wp_mono; [apply ExternalRef_process_processed |].
  intros [[]|e] w' Hp; wp_go; solve_first Hp.
Qed.

(** ** A first delivery, path by path *)

Section FirstDelivery.

Variables (opts : Options) (env : Env) (n : Notification.t) (w : World) (pid : string).
Hypothesis Htype : Notification.type n = Some "payment"%string.
Hypothesis Hid : Notification.data_id n = Some pid.
Hypothesis Hne : pid <> EmptyString.
Hypothesis Hreq : Notification.has_request n = true.
Hypothesis Hsig : signature_ok opts n pid = true.
Hypothesis Hrate : within_rate env w = true.

Ltac enter v :=
  pose proof (falsy_nonempty pid Hne) as Hfi;
  unfold within_rate in Hrate;
  cbn [webhook_of key_of correlated notifies backfill] in *;
  match v with
  | ServerTs => unfold Server.webhook
  | ExternalReference => unfold ExternalRef.webhook
  end;
  rewrite Htype; cbn [opt_eqb String.eqb Ascii.eqb Bool.eqb from_option id];
  change (isValidWebhookTopic "payment") with true;
  change (Js.falsy (Some "payment"%string)) with false;
  wp_go; apply signature_step; [assumption |]; wp_go;
  unfold Server.process, Server.on_payment, ExternalRef.process;
  cbn [String.eqb Ascii.eqb Bool.eqb orb when]; wp_go.

Ltac leaf :=
  unfold tables, opening; world_simpl;
  repeat split; try reflexivity; try (apply lookup_insert_eq);
  try (trace_norm; reflexivity).


(** The record is found and the amounts differ by more than the tolerance. *)
Lemma first_amount_mismatch (v : Variant) (mp : PaymentResponse.t) (p : PaymentRecord.t) :
  (IdempotencyStore.get (now env) (key_of v pid "payment") (idempotency w)).1 = None ->
  paymentGet env pid = inr mp ->
  adapter_down env = None ->
  correlated v pid mp w = Some p ->
  amounts_agree p mp = false ->
  wp (webhook_of v opts env n)
     (fun o w' =>
        o = match v with
            | ServerTs => Throw (APIError BAD_REQUEST "Payment amount mismatch")
            | ExternalReference => Return Received
            end
        /\ tables w' = tables w
        /\ exists evs, trace w' = trace w ++ opening (key_of v pid "payment") ++ evs
                       /\ count is_update evs = 0%nat /\ count is_callback evs = 0%nat) w.
Proof.
  intros Hget Hfetch Hup Hfound Hdiff.
  pose proof (not_marked_miss _ _ _ Hget) as Hmiss.
  unfold amounts_agree in Hdiff.
  destruct v; cbn [correlated] in Hfound.
  - enter ServerTs; leaf; eexists; (split; [trace_norm; reflexivity |]); split; reflexivity.
  - destruct (or_undefined (PaymentResponse.external_reference mp)) as [ref|] eqn:Href;
      [| discriminate].
    enter ExternalReference; leaf;
      eexists; (split; [trace_norm; reflexivity |]); split; reflexivity.
Qed.

(** The record is found, the amounts agree and a callback is configured:
    one update, one callback. *)
Lemma first_applied (v : Variant) (mp : PaymentResponse.t) (p : PaymentRecord.t)
  (callback : PaymentRecord.t -> PaymentResponse.t -> option MpError.t) :
  (IdempotencyStore.get (now env) (key_of v pid "payment") (idempotency w)).1 = None ->
  paymentGet env pid = inr mp ->
  adapter_down env = None ->
  correlated v pid mp w = Some p ->
  amounts_agree p mp = true ->
  onPaymentUpdate opts = Some callback ->
  notifies v mp = true ->
  wp (webhook_of v opts env n)
     (fun o w' =>
        o = Return Received
        /\ mercadoPagoPayment w'
           = update_first (fun r => String.eqb (PaymentRecord.id r) (PaymentRecord.id p))
                          (payment_update (backfill v pid) mp (now env))
                          (mercadoPagoPayment w)
        /\ exists evs, trace w' = trace w ++ opening (key_of v pid "payment") ++ evs
                       /\ count is_update evs = 1%nat /\ count is_callback evs = 1%nat) w.
Proof.
  intros Hget Hfetch Hup Hfound Hsame Hcb Hnot.
  pose proof (not_marked_miss _ _ _ Hget) as Hmiss.
  unfold amounts_agree in Hsame.
  destruct v; cbn [correlated notifies] in Hfound, Hnot.
  - enter ServerTs; leaf; eexists; (split; [trace_norm; reflexivity |]); split; reflexivity.
  - destruct (or_undefined (PaymentResponse.external_reference mp)) as [ref|] eqn:Href;
      [| discriminate].
    apply negb_true_iff in Hnot.
    enter ExternalReference; leaf;
      eexists; (split; [trace_norm; reflexivity |]); split; reflexivity.
Qed.

End FirstDelivery.

(** ** Duplicate deliveries *)

Lemma business_covers (evs : list Event) :
  count business evs = 0%nat ->
  count is_update evs = 0%nat /\ count is_callback evs = 0%nat.
Proof.
  rewrite !count_zero_forall. intros H. split.
  all: rewrite forallb_forall in *; intros e He; specialize (H e He);
    destruct e; cbn in *; congruence.
Qed.

Lemma accepts_valid (v : Variant) (type : string) :
  accepts v type = true -> isValidWebhookTopic type = true.
Proof.
  destruct v; cbn; [exact id |]. intros H. apply String.eqb_eq in H. now subst.
Qed.

(** A delivery whose key is marked, in either variant. *)
Lemma webhook_marked (v : Variant) opts env n w type id entry :
  Notification.type n = Some type -> accepts v type = true ->
  Notification.data_id n = Some id -> id <> EmptyString ->
  Notification.has_request n = true ->
  signature_ok opts n id = true -> within_rate env w = true ->
  idempotency w !! key_of v id type = Some entry ->
  (now env <= IdempotencyStore.expiresAt entry)%Z ->
  wp (webhook_of v opts env n) (acknowledged_only w) w.
Proof.
  intros Htype Hacc. destruct v; cbn [webhook_of key_of accepts] in *.
  - now apply Server_webhook_marked.
  - apply String.eqb_eq in Hacc. subst type. now apply ExternalRef_webhook_marked.
Qed.

(** A delivery whose key is not marked, in either variant. *)
Lemma webhook_first (v : Variant) opts env n w type id :
  Notification.type n = Some type -> accepts v type = true ->
  Notification.data_id n = Some id -> id <> EmptyString ->
  Notification.has_request n = true ->
  signature_ok opts n id = true -> within_rate env w = true ->
  (IdempotencyStore.get (now env) (key_of v id type) (idempotency w)).1 = None ->
  wp (webhook_of v opts env n) (first_delivery env (key_of v id type) w) w.
Proof.
  intros Htype Hacc. destruct v; cbn [webhook_of key_of accepts] in *.
  - now apply Server_webhook_first.
  - apply String.eqb_eq in Hacc. subst type. now apply ExternalRef_webhook_first.
Qed.

(** C1 (amended). In both variants the dedup key is a function of the data
    id and the type of the notification. When a notification that gets past
    the rate limiter and the signature check finds its key unmarked, the key
    is marked before any business event of that delivery. A second delivery
    of the same notification no later than 24 hours after the first is
    acknowledged without any business event and without a change of the
    tables. Over the two deliveries there is therefore at most one update of
    a local record and at most one callback; and exactly one of each when
    the first delivery is a payment notification whose record is found, whose
    amounts agree, with the adapter up and a callback that the variant
    calls. *)
Theorem duplicate_delivery_at_most_once
  (v : Variant) (opts : Options) (env1 env2 : Env) (n : Notification.t) (w : World)
  (type id : string) :
  Notification.type n = Some type -> accepts v type = true ->
  Notification.data_id n = Some id -> id <> EmptyString ->
  Notification.has_request n = true ->
  signature_ok opts n id = true ->
  within_rate env1 w = true ->
  (IdempotencyStore.get (now env1) (key_of v id type) (idempotency w)).1 = None ->
  let first := webhook_of v opts env1 n w in
  within_rate env2 first.2 = true ->
  (now env2 <= now env1 + 24 * 60 * 60 * 1000)%Z ->
  let second := webhook_of v opts env2 n first.2 in
  exists evs1 evs2,
    trace first.2 = trace w ++ opening (key_of v id type) ++ evs1
    /\ trace second.2 = trace first.2 ++ evs2
    /\ second.1 = Return Received
    /\ count business evs2 = 0%nat
    /\ tables second.2 = tables first.2
    /\ (count is_update (evs1 ++ evs2) <= 1)%nat
    /\ (count is_callback (evs1 ++ evs2) <= 1)%nat
    /\ forall mp p callback,
         type = "payment"%string ->
         paymentGet env1 id = inr mp -> adapter_down env1 = None ->
         correlated v id mp w = Some p -> amounts_agree p mp = true ->
         onPaymentUpdate opts = Some callback -> notifies v mp = true ->
         count is_update (evs1 ++ evs2) = 1%nat
         /\ count is_callback (evs1 ++ evs2) = 1%nat.
Proof.
  intros Htype Hacc Hid Hne Hreq Hsig Hrate1 Hmiss first Hrate2 Hwithin second.
  pose proof (webhook_first v opts env1 n w type id Htype Hacc Hid Hne Hreq Hsig Hrate1 Hmiss)
    as H1.
  unfold wp in H1. fold first in H1.
  destruct H1 as (Hmark & evs1 & Ht1 & Hu1 & Hc1 & _).
  pose proof (webhook_marked v opts env2 n first.2 type id (mark env1)
                Htype Hacc Hid Hne Hreq Hsig Hrate2 Hmark Hwithin) as H2.
  unfold wp in H2. fold second in H2.
  destruct H2 as (Hack & Htab & _ & evs2 & Ht2 & Hb2).
  destruct (business_covers evs2 Hb2) as [Hu2 Hc2].
  exists evs1, evs2.
  repeat (split; [assumption |]).
  rewrite !count_app, Hu2, Hc2, !Nat.add_0_r.
  repeat (split; [assumption |]).
  intros mp p callback -> Hfetch Hup Hfound Hsame Hcb Hnot.
  pose proof (first_applied opts env1 n w id Htype Hid Hne Hreq Hsig Hrate1
                v mp p callback Hmiss Hfetch Hup Hfound Hsame Hcb Hnot) as H3.
  unfold wp in H3. fold first in H3.
  destruct H3 as (_ & _ & evs & Ht3 & Hu3 & Hc3).
  rewrite Ht1 in Ht3. apply app_inv_head in Ht3. apply app_inv_head in Ht3.
  subst evs. split; assumption.
Qed.

Lemma duplicate_delivery_at_most_once_witness :
  let env1 := Scenario.env Scenario.t0 (inr (Scenario.approved 100)) in
  let env2 := Scenario.env (Scenario.t0 + 1000) (inr (Scenario.approved 100)) in
  let first := Server.webhook Scenario.opts env1 Scenario.notification Scenario.world in
  let second := Server.webhook Scenario.opts env2 Scenario.notification first.2 in
  exists evs1 evs2,
    trace first.2 = trace Scenario.world ++ opening "webhook:pay_1:payment" ++ evs1
    /\ trace second.2 = trace first.2 ++ evs2
    /\ second.1 = Return Received
    /\ count business evs2 = 0%nat
    /\ tables second.2 = tables first.2
    /\ (count is_update (evs1 ++ evs2) <= 1)%nat
    /\ (count is_callback (evs1 ++ evs2) <= 1)%nat.
Proof.
  intros env1 env2 first second.
  destruct (duplicate_delivery_at_most_once ServerTs Scenario.opts env1 env2
              Scenario.notification Scenario.world "payment" "pay_1")
    as (evs1 & evs2 & H1 & H2 & H3 & H4 & H5 & H6 & H7 & _).
  - reflexivity.
  - reflexivity.
  - reflexivity.
  - discriminate.
  - reflexivity.
  - vm_compute. reflexivity.
  - vm_compute. reflexivity.
  - vm_compute. reflexivity.
  - vm_compute. reflexivity.
  - vm_compute. discriminate.
  - exists evs1, evs2.
    exact (conj H1 (conj H2 (conj H3 (conj H4 (conj H5 (conj H6 H7)))))).
Defined.

(** C1 as stated fails: when the provider fetch of the first delivery
    throws, the key stays marked and the second delivery is skipped, so
    that two deliveries make no update of the record and no callback but
    not one of each. *)
Lemma duplicate_delivery_counterexample :
  let env := Scenario.env Scenario.t0 (inl Scenario.not_found) in
  let first := ExternalRef.webhook Scenario.opts env Scenario.notification Scenario.world in
  let second := ExternalRef.webhook Scenario.opts env Scenario.notification first.2 in
  first.1 = Return Received /\ second.1 = Return Received
  /\ count is_update (trace second.2) = 0%nat
  /\ count is_callback (trace second.2) = 0%nat
  /\ mercadoPagoPayment second.2 = [Scenario.pending].
Proof. vm_compute. repeat split; reflexivity. Qed.

(** C2. In [server.ts] an amount mismatch is not acknowledged: for a local
    record of 100 and a provider amount of 150 the handler throws
    [APIError("BAD_REQUEST")], which the [catch] clause rethrows. The record
    is left as it was. *)
Theorem server_rejects_amount_mismatch :
  let env := Scenario.env Scenario.t0 (inr (Scenario.approved 150)) in
  let r := Server.webhook Scenario.opts env Scenario.notification Scenario.world in
  r.1 = Throw (APIError BAD_REQUEST "Payment amount mismatch")
  /\ mercadoPagoPayment r.2 = [Scenario.pending].
Proof. vm_compute. split; reflexivity. Qed.

(** The external-reference variant acknowledges the same notification. *)
Example external_ref_acknowledges_amount_mismatch :
  let env := Scenario.env Scenario.t0 (inr (Scenario.approved 150)) in
  let r := ExternalRef.webhook Scenario.opts env Scenario.notification Scenario.world in
  r.1 = Return Received /\ mercadoPagoPayment r.2 = [Scenario.pending].
Proof. vm_compute. split; reflexivity. Qed.

(** C3. In [server.ts] a failure of the provider fetch is not acknowledged:
    the notification is valid and signed, the fetch throws, and the handler
    answers with [APIError("BAD_REQUEST")]. *)
Theorem server_rejects_failed_fetch :
  let env := Scenario.env Scenario.t0 (inl Scenario.not_found) in
  let r := Server.webhook Scenario.opts env Scenario.notification Scenario.world in
  within_rate env Scenario.world = true
  /\ signature_ok Scenario.opts Scenario.notification "pay_1" = true
  /\ r.1 = Throw (APIError BAD_REQUEST "Failed to fetch payment details").
Proof. vm_compute. repeat split; reflexivity. Qed.

(** ** What a request that has passed the checks is answered *)

(** The external-reference variant acknowledges whatever the business
    logic does. *)
Lemma ExternalRef_acknowledges opts env n w :
  Notification.has_request n = true ->
  within_rate env w = true ->
  signature_ok opts n (default EmptyString (Notification.data_id n)) = true ->
  wp (ExternalRef.webhook opts env n) (fun o _ => o = Return Received) w.
Proof.
  intros Hreq Hrate Hsig. unfold within_rate in Hrate.
  unfold ExternalRef.webhook. wp_go; try reflexivity.
  apply signature_step; [assumption |].
  wp_go; try reflexivity.
  eapply wp_mono; [apply ExternalRef_process_processed |].
  intros [[]|e] w' _; wp_go; reflexivity.
Qed.

(** The only errors the business logic of [server.ts] throws by itself are
    [BAD_REQUEST] errors. *)
Definition only_bad_request {A} (o : Outcome A) (_ : World) : Prop :=
  match o with
  | Throw (APIError type _) => type = BAD_REQUEST
  | Throw RangeError => False
  | _ => True
  end.

Lemma Server_process_errors opts env type id w :
  wp (Server.process opts env type id) only_bad_request w.
Proof.
  unfold Server.process, Server.on_payment, Server.on_preapproval,
    Server.on_authorized_payment.
  destruct (String.eqb_spec type "payment") as [->|_];
    [eval_type_tests; wp_run; exact I || reflexivity |].
  destruct (String.eqb_spec type "subscription_preapproval") as [->|_];
    [eval_type_tests; wp_run; exact I || reflexivity |].
  destruct (String.eqb_spec type "subscription_preapproval_plan") as [->|_];
    [eval_type_tests; wp_run; exact I || reflexivity |].
  destruct (String.eqb_spec type "subscription_authorized_payment") as [->|_];
    [eval_type_tests; wp_run; exact I || reflexivity |].
  destruct (String.eqb_spec type "authorized_payment") as [->|_];
    [eval_type_tests; wp_run; exact I || reflexivity |].
  eval_type_tests. wp_run. exact I.
Qed.

(** In [server.ts] a request that has passed the checks is acknowledged or
    answered with a [BAD_REQUEST] error. *)
Lemma Server_answers opts env n w :
  Notification.has_request n = true ->
  within_rate env w = true ->
  signature_ok opts n (default EmptyString (Notification.data_id n)) = true ->
  wp (Server.webhook opts env n)
     (fun o _ => o = Return Received \/ exists message, o = Throw (APIError BAD_REQUEST message))
     w.
Proof.
  intros Hreq Hrate Hsig. unfold within_rate in Hrate.
  unfold Server.webhook. wp_go; try (left; reflexivity).
  apply signature_step; [assumption |].
  wp_go; try (left; reflexivity).
  eapply wp_mono; [apply Server_process_errors |].
  intros [[]|[|type message|error]] w' Ho; cbn [only_bad_request] in Ho;
    wp_go; try (left; reflexivity); try contradiction.
  subst type. right. eauto.
Qed.

(** ** The mark of a notification stays until it expires *)

Section MarkKept.

Variables (key : string) (entry : IdempotencyStore.Entry).






End MarkKept.



Section HandlersKeepMark.

Variables (key : string) (entry : IdempotencyStore.Entry).
Variables (opts : Options) (env : Env) (w : World).
Hypothesis Hinvalid : validateIdempotencyKey key = false.
Hypothesis Hmark : idempotency w !! key = Some entry.
Hypothesis Hlive : (now env <= IdempotencyStore.expiresAt entry)%Z.






Lemma check_urls_frame allowed urls (w0 : World) :
  wp (check_urls env allowed urls) (fun _ w' => w' = w0) w0.
Proof.
  induction urls as [|url rest IH]; cbn [check_urls]; [reflexivity |].
  destruct (negb (validateCallbackUrl env url allowed)); [reflexivity | exact IH].
Qed.



End HandlersKeepMark.





(** After the failed first attempt the provider recovers, and the
    redelivery still does nothing. *)
Example redelivery_after_recovery_is_skipped :
  let env1 := Scenario.env Scenario.t0 (inl Scenario.not_found) in
  let env2 := Scenario.env (Scenario.t0 + 60000) (inr (Scenario.approved 100)) in
  let first := Server.webhook Scenario.opts env1 Scenario.notification Scenario.world in
  let again := Server.webhook Scenario.opts env2 Scenario.notification first.2 in
  again.1 = Return Received
  /\ mercadoPagoPayment again.2 = [Scenario.pending]
  /\ count business (trace again.2) = 1%nat.
Proof. vm_compute. repeat split; reflexivity. Qed.

(** ** Creating a payment *)

Lemma handle_is_api_error (e : MpError.t) :
  exists type message, handleMercadoPagoError e = APIError type message.
Proof.
  unfold handleMercadoPagoError.
  destruct (MpError.status e) as [st|]; [destruct (st =? 0)%Z |]; eauto.
Qed.

(** C9. In [createPayment] of [server.ts], when the provider's
    preference-creation call throws (an object, as the SDK does), no payment
    record is persisted: the payment table is unchanged and the adapter's
    create for [mercadoPagoPayment] is not invoked; and a run that has made
    the provider call ends with the [APIError] into which
    [handleMercadoPagoError] translates the thrown error. *)
Theorem provider_failure_persists_no_payment
  (opts : Options) (env : Env) (session : option Session.t) (body : CreateBody.t)
  (w : World) (failure : PreferenceBody.t -> MpError.t) :
  (forall b, preferenceCreate env b = inl (failure b)) ->
  let r := Server.createPayment opts env session body w in
  mercadoPagoPayment r.2 = mercadoPagoPayment w
  /\ exists evs,
       trace r.2 = trace w ++ evs
       /\ count (creates "mercadoPagoPayment") evs = 0%nat
       /\ forall b, In (PreferenceCreate b) evs ->
            r.1 = Throw (handleMercadoPagoError (failure b))
            /\ exists type message, r.1 = Throw (APIError type message).
Proof.
  intros Hfail r. subst r.
  change (wp (Server.createPayment opts env session body)
            (fun o w' =>
               mercadoPagoPayment w' = mercadoPagoPayment w
               /\ exists evs,
                    trace w' = trace w ++ evs
                    /\ count (creates "mercadoPagoPayment") evs = 0%nat
                    /\ forall b, In (PreferenceCreate b) evs ->
                         o = Throw (handleMercadoPagoError (failure b))
                         /\ exists type message, o = Throw (APIError type message)) w).
  assert (Hleaf : forall (o : Outcome IdempotencyStore.Cached)
                         (pays : list PaymentRecord.t) (tr evs : list Event),
             pays = mercadoPagoPayment w ->
             tr = trace w ++ evs ->
             count (creates "mercadoPagoPayment") evs = 0%nat ->
             (forall b, In (PreferenceCreate b) evs ->
                o = Throw (handleMercadoPagoError (failure b))) ->
             pays = mercadoPagoPayment w
             /\ exists evs,
                  tr = trace w ++ evs
                  /\ count (creates "mercadoPagoPayment") evs = 0%nat
                  /\ forall b, In (PreferenceCreate b) evs ->
                       o = Throw (handleMercadoPagoError (failure b))
                       /\ exists type message, o = Throw (APIError type message)).
  { intros o pays tr evs H1 H2 H3 H4. split; [exact H1 |]. exists evs.
    split; [exact H2 |]. split; [exact H3 |].
    intros b Hb. split; [now apply H4 |].
    rewrite (H4 b Hb). destruct (handle_is_api_error (failure b)) as (t & m & ->). eauto. }
  unfold Server.createPayment, idempotency_check.
  wp_go.
  all: try match goal with
       | |- wp (check_urls _ _ _) _ _ =>
           eapply wp_mono; [apply check_urls_frame |];
           intros [[]|?] ? ->; cbv beta match
       end.
  all: unfold Server.ensure_customer, Server.create_and_persist, cache_result, thrown.
  all: repeat (rew_hyps; try rewrite Hfail; wp_step).
  all: world_simpl;
    eapply Hleaf;
    [ reflexivity
    | first [ trace_norm; reflexivity | symmetry; apply app_nil_r ]
    | reflexivity
    | cbn [In]; intros b Hb;
      repeat match goal with
             | H : _ \/ _ |- _ => destruct H
             | H : False |- _ => destruct H
             | H : _ = PreferenceCreate _ |- _ => first [discriminate H | injection H as <-]
             end;
      reflexivity ].
Qed.

Lemma provider_failure_persists_no_payment_witness :
  let env :=
    {| now := Scenario.t0; baseURL := "https://app.test";
       fresh := fun n => ("id_" ++ index_key n)%string;
       adapter_down := None;
       paymentGet := fun _ => inl Scenario.not_found;
       preApprovalGet := fun _ => inl Scenario.not_found;
       customerCreate := fun _ => inr "cus_1"%string;
       preferenceCreate := fun _ => inl Scenario.not_found;
       production := false;
       parseUrl := fun _ => None |} in
  let r := Server.createPayment Scenario.opts env (Some Scenario.user) (Scenario.body None)
                                Scenario.world in
  mercadoPagoPayment r.2 = mercadoPagoPayment Scenario.world
  /\ exists evs,
       trace r.2 = trace Scenario.world ++ evs
       /\ count (creates "mercadoPagoPayment") evs = 0%nat
       /\ forall b, In (PreferenceCreate b) evs ->
            r.1 = Throw (handleMercadoPagoError Scenario.not_found)
            /\ exists type message, r.1 = Throw (APIError type message).
Proof.
  intros env.
  apply (provider_failure_persists_no_payment Scenario.opts env (Some Scenario.user)
           (Scenario.body None) Scenario.world (fun _ => Scenario.not_found)).
  intros b. reflexivity.
Defined.

Example provider_failure_run :
  let env :=
    {| now := Scenario.t0; baseURL := "https://app.test";
       fresh := fun n => ("id_" ++ index_key n)%string;
       adapter_down := None;
       paymentGet := fun _ => inl Scenario.not_found;
       preApprovalGet := fun _ => inl Scenario.not_found;
       customerCreate := fun _ => inr "cus_1"%string;
       preferenceCreate := fun _ => inl Scenario.not_found;
       production := false;
       parseUrl := fun _ => None |} in
  let r := Server.createPayment Scenario.opts env (Some Scenario.user) (Scenario.body None)
                                empty_world in
  r.1 = Throw (APIError NOT_FOUND "Payment not found")
  /\ mercadoPagoPayment r.2 = []
  /\ count is_preference_create (trace r.2) = 1%nat.
Proof. vm_compute. repeat split; reflexivity. Qed.


(** C6 (amended). In the external-reference variant of [createPayment], a
    run that calls the provider generates exactly one id, immediately
    before the call and after no other business event, sends it as
    [external_reference] of the preference, and, when the endpoint returns
    a response, has persisted one new record in status [pending] whose
    [externalReference] is that id; a run that does not call the provider
    generates no id and persists no payment. *)
Theorem external_reference_assigned_once
  (opts : Options) (env : Env) (session : option Session.t) (body : CreateBody.t)
  (w : World) :
  let r := ExternalRef.createPayment opts env session body w in
  exists evs, trace r.2 = trace w ++ evs /\ reference_discipline w r.1 r.2 evs.
Proof.
  intros r. subst r.
  change (wp (ExternalRef.createPayment opts env session body)
            (fun o w' => exists evs, trace w' = trace w ++ evs
                                     /\ reference_discipline w o w' evs) w).
  unfold ExternalRef.createPayment, idempotency_check, ExternalRef.create_and_persist,
    cache_result.
  wp_go.
  all: world_simpl; eexists;
    (split; [first [ trace_norm; reflexivity | symmetry; apply app_nil_r ] |]).
  all: unfold reference_discipline; world_simpl.
  all: first
         [ left; repeat split; reflexivity
         | right; eexists _, _, [_], _;
           (split; [reflexivity |]); repeat split; reflexivity
         | right; eexists _, _, [_; _], _;
           (split; [reflexivity |]); repeat split; reflexivity ].
Qed.

(** C6 as stated fails for [createPayment] of [server.ts]: the preference
    is sent without an external reference, the record is persisted without
    one, and the only id of the run is generated after the provider call. *)
Lemma server_create_has_no_external_reference :
  let env := Scenario.env Scenario.t0 (inl Scenario.not_found) in
  let r := Server.createPayment Scenario.opts env (Some Scenario.user)
             (Scenario.body None) (with_customers
                                     [{| CustomerRecord.id := "c1";
                                         CustomerRecord.userId := "user_123";
                                         CustomerRecord.mercadoPagoId := "cus_1";
                                         CustomerRecord.email := "test@example.com";
                                         CustomerRecord.createdAt := 0;
                                         CustomerRecord.updatedAt := 0 |}]
                                     empty_world) in
  sent_references (trace r.2) = [None]
  /\ map PaymentRecord.externalReference (mercadoPagoPayment r.2) = [None]
  /\ map PaymentRecord.status (mercadoPagoPayment r.2) = ["pending"%string]
  /\ List.filter (fun e => is_generate e || is_preference_create e) (trace r.2)
     = [PreferenceCreate
          (Server.preferenceBody Scenario.opts env Scenario.user (Scenario.body None)
             (head (mercadoPagoCustomer r.2)) 0%float);
        GenerateId "id_0"].
Proof. vm_compute. repeat split; reflexivity. Qed.

Example external_ref_create_run :
  let env := Scenario.env Scenario.t0 (inl Scenario.not_found) in
  let r := ExternalRef.createPayment Scenario.opts env (Some Scenario.user)
             (Scenario.body None) empty_world in
  sent_references (trace r.2) = [Some "id_0"%string]
  /\ map PaymentRecord.externalReference (mercadoPagoPayment r.2) = [Some "id_0"%string]
  /\ map PaymentRecord.status (mercadoPagoPayment r.2) = ["pending"%string]
  /\ map PaymentRecord.amount (mercadoPagoPayment r.2) = [100%float].
Proof. vm_compute. repeat split; reflexivity. Qed.
(** * Further properties of [security.ts] *)

(** ** Constant-time comparison *)

(** The UTF-8 encoding is a prefix code on the code points that are not
    surrogates. *)
Lemma byte_inj (x y : N) :
  (x < 256)%N -> (y < 256)%N -> ascii_of_N x = ascii_of_N y -> x = y.
Proof.
  intros Hx Hy H. apply (f_equal N_of_ascii) in H.
  now rewrite !N_ascii_embedding in H.
Qed.

Ltac bytes_eq H :=
  injection H; clear H; intros;
  repeat match goal with
         | Hb : ascii_of_N _ = ascii_of_N _ |- _ =>
             apply byte_inj in Hb; [| div_lia | div_lia]
         end.

Lemma encode_prefix (c1 c2 : N) (r1 r2 : string) :
  (c1 <= 0x10FFFF)%N -> (c2 <= 0x10FFFF)%N ->
  Utf8.is_surrogate c1 = false -> Utf8.is_surrogate c2 = false ->
  (Utf8.encode c1 ++ r1 = Utf8.encode c2 ++ r2)%string -> c1 = c2 /\ r1 = r2.
Proof.
  intros H1 H2 S1 S2.
  unfold Utf8.is_surrogate in S1, S2.
  apply andb_false_iff in S1, S2. rewrite !N.leb_gt in S1, S2.
  encode_cases c1; try lia; encode_cases c2; try lia;
    cbn [Utf8.bytes map string_of_list_ascii String.append]; intros Heq;
    bytes_eq Heq; first [ split; [div_lia | assumption] | exfalso; div_lia ].
Qed.

Lemma encode_nonempty (cp : N) (r : string) : (Utf8.encode cp ++ r)%string <> EmptyString.
Proof. encode_cases cp; discriminate. Qed.

Ltac units_facts :=
  unfold Utf8.is_high, Utf8.is_low, Utf8.is_surrogate in *;
  repeat match goal with
         | H : _ && _ = true |- _ => apply andb_true_iff in H; destruct H
         | H : _ && _ = false |- _ => apply andb_false_iff in H
         | H : negb _ = true |- _ => apply negb_true_iff in H
         end;
  rewrite ?N.leb_le, ?N.leb_gt, ?N.ltb_lt in *.

Lemma pair_is_scalar (h l : N) :
  Utf8.is_high h = true -> Utf8.is_low l = true ->
  let cp := (0x10000 + (h - 0xD800) * 0x400 + (l - 0xDC00))%N in
  (0x10000 <= cp <= 0x10FFFF)%N /\ Utf8.is_surrogate cp = false.
Proof.
  intros Hh Hl cp. units_facts.
  split; [subst cp; lia |].
  apply andb_false_iff. right. apply N.leb_gt. subst cp. lia.
Qed.

Lemma unit_is_scalar (u : N) :
  Utf8.is_high u = false -> Utf8.is_low u = false -> Utf8.is_surrogate u = false.
Proof.
  intros Hh Hl. units_facts. apply andb_false_iff. rewrite !N.leb_gt. lia.
Qed.

Lemma from_cons_unit (u : N) (s : CodeUnits) :
  Utf8.is_high u = false ->
  Buffer.from (u :: s) = (Utf8.encode u ++ Buffer.from s)%string.
Proof. intros H. unfold Buffer.from. cbn [Utf8.code_points]. now rewrite H. Qed.

Lemma from_cons_pair (h l : N) (s : CodeUnits) :
  Utf8.is_high h = true -> Utf8.is_low l = true ->
  Buffer.from (h :: l :: s)
  = (Utf8.encode (0x10000 + (h - 0xD800) * 0x400 + (l - 0xDC00)) ++ Buffer.from s)%string.
Proof. intros Hh Hl. unfold Buffer.from. cbn [Utf8.code_points]. now rewrite Hh, Hl. Qed.

(** How a well-formed string begins: with nothing, with a unit that is
    no surrogate, or with a surrogate pair. *)
Lemma well_formed_cases (s : CodeUnits) :
  Utf8.well_formed s = true ->
  s = []
  \/ (exists u rest,
        s = u :: rest /\ Utf8.well_formed rest = true
        /\ (u < 0x10000)%N /\ Utf8.is_surrogate u = false
        /\ Buffer.from s = (Utf8.encode u ++ Buffer.from rest)%string)
  \/ (exists h l rest,
        s = h :: l :: rest /\ Utf8.well_formed rest = true
        /\ Utf8.is_high h = true /\ Utf8.is_low l = true
        /\ Buffer.from s
           = (Utf8.encode (0x10000 + (h - 0xD800) * 0x400 + (l - 0xDC00))
              ++ Buffer.from rest)%string).
Proof.
  destruct s as [|u s]; [now left |]. intros H. right.
  cbn [Utf8.well_formed] in H. destruct (Utf8.is_high u) eqn:Hu.
  - right. destruct s as [|l s]; [discriminate |].
    apply andb_true_iff in H. destruct H as [Hl Hs].
    exists u, l, s. repeat split; try assumption. now apply from_cons_pair.
  - left. apply andb_true_iff in H. destruct H as [H Hs].
    apply andb_true_iff in H. destruct H as [Hl Hb].
    apply negb_true_iff in Hl. apply N.ltb_lt in Hb.
    exists u, s. repeat split; try assumption.
    + now apply unit_is_scalar.
    + now apply from_cons_unit.
Qed.

(** On well-formed strings [Buffer.from] loses nothing. *)
Lemma from_injective (n : nat) : forall a b : CodeUnits,
  (length a <= n)%nat ->
  Utf8.well_formed a = true -> Utf8.well_formed b = true ->
  Buffer.from a = Buffer.from b -> a = b.
Proof.
  induction n as [|n IH]; intros a b Hn Ha Hb H;
    destruct (well_formed_cases a Ha)
      as [-> | [(u & ra & -> & Hra & Hu & Su & Ea) | (h & l & ra & -> & Hra & Hh & Hl & Ea)]];
    destruct (well_formed_cases b Hb)
      as [-> | [(u' & rb & -> & Hrb & Hu' & Su' & Eb) | (h' & l' & rb & -> & Hrb & Hh' & Hl' & Eb)]];
    cbn [length] in Hn; try lia; try reflexivity;
    rewrite ?Ea, ?Eb in H;
    try (exfalso; first [ exact (encode_nonempty _ _ H)
                        | exact (encode_nonempty _ _ (eq_sym H)) ]).
  - apply encode_prefix in H; try assumption; try lia.
    destruct H as [-> H]. f_equal. apply IH; [lia | assumption | assumption | exact H].
  - destruct (pair_is_scalar h' l' Hh' Hl') as [Hp' Sp'].
    apply encode_prefix in H; try assumption; lia.
  - destruct (pair_is_scalar h l Hh Hl) as [Hp Sp].
    apply encode_prefix in H; try assumption; lia.
  - destruct (pair_is_scalar h l Hh Hl) as [Hp Sp].
    destruct (pair_is_scalar h' l' Hh' Hl') as [Hp' Sp'].
    apply encode_prefix in H; try assumption; try lia.
    destruct H as [Hcp H].
    assert (h = h' /\ l = l') as [-> ->] by (units_facts; lia).
    do 2 f_equal. apply IH; [lia | assumption | assumption | exact H].
Qed.

Lemma secureCompare_spec (a b : CodeUnits) :
  secureCompare a b = true <-> length a = length b /\ Buffer.from a = Buffer.from b.
Proof.
  unfold secureCompare, Crypto.timingSafeEqual.
  destruct (Nat.eqb_spec (length a) (length b)) as [Hlen|Hlen]; cbn [negb].
  - destruct (Nat.eqb_spec (String.length (Buffer.from a)) (String.length (Buffer.from b)))
      as [Hbytes|Hbytes].
    + rewrite String.eqb_eq. tauto.
    + split; [discriminate | intros [_ H]; now rewrite H in Hbytes].
  - split; [discriminate | tauto].
Qed.

(** X1. [secureCompare], and with it [validateCSRFToken], never throws:
    it answers [true] exactly when the two strings have the same number of
    code units and the same UTF-8 encoding. For well-formed strings, in
    which every surrogate is paired, that is exactly when the strings are
    equal. It is not so for all strings: an unpaired surrogate is encoded
    as U+FFFD, so that the different strings ["\uD800"] and ["\uD801"]
    compare as equal. *)
Theorem secureCompare_true_iff_equal (a b : CodeUnits) :
  (secureCompare a b = true <-> length a = length b /\ Buffer.from a = Buffer.from b)
  /\ (Utf8.well_formed a = true -> Utf8.well_formed b = true ->
      (secureCompare a b = true <-> a = b))
  /\ secureCompare [0xD800%N] [0xD801%N] = true
  /\ validateCSRFToken a b = secureCompare a b.
Proof.
  split; [apply secureCompare_spec |].
  split; [| split; reflexivity].
  intros Ha Hb. rewrite secureCompare_spec. split.
  - intros [_ H]. now apply (from_injective (length a) a b).
  - now intros <-.
Qed.

Lemma secureCompare_true_iff_equal_witness :
  secureCompare [0x61; 0xD83D; 0xDE00; 0xE9]%N [0x61; 0xD83D; 0xDE00; 0xE9]%N = true
  /\ secureCompare [0x61; 0xD83D; 0xDE00; 0xE9]%N [0x61; 0xD83D; 0xDE01; 0xE9]%N = false.
Proof.
  split.
  - destruct (secureCompare_true_iff_equal [0x61; 0xD83D; 0xDE00; 0xE9]%N
                [0x61; 0xD83D; 0xDE00; 0xE9]%N) as (_ & Hsame & _).
    apply Hsame; reflexivity.
  - destruct (secureCompare_true_iff_equal [0x61; 0xD83D; 0xDE00; 0xE9]%N
                [0x61; 0xD83D; 0xDE01; 0xE9]%N) as (_ & Hother & _).
    destruct (Hother eq_refl eq_refl) as [Hthen _].
    destruct (secureCompare _ _); [| reflexivity].
    discriminate (Hthen eq_refl).
Defined.

(** ** Idempotency keys *)

Lemma in_range_widen (lo hi lo' hi' c : ascii) :
  (N_of_ascii lo' <= N_of_ascii lo)%N -> (N_of_ascii hi <= N_of_ascii hi')%N ->
  in_range lo hi c = true -> in_range lo' hi' c = true.
Proof.
  unfold in_range. intros Hlo Hhi H.
  apply andb_true_iff in H as [H1 H2].
  apply N.leb_le in H1, H2. apply andb_true_iff. split; apply N.leb_le; lia.
Qed.

Lemma hex_is_word (c : ascii) : is_hex_i c = true -> is_word c = true.
Proof.
  unfold is_hex_i, is_word. intros H.
  apply orb_true_iff in H as [H|H]; [apply orb_true_iff in H as [H|H] |].
  - now rewrite H, !orb_true_r.
  - rewrite (in_range_widen "a" "f" "a" "z" c); [reflexivity | cbn; lia | cbn; lia | exact H].
  - rewrite (in_range_widen "A" "F" "A" "Z" c); [now rewrite orb_true_r | cbn; lia | cbn; lia | exact H].
Qed.

Lemma uuid_pos_is_word (p : UuidPos) (c : ascii) :
  uuid_pos_ok p c = true -> is_word c = true.
Proof.
  destruct p; cbn [uuid_pos_ok].
  - apply hex_is_word.
  - intros H. apply Ascii.eqb_eq in H. now subst.
  - intros H. apply Ascii.eqb_eq in H. now subst.
  - intros H. repeat (apply orb_true_iff in H as [H|H]);
      apply Ascii.eqb_eq in H; now subst.
Qed.

Lemma matches_word (pat : list UuidPos) (cs : list ascii) :
  matches pat cs = true -> length cs = length pat /\ forallb is_word cs = true.
Proof.
  revert cs. induction pat as [|p pat IH]; intros [|c cs]; cbn; try discriminate.
  - auto.
  - intros H. apply andb_true_iff in H as [Hp Hr].
    destruct (IH cs Hr) as [Hl Hw]. rewrite (uuid_pos_is_word p c Hp), Hw. auto.
Qed.

(** X2. [validateIdempotencyKey] accepts exactly the strings of 8 to 64
    characters among letters, digits, [_] and [-]: every string the UUID
    pattern matches is matched by the custom pattern too. *)
Theorem idempotency_key_format (key : string) :
  validateIdempotencyKey key = true
  <-> (8 <= String.length key <= 64)%nat
      /\ Forall (fun c => is_word c = true) (list_ascii_of_string key).
Proof.
  unfold validateIdempotencyKey. split.
  - intros H.
    assert (customRegex key = true) as Hc.
    { apply orb_true_iff in H as [H|H]; [| exact H].
      unfold uuidRegex in H. apply matches_word in H as [Hl Hw].
      unfold customRegex. rewrite Hw.
      rewrite <- (string_of_list_ascii_of_string key), string_length_of_list, Hl.
      vm_compute. reflexivity. }
    unfold customRegex in Hc.
    apply andb_true_iff in Hc as [Hc H64]. apply andb_true_iff in Hc as [Hw H8].
    apply Nat.leb_le in H8, H64. split; [lia |].
    apply List.Forall_forall. intros c Hin. rewrite List.forallb_forall in Hw. now apply Hw.
  - intros [[H8 H64] Hw]. apply orb_true_iff. right. unfold customRegex.
    apply andb_true_iff. split; [apply andb_true_iff; split |].
    + apply List.forallb_forall. intros c Hin.
      rewrite List.Forall_forall in Hw. now apply Hw.
    + now apply Nat.leb_le.
    + now apply Nat.leb_le.
Qed.
(** ** The two in-memory stores *)

(** X3. A value stored with [set] is what [get] returns for that key up to
    and including the instant [now + ttl]; later the entry is reported
    missing and removed. Other keys are answered as before the [set]. *)
Theorem idempotency_store_round_trip
  (now now' : Z) (key : string) (r : IdempotencyStore.Cached) (ttl : Z)
  (store : gmap string IdempotencyStore.Entry) :
  let stored := IdempotencyStore.set now key r ttl store in
  IdempotencyStore.get now' key stored
  = (if (now' >? now + ttl)%Z then (None, delete key store) else (Some r, stored))
  /\ forall key', key' <> key ->
       (IdempotencyStore.get now' key' stored).1 = (IdempotencyStore.get now' key' store).1.
Proof.
  cbn zeta. unfold IdempotencyStore.get, IdempotencyStore.set. split.
  - rewrite lookup_insert_eq. cbn [IdempotencyStore.expiresAt IdempotencyStore.result].
    destruct (now' >? now + ttl)%Z; [| reflexivity].
    now rewrite delete_insert_eq.
  - intros key' Hne. rewrite lookup_insert_ne by congruence.
    destruct (store !! key') as [record|]; [destruct (_ >? _)%Z |]; reflexivity.
Qed.

(** What [get] answers, read off the entry of the key. *)
Lemma get_answer now key (store : gmap string IdempotencyStore.Entry) :
  (IdempotencyStore.get now key store).1
  = match store !! key with
    | Some record =>
        if (now >? IdempotencyStore.expiresAt record)%Z then None
        else Some (IdempotencyStore.result record)
    | None => None
    end.
Proof.
  unfold IdempotencyStore.get.
  destruct (store !! key) as [record|]; [destruct (_ >? _)%Z |]; reflexivity.
Qed.

Lemma get_leaves_others now key key' (store : gmap string IdempotencyStore.Entry) :
  key' <> key -> (IdempotencyStore.get now key' store).2 !! key = store !! key.
Proof.
  intros Hne. unfold IdempotencyStore.get.
  destruct (store !! key') as [record|]; [destruct (_ >? _)%Z |]; cbn [snd];
    rewrite ?lookup_delete_ne; auto.
Qed.

(** X4. Neither the hourly sweep nor the deletion [get] performs on a miss
    changes what a later [get] answers, for any key. *)
Theorem idempotency_sweeps_are_transparent
  (now now' : Z) (key key' : string) (store : gmap string IdempotencyStore.Entry) :
  (now <= now')%Z ->
  (IdempotencyStore.get now' key (IdempotencyStore.cleanup now store)).1
  = (IdempotencyStore.get now' key store).1
  /\ (IdempotencyStore.get now' key (IdempotencyStore.get now key' store).2).1
     = (IdempotencyStore.get now' key store).1.
Proof.
  intros Hle. rewrite !get_answer. split.
  - unfold IdempotencyStore.cleanup.
    destruct (store !! key) as [record|] eqn:Hk.
    + destruct (Z.le_gt_cases now (IdempotencyStore.expiresAt record)) as [Hin|Hout].
      * now rewrite (proj2 (map_lookup_filter_Some _ store key record) (conj Hk Hin)).
      * rewrite (proj2 (map_lookup_filter_None _ store key)).
        -- destruct (Z.gtb_spec now' (IdempotencyStore.expiresAt record)); [reflexivity | lia].
        -- right. intros x Hx. rewrite Hk in Hx. injection Hx as <-. cbn. lia.
    + rewrite (proj2 (map_lookup_filter_None _ store key)); [reflexivity | now left].
  - destruct (decide (key' = key)) as [->|Hne]; [| now rewrite get_leaves_others].
    unfold IdempotencyStore.get.
    destruct (store !! key) as [record|] eqn:Hk.
    + destruct (Z.gtb_spec now (IdempotencyStore.expiresAt record)); cbn [snd].
      * rewrite lookup_delete_eq.
        destruct (Z.gtb_spec now' (IdempotencyStore.expiresAt record)); [reflexivity | lia].
      * now rewrite Hk.
    + cbn [snd]. now rewrite lookup_delete_eq.
Qed.

Lemma idempotency_sweeps_are_transparent_witness :
  let store : gmap string IdempotencyStore.Entry :=
    {[ "k"%string := {| IdempotencyStore.result := IdempotencyStore.CTrue;
                        IdempotencyStore.expiresAt := 10 |} ]} in
  (IdempotencyStore.get 20 "k" (IdempotencyStore.cleanup 5 store)).1
  = (IdempotencyStore.get 20 "k" store).1
  /\ (IdempotencyStore.get 20 "k" (IdempotencyStore.get 5 "j" store).2).1
     = (IdempotencyStore.get 20 "k" store).1.
Proof.
  intros store. apply (idempotency_sweeps_are_transparent 5 20 "k" "j" store). lia.
Defined.

(** What [check] answers and stores for a key depends on the record of
    that key alone. *)
Lemma check_local now key maxAttempts windowMs (a b : gmap string RateLimiter.Attempt) :
  a !! key = b !! key ->
  (RateLimiter.check now key maxAttempts windowMs a).1
  = (RateLimiter.check now key maxAttempts windowMs b).1
  /\ (RateLimiter.check now key maxAttempts windowMs a).2 !! key
     = (RateLimiter.check now key maxAttempts windowMs b).2 !! key.
Proof.
  intros H. unfold RateLimiter.check. rewrite H.
  destruct (b !! key) as [record|] eqn:Hb.
  - destruct (_ >? _)%Z; cbn [fst snd]; rewrite ?lookup_insert_eq; [auto |].
    destruct (_ >=? _)%Z; cbn [fst snd]; rewrite ?lookup_insert_eq; [| auto].
    now rewrite H, Hb.
  - cbn [fst snd]. rewrite !lookup_insert_eq. auto.
Qed.

Lemma check_other now key key' maxAttempts windowMs (a : gmap string RateLimiter.Attempt) :
  key' <> key ->
  (RateLimiter.check now key maxAttempts windowMs a).2 !! key' = a !! key'.
Proof.
  intros Hne. unfold RateLimiter.check.
  destruct (a !! key) as [record|]; [destruct (_ >? _)%Z; [| destruct (_ >=? _)%Z] |];
    cbn [snd]; rewrite ?lookup_insert_ne by congruence; reflexivity.
Qed.

Lemma run_local key maxAttempts windowMs times :
  forall a b : gmap string RateLimiter.Attempt,
    a !! key = b !! key ->
    (RateLimiter.run key maxAttempts windowMs times a).1
    = (RateLimiter.run key maxAttempts windowMs times b).1.
Proof.
  induction times as [|t times IH]; intros a b H; cbn; [reflexivity |].
  destruct (check_local t key maxAttempts windowMs a b H) as [H1 H2].
  rewrite H1. f_equal. now apply IH.
Qed.

(** X5. The five-minute sweep of the rate limiter never changes an answer:
    a run of calls for a key gets the same answers whether or not a sweep
    came before it. *)
Theorem rate_limiter_sweep_is_transparent
  (now : Z) (key : string) (maxAttempts windowMs : Z) (times : list Z)
  (attempts : gmap string RateLimiter.Attempt) :
  Forall (fun t => (now <= t)%Z) times ->
  (RateLimiter.run key maxAttempts windowMs times (RateLimiter.cleanup now attempts)).1
  = (RateLimiter.run key maxAttempts windowMs times attempts).1.
Proof.
  intros Hall. destruct Hall as [|t times Ht Hrest]; [reflexivity |].
  cbn [RateLimiter.run fst snd].
  assert ((RateLimiter.check t key maxAttempts windowMs (RateLimiter.cleanup now attempts)).1
          = (RateLimiter.check t key maxAttempts windowMs attempts).1
          /\ (RateLimiter.check t key maxAttempts windowMs (RateLimiter.cleanup now attempts)).2
               !! key
             = (RateLimiter.check t key maxAttempts windowMs attempts).2 !! key) as [H1 H2].
  { unfold RateLimiter.check, RateLimiter.cleanup.
    destruct (attempts !! key) as [record|] eqn:Hk.
    - destruct (Z.le_gt_cases now (RateLimiter.resetAt record)) as [Hin|Hout].
      + rewrite (proj2 (map_lookup_filter_Some _ attempts key record) (conj Hk Hin)).
        destruct (_ >? _)%Z; cbn [fst snd]; rewrite ?lookup_insert_eq; [auto |].
        destruct (_ >=? _)%Z; cbn [fst snd]; rewrite ?lookup_insert_eq; [| auto].
        split; [reflexivity |].
        rewrite Hk. apply map_lookup_filter_Some. auto.
      + rewrite (proj2 (map_lookup_filter_None _ attempts key)).
        * destruct (Z.gtb_spec t (RateLimiter.resetAt record)); [| lia].
          cbn [fst snd]. rewrite !lookup_insert_eq. auto.
        * right. intros x Hx. rewrite Hk in Hx. injection Hx as <-. cbn. lia.
    - rewrite (proj2 (map_lookup_filter_None _ attempts key)) by now left.
      cbn [fst snd]. rewrite !lookup_insert_eq. auto. }
  rewrite H1. f_equal. now apply run_local.
Qed.

Lemma rate_limiter_sweep_is_transparent_witness :
  let attempts : gmap string RateLimiter.Attempt :=
    {[ "k"%string := {| RateLimiter.count := 2; RateLimiter.resetAt := 10 |} ]} in
  (RateLimiter.run "k" 2 60 [12; 13; 14]%Z (RateLimiter.cleanup 11 attempts)).1
  = (RateLimiter.run "k" 2 60 [12; 13; 14]%Z attempts).1.
Proof.
  intros attempts.
  apply (rate_limiter_sweep_is_transparent 11 "k" 2 60 [12; 13; 14]%Z attempts).
  repeat constructor; lia.
Defined.

(** X6. Keys do not interfere: whatever was checked for one key, a run of
    calls for another key gets the answers it would have got without it. *)
Theorem rate_limiter_keys_are_independent
  (key key' : string) (now maxAttempts windowMs maxAttempts' windowMs' : Z)
  (times : list Z) (attempts : gmap string RateLimiter.Attempt) :
  key' <> key ->
  (RateLimiter.run key' maxAttempts' windowMs' times
     (RateLimiter.check now key maxAttempts windowMs attempts).2).1
  = (RateLimiter.run key' maxAttempts' windowMs' times attempts).1.
Proof.
  intros Hne. apply run_local. now apply check_other.
Qed.

Lemma rate_limiter_keys_are_independent_witness :
  (RateLimiter.run "b" 1 60 [1; 2]%Z (RateLimiter.check 0 "a" 1 60 ∅).2).1
  = (RateLimiter.run "b" 1 60 [1; 2]%Z ∅).1.
Proof.
  apply (rate_limiter_keys_are_independent "a" "b" 0 1 60 1 60 [1; 2]%Z ∅). discriminate.
Defined.
(** ** Amounts *)

(** Binary64 operations are specified on [SpecFloat.spec_float]; the
    lemmas below are about that specification. *)

Lemma SFcompare_refl (x : SpecFloat.spec_float) :
  x <> SpecFloat.S754_nan -> SpecFloat.SFcompare x x = Some Eq.
Proof.
  destruct x as [s | s | | s m e]; intros H; cbn; try congruence.
  - now destruct s.
  - rewrite Z.compare_refl, Pos.compare_cont_refl. now destruct s.
Qed.

Lemma is_nan_spec (x : float) :
  PrimFloat.is_nan x = true <-> FloatOps.Prim2SF x = SpecFloat.S754_nan.
Proof.
  unfold PrimFloat.is_nan. rewrite FloatAxioms.eqb_spec. unfold SpecFloat.SFeqb. split.
  - intros H. destruct (FloatOps.Prim2SF x) eqn:E; try reflexivity;
      rewrite SFcompare_refl in H by discriminate; discriminate.
  - now intros ->.
Qed.

Lemma SFsub_nan_r prec emax (x : SpecFloat.spec_float) :
  SpecFloat.SFsub prec emax x SpecFloat.S754_nan = SpecFloat.S754_nan.
Proof. now destruct x. Qed.

Lemma SFcompare_nan_r (x : SpecFloat.spec_float) :
  SpecFloat.SFcompare x SpecFloat.S754_nan = None.
Proof. now destruct x. Qed.

(** The sign handed to the rounding function only labels its result. *)
Lemma SFabs_binary_round prec emax (s : bool) (m : positive) (e : Z) :
  SpecFloat.SFabs (SpecFloat.binary_round prec emax s m e)
  = SpecFloat.SFabs (SpecFloat.binary_round prec emax false m e).
Proof.
  unfold SpecFloat.binary_round.
  destruct (SpecFloat.shl_align m e _) as [mz ez].
  unfold SpecFloat.binary_round_aux.
  destruct (SpecFloat.shr_fexp prec emax (Z.pos mz) ez _) as [mrs' e'].
  destruct (SpecFloat.shr_fexp prec emax _ e' _) as [mrs'' e''].
  destruct (SpecFloat.shr_m mrs''); [reflexivity | | reflexivity].
  now destruct (_ <=? _)%Z.
Qed.

Lemma SFabs_binary_normalize_opp prec emax (z e : Z) :
  SpecFloat.SFabs (SpecFloat.binary_normalize prec emax (- z) e false)
  = SpecFloat.SFabs (SpecFloat.binary_normalize prec emax z e false).
Proof.
  destruct z; cbn [Z.opp SpecFloat.binary_normalize]; [reflexivity | |].
  - apply SFabs_binary_round.
  - symmetry. apply SFabs_binary_round.
Qed.

Lemma SFabs_sub_comm prec emax (x y : SpecFloat.spec_float) :
  SpecFloat.SFabs (SpecFloat.SFsub prec emax x y)
  = SpecFloat.SFabs (SpecFloat.SFsub prec emax y x).
Proof.
  destruct x as [sx | sx | | sx mx ex], y as [sy | sy | | sy my ey];
    try reflexivity; try (now destruct sx, sy).
  cbn [SpecFloat.SFsub]. rewrite (Z.min_comm ey ex).
  rewrite <- SFabs_binary_normalize_opp. f_equal. f_equal. lia.
Qed.

(** X7. The amount check is symmetric in the stored and the reported
    amount, and it never accepts when one of the amounts or the tolerance
    is NaN. *)
Theorem amount_check_symmetric_and_nan_free (a b tolerance : float) :
  validatePaymentAmount a b tolerance = validatePaymentAmount b a tolerance
  /\ (PrimFloat.is_nan a || PrimFloat.is_nan b || PrimFloat.is_nan tolerance = true
      -> validatePaymentAmount a b tolerance = false).
Proof.
  unfold validatePaymentAmount. cbn zeta.
  rewrite !FloatAxioms.leb_spec, !FloatAxioms.abs_spec, !FloatAxioms.sub_spec.
  unfold FloatAxioms.SF64sub. split.
  - now rewrite SFabs_sub_comm.
  - intros H. unfold SpecFloat.SFleb.
    apply orb_true_iff in H as [H|H]; [apply orb_true_iff in H as [H|H] |];
      apply is_nan_spec in H; rewrite H.
    + reflexivity.
    + now rewrite SFsub_nan_r.
    + now rewrite SFcompare_nan_r.
Qed.

(** X8. With the default tolerance an amount agrees with itself exactly
    when it is a finite number: a record whose amount is NaN or infinite can
    never be reconciled. *)
Theorem amount_agrees_with_itself_iff_finite (a : float) :
  validatePaymentAmount a a default_tolerance = PrimFloat.is_finite a.
Proof.
  unfold validatePaymentAmount, PrimFloat.is_finite, PrimFloat.is_nan, PrimFloat.is_infinity.
  cbn zeta.
  rewrite FloatAxioms.leb_spec, !FloatAxioms.eqb_spec, !FloatAxioms.abs_spec,
    FloatAxioms.sub_spec.
  unfold FloatAxioms.SF64sub.
  change (FloatOps.Prim2SF default_tolerance)
    with (SpecFloat.S754_finite false 5764607523034235 (-59)).
  change (FloatOps.Prim2SF infinity) with (SpecFloat.S754_infinity false).
  destruct (FloatOps.Prim2SF a) as [s | s | | s m e].
  - now destruct s.
  - now destruct s.
  - reflexivity.
  - unfold SpecFloat.SFeqb. rewrite SFcompare_refl by discriminate.
    cbn [SpecFloat.SFsub]. rewrite Z.sub_diag. reflexivity.
Qed.
(** ** Callback URLs *)

Lemma substring_all (s : string) : String.substring 0 (String.length s) s = s.
Proof. induction s as [|c s IH]; cbn; [reflexivity | now rewrite IH]. Qed.

Lemma length_app (a b : string) :
  String.length (a ++ b) = (String.length a + String.length b)%nat.
Proof.
  induction a as [|c a IH]; [now rewrite append_nil |].
  rewrite append_cons. cbn. now rewrite IH.
Qed.

Lemma substring_app_r (a b : string) :
  String.substring (String.length a) (String.length b) (a ++ b) = b.
Proof.
  induction a as [|c a IH]; [rewrite append_nil; apply substring_all |].
  rewrite append_cons. cbn. exact IH.
Qed.

Lemma substring_split (n : nat) : forall s : string,
  (n <= String.length s)%nat ->
  s = (String.substring 0 n s ++ String.substring n (String.length s - n) s)%string.
Proof.
  induction n as [|n IH]; intros s Hle.
  - rewrite Nat.sub_0_r, substring_all.
    destruct s; now rewrite append_nil.
  - destruct s as [|c s]; cbn in Hle; [lia |].
    cbn [String.substring String.length Nat.sub]. rewrite append_cons.
    f_equal. apply IH. lia.
Qed.

(** [hostname.endsWith(suffix)] holds exactly when [hostname] is some
    string followed by [suffix]. *)
Lemma endsWith_iff (suffix hostname : string) :
  Js.endsWith suffix hostname = true <-> exists front, hostname = (front ++ suffix)%string.
Proof.
  unfold Js.endsWith. split.
  - intros H. apply andb_true_iff in H as [Hle Heq].
    apply Nat.leb_le in Hle. apply String.eqb_eq in Heq.
    exists (String.substring 0 (String.length hostname - String.length suffix) hostname).
    pose proof (substring_split (String.length hostname - String.length suffix) hostname)
      as Hs.
    replace (String.length hostname - (String.length hostname - String.length suffix))%nat
      with (String.length suffix) in Hs by lia.
    rewrite Heq in Hs. apply Hs. lia.
  - intros [front ->]. rewrite length_app. apply andb_true_iff. split.
    + apply Nat.leb_le. lia.
    + replace (String.length front + String.length suffix - String.length suffix)%nat
        with (String.length front) by lia.
      rewrite substring_app_r. apply String.eqb_refl.
Qed.

(** X9. A wildcard entry [*.d] of the allow-list admits a URL exactly when
    its host name ends with [d]: the dot of the entry is dropped, so the
    host [d] itself and any host that merely ends with the characters of
    [d] pass. In production the protocol must be [https:]. *)
Theorem wildcard_origin_is_a_suffix_test (env : Env) (url d : string) :
  validateCallbackUrl env url ["*." ++ d]%string = true
  <-> exists protocol front,
        parseUrl env url = Some (protocol, (front ++ d)%string)
        /\ (production env = true -> protocol = "https:"%string).
Proof.
  unfold validateCallbackUrl.
  assert (forall hostname,
            existsb (fun domain =>
                       if Js.startsWith "*." domain
                       then Js.endsWith
                              (String.substring 2 (String.length domain - 2) domain) hostname
                       else String.eqb hostname domain) ["*." ++ d]%string
            = Js.endsWith d hostname) as Hwild.
  { intros hostname. cbn [existsb]. rewrite orb_false_r.
    rewrite !append_cons, append_nil.
    cbn [Js.startsWith Ascii.eqb Bool.eqb andb String.length Nat.sub String.substring].
    now rewrite Nat.sub_0_r, substring_all. }
  split.
  - destruct (parseUrl env url) as [[protocol hostname]|]; [| discriminate].
    rewrite Hwild.
    destruct (production env && negb (String.eqb protocol "https:")) eqn:Hp; [discriminate |].
    intros H. apply endsWith_iff in H as [front ->].
    exists protocol, front. split; [reflexivity |].
    intros Hprod. rewrite Hprod in Hp. cbn in Hp.
    apply negb_false_iff in Hp. now apply String.eqb_eq.
  - intros (protocol & front & -> & Hp). rewrite Hwild.
    destruct (production env); cbn [andb].
    + rewrite (Hp eq_refl). cbn. apply endsWith_iff. eauto.
    + apply endsWith_iff. eauto.
Qed.
(** ** Metadata *)

Lemma array_fields (fields : list (string * Json)) :
  has_array (JObj fields) = existsb (fun kv => has_array kv.2) fields.
Proof.
  cbn [has_array].
  induction fields as [|[k v] rest IH]; [reflexivity |].
  cbn [existsb fst snd]. now rewrite IH.
Qed.

(** No array survives: each one is rebuilt as an object. *)
Lemma sanitize_no_array (metadata : Json) : has_array (sanitizeMetadata metadata) = false.
Proof.
  induction metadata as [| b | x | s | items IH | fields IH] using Json_nested_ind;
    try reflexivity.
  - rewrite sanitize_arr, array_fields. generalize 0%nat.
    induction IH as [|value rest Hv _ IHrest]; intros i; [reflexivity |].
    cbn [sanitize_items]. unfold sanitizeEntry.
    destruct (polluting (index_key i)); [apply IHrest |].
    destruct value; try destruct (_ <? _)%nat; cbn [existsb fst snd has_array];
      rewrite ?IHrest, ?orb_false_r; try reflexivity; exact Hv.
  - rewrite sanitize_obj, array_fields.
    induction IH as [|[key value] rest Hv _ IHrest]; [reflexivity |].
    cbn [omap list_omap fst snd] in *. unfold sanitizeEntry at 1.
    destruct (polluting key); [apply IHrest |].
    destruct value; try destruct (_ <? _)%nat; cbn [existsb fst snd has_array];
      rewrite ?IHrest, ?orb_false_r; try reflexivity; exact Hv.
Qed.

(** An object that is clean and free of arrays is a fixed point. *)
Lemma sanitize_fixes_safe (v : Json) :
  (exists fields, v = JObj fields) -> clean v -> has_array v = false ->
  sanitizeMetadata v = v.
Proof.
  unfold clean.
  induction v as [| b | x | s | items IH | fields IH] using Json_nested_ind;
    intros [fs Hfs]; try discriminate.
  clear fs Hfs. rewrite polluting_fields, within_fields, array_fields, sanitize_obj.
  intros [Hp Hs] Ha. f_equal.
  induction IH as [|[key value] rest Hv _ IHrest]; [reflexivity |].
  cbn [existsb forallb fst snd] in Hp, Hs, Ha.
  apply orb_false_iff in Hp as [Hp Hp']. apply orb_false_iff in Hp as [Hk Hpv].
  apply andb_true_iff in Hs as [Hsv Hs']. apply orb_false_iff in Ha as [Hav Ha'].
  cbn [omap list_omap fst snd] in *. rewrite (IHrest Hp' Hs' Ha').
  unfold sanitizeEntry. rewrite Hk.
  destruct value as [| b | x | s | items | fields]; try reflexivity.
  - cbn [strings_within] in Hsv. apply Nat.leb_le in Hsv.
    destruct (Nat.ltb_spec max_string_length (String.length s)); [lia | reflexivity].
  - discriminate.
  - rewrite Hv; eauto.
Qed.

(** X10. Whatever the input, the output of [sanitizeMetadata] has none of
    the keys [__proto__], [constructor] and [prototype] at any depth, no
    string of more than 5000 characters and no array. *)
Theorem sanitize_output_is_safe (metadata : Json) :
  has_polluting_key (sanitizeMetadata metadata) = false
  /\ strings_within max_string_length (sanitizeMetadata metadata) = true
  /\ has_array (sanitizeMetadata metadata) = false.
Proof.
  destruct (sanitize_clean metadata) as [Hp Hs].
  repeat split; [exact Hp | exact Hs | apply sanitize_no_array].
Qed.

(** X11. On an object that is already safe (none of the three keys, no
    string over 5000 characters and no array, at any depth) the sanitizer
    changes nothing. *)
Theorem sanitize_keeps_safe_objects (fields : list (string * Json)) :
  has_polluting_key (JObj fields) = false ->
  strings_within max_string_length (JObj fields) = true ->
  has_array (JObj fields) = false ->
  sanitizeMetadata (JObj fields) = JObj fields.
Proof.
  intros Hp Hs Ha. apply sanitize_fixes_safe; [eauto | split; assumption | assumption].
Qed.

Lemma sanitize_keeps_safe_objects_witness :
  sanitizeMetadata (JObj [("order", JObj [("id", JStr "42"); ("paid", JBool false)])]%string)
  = JObj [("order", JObj [("id", JStr "42"); ("paid", JBool false)])]%string.
Proof.
  apply sanitize_keeps_safe_objects; reflexivity.
Defined.

(** X12. Sanitizing twice is sanitizing once. *)
Theorem sanitize_is_idempotent (metadata : Json) :
  sanitizeMetadata (sanitizeMetadata metadata) = sanitizeMetadata metadata.
Proof.
  apply sanitize_fixes_safe.
  - destruct metadata; cbn [sanitizeMetadata]; eauto.
  - apply sanitize_clean.
  - apply sanitize_no_array.
Qed.
(** ** E-mail addresses *)

Lemma regex_test_nil (s : CodeUnits) : regex_test s [] = true <-> s = [].
Proof. destruct s; cbn; split; congruence. Qed.

Lemma regex_test_one (class : N -> bool) (rest : list Piece) (s : CodeUnits) :
  regex_test s (One class :: rest) = true
  <-> exists u tail, s = u :: tail /\ class u = true /\ regex_test tail rest = true.
Proof.
  destruct s as [|u s]; cbn [regex_test]; split.
  - discriminate.
  - intros (? & ? & ? & _); discriminate.
  - intros H. apply andb_true_iff in H. eauto.
  - intros (u' & tail & [= -> ->] & Hu & Ht). now rewrite Hu, Ht.
Qed.

Lemma regex_test_many (class : N -> bool) (rest : list Piece) (s : CodeUnits) :
  regex_test s (Many class :: rest) = true
  <-> exists front tail,
        s = front ++ tail /\ front <> [] /\ forallb class front = true
        /\ regex_test tail rest = true.
Proof.
  split.
  - induction s as [|u s IH]; cbn [regex_test]; [discriminate |].
    intros H. apply andb_true_iff in H as [Hu H].
    apply orb_true_iff in H as [H|H].
    + exists [u], s. cbn. rewrite Hu. auto.
    + destruct (IH H) as (front & tail & -> & _ & Hf & Ht).
      exists (u :: front), tail. cbn. rewrite Hu, Hf. auto.
  - intros (front & tail & -> & Hne & Hf & Ht).
    induction front as [|u front IH]; [congruence |].
    cbn in Hf. apply andb_true_iff in Hf as [Hu Hf].
    cbn [app regex_test]. rewrite Hu. cbn [andb]. apply orb_true_iff.
    destruct front as [|u' front]; [left; exact Ht | right].
    apply IH; [discriminate | exact Hf].
Qed.

(** X13. [ValidationRules.email] accepts exactly the strings of at most
    255 code units of the form [local@domain.tail] in which the three parts
    are not empty and hold neither white space nor another [@]. *)
Theorem email_accepts_iff (s : CodeUnits) :
  email s = true
  <-> (length s <= 255)%nat
      /\ exists loc domain tail,
           s = loc ++ [at_sign] ++ domain ++ [full_stop] ++ tail
           /\ loc <> [] /\ domain <> [] /\ tail <> []
           /\ forallb plain (loc ++ domain ++ tail) = true.
Proof.
  unfold email, emailRegex. rewrite andb_true_iff, Nat.leb_le.
  rewrite regex_test_many. split.
  - intros [(loc & s1 & -> & Hl & Hlp & H) Hlen]. split; [exact Hlen |].
    apply regex_test_one in H as (u & s2 & -> & Hu & H). apply N.eqb_eq in Hu. subst u.
    apply regex_test_many in H as (domain & s3 & -> & Hd & Hdp & H).
    apply regex_test_one in H as (u & s4 & -> & Hu & H). apply N.eqb_eq in Hu. subst u.
    apply regex_test_many in H as (tail & s5 & -> & Ht & Htp & H).
    apply regex_test_nil in H. subst s5. rewrite app_nil_r.
    exists loc, domain, tail. repeat (split; [assumption || reflexivity |]).
    now rewrite !forallb_app, Hlp, Hdp, Htp.
  - intros [Hlen (loc & domain & tail & -> & Hl & Hd & Ht & Hp)].
    rewrite !forallb_app, !andb_true_iff in Hp. destruct Hp as (Hlp & Hdp & Htp).
    split; [| exact Hlen].
    exists loc, ([at_sign] ++ domain ++ [full_stop] ++ tail).
    repeat (split; [assumption || reflexivity |]).
    apply regex_test_one. exists at_sign, (domain ++ [full_stop] ++ tail).
    repeat (split; [reflexivity |]).
    apply regex_test_many. exists domain, ([full_stop] ++ tail).
    repeat (split; [assumption || reflexivity |]).
    apply regex_test_one. exists full_stop, tail.
    repeat (split; [reflexivity |]).
    apply regex_test_many. exists tail, []. rewrite app_nil_r.
    repeat (split; [assumption || reflexivity |]). reflexivity.
Qed.
(** * Further properties of the webhook endpoints *)

(** ** A delivery that fails the signature check *)

(** The only exception of the verifier is the [RangeError] of the
    comparison. *)
Lemma verify_throws_range_error xSignature xRequestId dataId secret e :
  verifyWebhookSignature xSignature xRequestId dataId secret = Throw e -> e = RangeError.
Proof.
  unfold verifyWebhookSignature, Crypto.timingSafeEqual.
  repeat match goal with
         | |- context [if ?b then _ else _] => destruct b
         end; congruence.
Qed.

(** X14. When a secret is configured and the signature of a delivery is
    not accepted, the handler of either variant throws (the [UNAUTHORIZED]
    error, or the [RangeError] of the verifier) and leaves the idempotency
    store and the tables as they were: a sender without the secret cannot
    mark a notification as processed. *)
Theorem rejected_signature_marks_nothing
  (v : Variant) (opts : Options) (env : Env) (n : Notification.t) (w : World)
  (type id : string) :
  Notification.type n = Some type -> accepts v type = true ->
  Notification.data_id n = Some id -> id <> EmptyString ->
  Notification.has_request n = true ->
  signature_ok opts n id = false ->
  within_rate env w = true ->
  let r := webhook_of v opts env n w in
  (r.1 = Throw (APIError UNAUTHORIZED "Invalid webhook signature") \/ r.1 = Throw RangeError)
  /\ idempotency r.2 = idempotency w /\ tables r.2 = tables w
  /\ exists evs, trace r.2 = trace w ++ evs /\ count business evs = 0%nat.
Proof.
  intros Htype Hacc Hid Hne Hreq Hsig Hrate r. subst r.
  change (wp (webhook_of v opts env n)
            (fun o w' =>
               (o = Throw (APIError UNAUTHORIZED "Invalid webhook signature")
                \/ o = Throw RangeError)
               /\ idempotency w' = idempotency w /\ tables w' = tables w
               /\ exists evs, trace w' = trace w ++ evs /\ count business evs = 0%nat) w).
  pose proof (falsy_nonempty id Hne) as Hfi.
  pose proof (accepts_valid v type Hacc) as Hvalid.
  pose proof (valid_topic_nonempty type Hvalid) as Hft.
  unfold within_rate in Hrate. unfold signature_ok in Hsig.
  apply orb_false_iff in Hsig as [Hsecret Hverify].
  assert (opt_eqb (Some type) "payment" = accepts ExternalReference type) as Hpay
    by reflexivity.
  destruct v; cbn [webhook_of accepts] in *;
    [unfold Server.webhook | unfold ExternalRef.webhook; rewrite Htype, Hpay, Hacc];
    wp_go; unfold signature_check, verify_step; rew_hyps;
    destruct (verifyWebhookSignature _ _ _ _) as [[|]|e] eqn:Hv; try discriminate;
    try (apply verify_throws_range_error in Hv; subst e); wp_go;
    unfold tables; world_simpl;
    (split; [auto |]); repeat (split; [reflexivity |]);
    eexists; (split; [trace_norm; reflexivity | reflexivity]).
Qed.

Lemma rejected_signature_marks_nothing_witness :
  let env := Scenario.env Scenario.t0 (inr (Scenario.approved 100)) in
  let r := webhook_of ServerTs Scenario.opts env Cases.forged Scenario.world in
  (r.1 = Throw (APIError UNAUTHORIZED "Invalid webhook signature") \/ r.1 = Throw RangeError)
  /\ idempotency r.2 = idempotency Scenario.world /\ tables r.2 = tables Scenario.world
  /\ exists evs, trace r.2 = trace Scenario.world ++ evs /\ count business evs = 0%nat.
Proof.
  intros env.
  apply (rejected_signature_marks_nothing ServerTs Scenario.opts env Cases.forged
           Scenario.world "payment" "pay_1").
  - reflexivity.
  - reflexivity.
  - reflexivity.
  - discriminate.
  - reflexivity.
  - vm_compute. reflexivity.
  - vm_compute. reflexivity.
Defined.

(** ** A user callback that throws *)

(** X15. When [onPaymentUpdate] throws, the delivery is still
    acknowledged and the update of the record, made before the call, stays:
    the exception is logged and goes no further, in both variants. *)
Theorem failing_callback_is_contained
  (v : Variant) (opts : Options) (env : Env) (n : Notification.t) (w : World)
  (pid : string) (mp : PaymentResponse.t) (p : PaymentRecord.t)
  (callback : PaymentRecord.t -> PaymentResponse.t -> option MpError.t) (e : MpError.t) :
  Notification.type n = Some "payment"%string ->
  Notification.data_id n = Some pid -> pid <> EmptyString ->
  Notification.has_request n = true ->
  signature_ok opts n pid = true ->
  within_rate env w = true ->
  (IdempotencyStore.get (now env) (key_of v pid "payment") (idempotency w)).1 = None ->
  paymentGet env pid = inr mp ->
  adapter_down env = None ->
  correlated v pid mp w = Some p ->
  amounts_agree p mp = true ->
  onPaymentUpdate opts = Some callback ->
  notifies v mp = true ->
  callback p mp = Some e ->
  let r := webhook_of v opts env n w in
  r.1 = Return Received
  /\ mercadoPagoPayment r.2
     = update_first (fun q => String.eqb (PaymentRecord.id q) (PaymentRecord.id p))
                    (payment_update (backfill v pid) mp (now env))
                    (mercadoPagoPayment w)
  /\ exists evs,
       trace r.2 = trace w ++ evs
                   ++ [Callback "onPaymentUpdate"; Log Error (callback_failure_log v)].
Proof.
  intros Htype Hid Hne Hreq Hsig Hrate Hget Hfetch Hup Hfound Hsame Hcb Hnot Hthrows r.
  subst r.
  change (wp (webhook_of v opts env n)
            (fun o w' =>
               o = Return Received
               /\ mercadoPagoPayment w'
                  = update_first (fun q => String.eqb (PaymentRecord.id q) (PaymentRecord.id p))
                      (payment_update (backfill v pid) mp (now env)) (mercadoPagoPayment w)
               /\ exists evs,
                    trace w' = trace w ++ evs
                      ++ [Callback "onPaymentUpdate"; Log Error (callback_failure_log v)]) w).
  pose proof (not_marked_miss _ _ _ Hget) as Hmiss.
  pose proof (falsy_nonempty pid Hne) as Hfi.
  unfold within_rate in Hrate. unfold amounts_agree in Hsame.
  destruct v; cbn [webhook_of key_of correlated notifies backfill callback_failure_log] in *.
  - unfold Server.webhook. rewrite Htype. cbn [from_option id].
    change (isValidWebhookTopic "payment") with true.
    change (Js.falsy (Some "payment"%string)) with false.
    wp_go. apply signature_step; [assumption |]. wp_go.
    unfold Server.process, Server.on_payment.
    cbn [String.eqb Ascii.eqb Bool.eqb orb when]. wp_go.
    world_simpl. repeat (split; [reflexivity |]).
    exists (opening (Server.webhookId pid "payment")
              ++ [PaymentGet pid;
                  AdapterFindOne "mercadoPagoPayment" "mercadoPagoPaymentId" pid;
                  AdapterUpdate "mercadoPagoPayment" (PaymentRecord.id p)]).
    unfold opening. trace_norm. reflexivity.
  - destruct (or_undefined (PaymentResponse.external_reference mp)) as [ref|] eqn:Href;
      [| discriminate].
    apply negb_true_iff in Hnot.
    unfold ExternalRef.webhook. rewrite Htype.
    cbn [opt_eqb String.eqb Ascii.eqb Bool.eqb from_option id].
    wp_go. apply signature_step; [assumption |]. wp_go.
    unfold ExternalRef.process. wp_go.
    world_simpl. repeat (split; [reflexivity |]).
    exists (opening (ExternalRef.webhookId "payment" pid)
              ++ [PaymentGet pid;
                  AdapterFindOne "mercadoPagoPayment" "externalReference" ref;
                  AdapterUpdate "mercadoPagoPayment" (PaymentRecord.id p)]).
    unfold opening. trace_norm. reflexivity.
Qed.

Lemma failing_callback_is_contained_witness :
  let env := Scenario.env Scenario.t0 (inr (Scenario.approved 100)) in
  (webhook_of ExternalReference Cases.throwing env Scenario.notification Scenario.world).1
  = Return Received.
Proof.
  intros env.
  destruct (failing_callback_is_contained ExternalReference Cases.throwing env
              Scenario.notification Scenario.world "pay_1" (Scenario.approved 100)
              Scenario.pending (fun _ _ => Some Scenario.no_error) Scenario.no_error)
    as [H _].
  - reflexivity.
  - reflexivity.
  - discriminate.
  - reflexivity.
  - vm_compute. reflexivity.
  - vm_compute. reflexivity.
  - vm_compute. reflexivity.
  - reflexivity.
  - reflexivity.
  - reflexivity.
  - vm_compute. reflexivity.
  - reflexivity.
  - reflexivity.
  - reflexivity.
  - exact H.
Defined.
(** * Further properties of [createPayment] *)

(** ** One run of the endpoint, summarised *)

Ltac refute_hit Hm :=
  exfalso;
  match goal with
  | Hk : CreateBody.idempotencyKey _ = Some _,
    E : (IdempotencyStore.get _ _ _).1 = Some _ |- _ =>
      rewrite Hk in E; cbn [from_option id] in E; rewrite (Hm _ Hk) in E; discriminate E
  | E : (IdempotencyStore.get _ _ _).1 = Some _ |- _ =>
      destruct (CreateBody.idempotencyKey _) as [k|] eqn:Hk; [| discriminate];
      cbn [from_option id] in E; rewrite (Hm _ eq_refl) in E; discriminate E
  end.

(** The preference request of a run, found in its trace, and the answer
    the run got from the provider. *)
Ltac provider_answer :=
  eexists; split;
  [ unfold answered_with; eexists; split;
    [ world_simpl; rewrite !List.filter_app;
      cbn [List.filter is_preference_create]; rewrite ?app_nil_r; reflexivity
    | eassumption ]
  | split; reflexivity ].

Ltac summary_leaf :=
  world_simpl; split;
  [ unfold limited, tables, create_key; world_simpl; split;
    [ reflexivity
    | intros Hv;
      first
        [ exfalso;
          match goal with
          | E : negb _ = false |- _ => rewrite Hv in E; discriminate E
          end
        | rewrite Hv; repeat split; reflexivity ] ]
  | intros Hm; split;
    [ intros res k Hres Hk Hne; try discriminate Hres; injection Hres as <-;
      first
        [ refute_hit Hm
        | exfalso;
          match goal with
          | E : Js.falsy _ = true |- _ =>
              rewrite Hk in E; rewrite (falsy_nonempty k Hne) in E; discriminate E
          end
        | rewrite Hk; cbn [from_option id]; split;
          [ match goal with
            | H : negb (validateIdempotencyKey _) = false |- _ =>
                apply negb_false_iff in H; rewrite Hk in H; exact H
            end
          | unfold IdempotencyStore.set; apply lookup_insert_eq ] ]
    | split;
      [ intros res Hres; try discriminate Hres; injection Hres as <-;
        first
          [ refute_hit Hm
          | eexists; repeat split; try reflexivity; provider_answer ]
      | intros result Hres; try discriminate Hres;
        first
          [ refute_hit Hm
          | reflexivity
          | rew_hyps; first
              [ reflexivity
              | split;
                [ match goal with
                  | Eg : bool_decide _ && _ = false |- _ => exact Eg
                  end
                | injection Hres as <-; eexists; reflexivity ] ] ] ] ] ].

Lemma createPayment_summary (v : Variant) opts env user body w :
  wp (createPayment_of v opts env (Some user) body)
     (fun o w' =>
        limited env user w o w'
        /\ (misses env body w ->
            cached env body o w' /\ persisted v env user body w o w'
            /\ split_recorded v env body w o w')) w.
Proof.
  unfold misses, cached, persisted, split_recorded.
  destruct v; cbn [createPayment_of];
    unfold Server.createPayment, ExternalRef.createPayment, idempotency_check,
      ExternalRef.create_and_persist, cache_result; wp_go.
  all: try match goal with
       | |- wp (check_urls _ _ _) _ _ =>
           eapply wp_mono; [apply check_urls_frame |];
           intros [[]|?] ? ->; cbv beta match
       end.
  all: unfold Server.ensure_customer, Server.create_and_persist, cache_result; wp_go.
  all: summary_leaf.
Qed.

(** ** Replaying a request under its idempotency key *)

(** A request whose key is in the store and has not expired is answered
    from the store. *)
Lemma createPayment_hit (v : Variant) opts env user body w key entry :
  CreateBody.idempotencyKey body = Some key -> key <> EmptyString ->
  validateIdempotencyKey key = true ->
  idempotency w !! key = Some entry ->
  (now env <= IdempotencyStore.expiresAt entry)%Z ->
  (RateLimiter.check (now env) (create_key user) 10 (60 * 1000) (attempts w)).1 = true ->
  wp (createPayment_of v opts env (Some user) body)
     (fun o w' =>
        o = Return (IdempotencyStore.result entry)
        /\ tables w' = tables w
        /\ trace w' = trace w ++ [RateLimitCheck (create_key user) true;
                                  IdempotencyGet key true]) w.
Proof.
  intros Hkey Hne Hvalid Hentry Hlive Hrate.
  pose proof (falsy_nonempty key Hne) as Hfk.
  pose proof (get_marked (now env) key (idempotency w) entry Hentry Hlive) as Hget.
  unfold create_key in *.
  destruct v; cbn [createPayment_of];
    unfold Server.createPayment, ExternalRef.createPayment, idempotency_check;
    rewrite Hkey; cbn [from_option id]; wp_go;
    unfold tables; world_simpl; repeat split; trace_norm; reflexivity.
Qed.

(** X16. A creation request that was answered under a new idempotency
    key is replayed from the store: within 24 hours any request that
    carries the same key gets the first answer back, whoever sends it and
    whatever its body, and nothing but the rate limiter and the store is
    consulted: no provider call, no access to the tables. *)
Theorem replayed_key_returns_first_response
  (v : Variant) (opts : Options) (env1 env2 : Env) (user1 user2 : Session.t)
  (body1 body2 : CreateBody.t) (w : World) (key : string) (res : IdempotencyStore.Cached) :
  CreateBody.idempotencyKey body1 = Some key ->
  CreateBody.idempotencyKey body2 = Some key ->
  key <> EmptyString ->
  (IdempotencyStore.get (now env1) key (idempotency w)).1 = None ->
  let first := createPayment_of v opts env1 (Some user1) body1 w in
  first.1 = Return res ->
  (now env2 <= now env1 + 24 * 60 * 60 * 1000)%Z ->
  (RateLimiter.check (now env2) (create_key user2) 10 (60 * 1000) (attempts first.2)).1 = true ->
  let second := createPayment_of v opts env2 (Some user2) body2 first.2 in
  second.1 = Return res
  /\ tables second.2 = tables first.2
  /\ trace second.2 = trace first.2 ++ [RateLimitCheck (create_key user2) true;
                                        IdempotencyGet key true].
Proof.
  intros Hk1 Hk2 Hne Hmiss first Hres Hlive Hrate second.
  pose proof (createPayment_summary v opts env1 user1 body1 w) as H1.
  unfold wp in H1. fold first in H1. destruct H1 as [_ H1].
  destruct H1 as [Hc _].
  { intros k Hk. rewrite Hk1 in Hk. now injection Hk as <-. }
  destruct (Hc res key Hres Hk1 Hne) as [Hvalid Hentry].
  pose proof (createPayment_hit v opts env2 user2 body2 first.2 key _ Hk2 Hne Hvalid Hentry)
    as H2.
  unfold wp in H2. fold second in H2. apply H2; [exact Hlive | exact Hrate].
Qed.

Lemma replayed_key_returns_first_response_witness :
  let env1 := Scenario.env Scenario.t0 (inl Scenario.not_found) in
  let env2 := Scenario.env (Scenario.t0 + 1000) (inl Scenario.not_found) in
  let first := createPayment_of ExternalReference Scenario.opts env1 (Some Scenario.user)
                 Cases.keyed empty_world in
  let second := createPayment_of ExternalReference Scenario.opts env2 (Some Cases.other_user)
                  Cases.keyed first.2 in
  second.1 = Return (Cases.returned IdempotencyStore.CTrue first)
  /\ tables second.2 = tables first.2.
Proof.
  intros env1 env2 first second.
  destruct (replayed_key_returns_first_response ExternalReference Scenario.opts env1 env2
              Scenario.user Cases.other_user Cases.keyed Cases.keyed empty_world
              "order-0001" (Cases.returned IdempotencyStore.CTrue first))
    as (H1 & H2 & _).
  - reflexivity.
  - reflexivity.
  - discriminate.
  - vm_compute. reflexivity.
  - vm_compute. reflexivity.
  - vm_compute. discriminate.
  - vm_compute. reflexivity.
  - exact (conj H1 H2).
Defined.
(** ** From creation to reconciliation *)

Lemma find_app_last {A} (select : A -> bool) (l : list A) (x : A) :
  Forall (fun y => select y = false) l ->
  find select (l ++ [x]) = if select x then Some x else None.
Proof.
  induction 1 as [|y l Hy _ IH]; cbn; [reflexivity |]. now rewrite Hy.
Qed.

Lemma update_first_app_last {A} (p : A -> bool) (f : A -> A) (l : list A) (x : A) :
  Forall (fun y => p y = false) l -> p x = true ->
  update_first p f (l ++ [x]) = l ++ [f x].
Proof.
  intros Hl Hx. induction Hl as [|y l Hy _ IH]; cbn; [now rewrite Hx |].
  now rewrite Hy, IH.
Qed.

Lemma correlated_find (v : Variant) (id : string) (mp : PaymentResponse.t) (w : World) :
  correlated v id mp w = find (selects v id mp) (mercadoPagoPayment w).
Proof.
  destruct v; unfold correlated, selects; [reflexivity |].
  destruct (or_undefined (PaymentResponse.external_reference mp)); [reflexivity |].
  induction (mercadoPagoPayment w); [reflexivity | assumption].
Qed.

Lemma createPayment_persists (v : Variant) opts env user body w :
  misses env body w ->
  wp (createPayment_of v opts env (Some user) body) (persisted v env user body w) w.
Proof.
  intros Hmiss. eapply wp_mono; [apply createPayment_summary |].
  intros o w' [_ H]. now apply H.
Qed.
(** A first delivery of a payment notification whose record is found and
    whose amounts agree: the record is updated and the delivery
    acknowledged, with or without a callback, whether it returns or throws. *)
Lemma webhook_reconciles (v : Variant) opts env n w pid mp p :
  Notification.type n = Some "payment"%string ->
  Notification.data_id n = Some pid -> pid <> EmptyString ->
  Notification.has_request n = true ->
  signature_ok opts n pid = true ->
  within_rate env w = true ->
  (IdempotencyStore.get (now env) (key_of v pid "payment") (idempotency w)).1 = None ->
  paymentGet env pid = inr mp ->
  adapter_down env = None ->
  correlated v pid mp w = Some p ->
  amounts_agree p mp = true ->
  wp (webhook_of v opts env n)
     (fun o w' =>
        o = Return Received
        /\ mercadoPagoPayment w'
           = update_first (fun q => String.eqb (PaymentRecord.id q) (PaymentRecord.id p))
                          (payment_update (backfill v pid) mp (now env))
                          (mercadoPagoPayment w)) w.
Proof.
  intros Htype Hid Hne Hreq Hsig Hrate Hget Hfetch Hup Hfound Hsame.
  pose proof (not_marked_miss _ _ _ Hget) as Hmiss.
  pose proof (falsy_nonempty pid Hne) as Hfi.
  unfold within_rate in Hrate. unfold amounts_agree in Hsame.
  destruct v; cbn [webhook_of key_of correlated backfill] in *.
  - unfold Server.webhook. rewrite Htype. cbn [from_option id].
    change (isValidWebhookTopic "payment") with true.
    change (Js.falsy (Some "payment"%string)) with false.
    wp_go. apply signature_step; [assumption |]. wp_go.
    unfold Server.process, Server.on_payment.
    cbn [String.eqb Ascii.eqb Bool.eqb orb when]. wp_go.
    all: world_simpl; split; reflexivity.
  - destruct (or_undefined (PaymentResponse.external_reference mp)) as [ref|] eqn:Href;
      [| discriminate].
    unfold ExternalRef.webhook. rewrite Htype.
    cbn [opt_eqb String.eqb Ascii.eqb Bool.eqb from_option id].
    wp_go. apply signature_step; [assumption |]. wp_go.
    unfold ExternalRef.process. wp_go.
    all: world_simpl; split; reflexivity.
Qed.

(** X17. A request to [createPayment] that is answered without a replay
    has persisted exactly one new payment record: pending, for the total of
    the items, owned by the session user, with the provider's preference
    id. The run asked the provider for one preference, and the id and the
    checkout URL of the response are those of the provider's answer to the
    body it sent. In [server.ts] the record's [mercadoPagoPaymentId] is that
    preference id too; in the other variant it is empty and the record
    carries the generated external reference. *)
Theorem answered_request_persisted_one_record
  (v : Variant) (opts : Options) (env : Env) (user : Session.t) (body : CreateBody.t)
  (w : World) (res : IdempotencyStore.Cached) :
  misses env body w ->
  let r := createPayment_of v opts env (Some user) body w in
  r.1 = Return res ->
  exists result preferenceBody preference,
    res = IdempotencyStore.CResult result
    /\ List.filter is_preference_create (trace r.2)
       = List.filter is_preference_create (trace w) ++ [PreferenceCreate preferenceBody]
    /\ preferenceCreate env preferenceBody = inr preference
    /\ CreateResult.preferenceId result = PreferenceResponse.id preference
    /\ CreateResult.checkoutUrl result = PreferenceResponse.init_point preference
    /\ mercadoPagoPayment r.2 = mercadoPagoPayment w ++ [CreateResult.payment result]
    /\ PaymentRecord.status (CreateResult.payment result) = "pending"%string
    /\ PaymentRecord.amount (CreateResult.payment result) = totalAmount (CreateBody.items body)
    /\ PaymentRecord.userId (CreateResult.payment result) = Session.id user
    /\ PaymentRecord.preferenceId (CreateResult.payment result)
       = PreferenceResponse.id preference
    /\ match v with
       | ServerTs =>
           PaymentRecord.mercadoPagoPaymentId (CreateResult.payment result)
           = Some (PreferenceResponse.id preference)
           /\ PaymentRecord.externalReference (CreateResult.payment result) = None
       | ExternalReference =>
           PaymentRecord.mercadoPagoPaymentId (CreateResult.payment result) = None
           /\ PaymentRecord.externalReference (CreateResult.payment result)
              = Some (fresh env (next_id w))
       end.
Proof.
  intros Hmiss r Hres.
  destruct (createPayment_persists v opts env user body w Hmiss res Hres)
    as (result & -> & Hpays & Hstatus & Hamount & Huser & Hpref & Hids
        & preference & (preferenceBody & Hsent & Hanswer) & Hid & Hurl).
  exists result, preferenceBody, preference.
  rewrite Hid in Hpref, Hids.
  repeat split; try assumption.
  all: destruct v; destruct Hids as [H1 H2]; assumption.
Qed.

Lemma answered_request_persisted_one_record_witness :
  let env := Scenario.env Scenario.t0 (inl Scenario.not_found) in
  let r := createPayment_of ServerTs Scenario.opts env (Some Scenario.user)
             (Scenario.body None) empty_world in
  exists result,
    Cases.returned IdempotencyStore.CTrue r = IdempotencyStore.CResult result
    /\ mercadoPagoPayment r.2 = mercadoPagoPayment empty_world ++ [CreateResult.payment result]
    /\ exists preferenceBody preference,
         preferenceCreate env preferenceBody = inr preference
         /\ PaymentRecord.preferenceId (CreateResult.payment result)
            = PreferenceResponse.id preference.
Proof.
  intros env r.
  destruct (answered_request_persisted_one_record ServerTs Scenario.opts env Scenario.user
              (Scenario.body None) empty_world (Cases.returned IdempotencyStore.CTrue r))
    as (result & preferenceBody & preference & H1 & _ & H3 & _ & _ & H6 & _ & _ & _ & H10 & _).
  - intros key Hkey. discriminate Hkey.
  - vm_compute. reflexivity.
  - exists result. split; [exact H1 |]. split; [exact H6 |].
    exists preferenceBody, preference. exact (conj H3 H10).
Defined.

(** X18. Creation and reconciliation fit together. After a request to
    [createPayment] was answered, a first notification that selects the new
    record (by the preference id in [server.ts], by the external reference
    of the provider's answer in the other variant) and reports an agreeing
    amount is acknowledged and updates that record and no other, provided no
    older record is selected by the notification or shares the new record's
    id. *)
Theorem created_payment_is_reconciled
  (v : Variant) (opts : Options) (env1 env2 : Env) (user : Session.t)
  (body : CreateBody.t) (w : World) (result : CreateResult.t)
  (n : Notification.t) (pid : string) (mp : PaymentResponse.t) :
  misses env1 body w ->
  let first := createPayment_of v opts env1 (Some user) body w in
  first.1 = Return (IdempotencyStore.CResult result) ->
  selects v pid mp (CreateResult.payment result) = true ->
  Forall (fun q => selects v pid mp q = false) (mercadoPagoPayment w) ->
  Forall (fun q => String.eqb (PaymentRecord.id q)
                              (PaymentRecord.id (CreateResult.payment result)) = false)
         (mercadoPagoPayment w) ->
  amounts_agree (CreateResult.payment result) mp = true ->
  Notification.type n = Some "payment"%string ->
  Notification.data_id n = Some pid -> pid <> EmptyString ->
  Notification.has_request n = true ->
  signature_ok opts n pid = true ->
  within_rate env2 first.2 = true ->
  (IdempotencyStore.get (now env2) (key_of v pid "payment") (idempotency first.2)).1 = None ->
  paymentGet env2 pid = inr mp ->
  adapter_down env2 = None ->
  let second := webhook_of v opts env2 n first.2 in
  second.1 = Return Received
  /\ mercadoPagoPayment second.2
     = mercadoPagoPayment w
       ++ [payment_update (backfill v pid) mp (now env2) (CreateResult.payment result)].
Proof.
  intros Hmiss first Hres Hsel Hold Hids Hsame Htype Hid Hne Hreq Hsig Hrate Hget Hfetch Hup
    second.
  destruct (createPayment_persists v opts env1 user body w Hmiss _ Hres)
    as (result' & [= <-] & Hpays & _).
  fold first in Hpays.
  assert (correlated v pid mp first.2 = Some (CreateResult.payment result)) as Hfound.
  { rewrite correlated_find, Hpays, find_app_last by exact Hold. now rewrite Hsel. }
  pose proof (webhook_reconciles v opts env2 n first.2 pid mp (CreateResult.payment result)
                Htype Hid Hne Hreq Hsig Hrate Hget Hfetch Hup Hfound Hsame) as H2.
  unfold wp in H2. fold second in H2. destruct H2 as [Hack Hupd].
  split; [exact Hack |].
  rewrite Hupd, Hpays. apply update_first_app_last; [exact Hids | apply String.eqb_refl].
Qed.

Lemma created_payment_is_reconciled_witness :
  let env1 := Scenario.env Scenario.t0 (inl Scenario.not_found) in
  let env2 := Cases.env (Scenario.t0 + 5000) (inr (Cases.paid "id_0")) in
  let first := createPayment_of ExternalReference Scenario.opts env1 (Some Scenario.user)
                 (Scenario.body None) empty_world in
  (webhook_of ExternalReference Scenario.opts env2 Scenario.notification first.2).1
  = Return Received.
Proof.
  intros env1 env2 first.
  destruct (created_payment_is_reconciled ExternalReference Scenario.opts env1 env2
              Scenario.user (Scenario.body None) empty_world (Cases.result_of first)
              Scenario.notification "pay_1" (Cases.paid "id_0"))
    as [H _].
  - intros key Hkey. discriminate Hkey.
  - vm_compute. reflexivity.
  - vm_compute. reflexivity.
  - constructor.
  - constructor.
  - vm_compute. reflexivity.
  - reflexivity.
  - reflexivity.
  - discriminate.
  - reflexivity.
  - vm_compute. reflexivity.
  - vm_compute. reflexivity.
  - vm_compute. reflexivity.
  - reflexivity.
  - reflexivity.
  - exact H.
Defined.
(** ** Notifications that are not processed *)

(** The type [authorized_payment], for which the [try] block of
    [server.ts] has a branch, is not among the accepted topics: a
    notification of that type is dismissed by the guard. *)
Example authorized_payment_is_dismissed :
  handled "authorized_payment" = true /\ accepts ServerTs "authorized_payment" = false.
Proof. split; reflexivity. Qed.




(** ** Subscription notifications in [server.ts] *)

(** X21. A first, signed notification of type [subscription_preapproval]
    or [subscription_preapproval_plan] whose subscription is found is
    acknowledged, and the record takes the provider's status, reason, dates
    and summary; this does not depend on the callback, which may be absent
    or throw. No payment record changes. *)
Theorem subscription_notification_updates_record
  (opts : Options) (env : Env) (n : Notification.t) (w : World) (type sid : string)
  (mp : PreApprovalResponse.t) (s : SubscriptionRecord.t) :
  Notification.type n = Some type ->
  type = "subscription_preapproval"%string \/ type = "subscription_preapproval_plan"%string ->
  Notification.data_id n = Some sid -> sid <> EmptyString ->
  Notification.has_request n = true ->
  signature_ok opts n sid = true ->
  within_rate env w = true ->
  (IdempotencyStore.get (now env) (key_of ServerTs sid type) (idempotency w)).1 = None ->
  preApprovalGet env sid = inr mp ->
  adapter_down env = None ->
  find (fun r => String.eqb (SubscriptionRecord.mercadoPagoSubscriptionId r) sid)
       (mercadoPagoSubscription w) = Some s ->
  let r := Server.webhook opts env n w in
  r.1 = Return Received
  /\ mercadoPagoSubscription r.2
     = update_first (fun q => String.eqb (SubscriptionRecord.id q) (SubscriptionRecord.id s))
                    (subscription_update mp (now env)) (mercadoPagoSubscription w)
  /\ mercadoPagoPayment r.2 = mercadoPagoPayment w.
Proof.
  intros Htype Hkind Hid Hne Hreq Hsig Hrate Hget Hfetch Hup Hfound r. subst r.
  change (wp (Server.webhook opts env n)
            (fun o w' =>
               o = Return Received
               /\ mercadoPagoSubscription w'
                  = update_first
                      (fun q => String.eqb (SubscriptionRecord.id q) (SubscriptionRecord.id s))
                      (subscription_update mp (now env)) (mercadoPagoSubscription w)
               /\ mercadoPagoPayment w' = mercadoPagoPayment w) w).
  pose proof (not_marked_miss _ _ _ Hget) as Hmiss.
  pose proof (falsy_nonempty sid Hne) as Hfi.
  unfold within_rate in Hrate. cbn [key_of] in *.
  unfold Server.webhook. rewrite Htype. cbn [from_option id].
  destruct Hkind as [-> | ->].
  all: match goal with
       | |- context [isValidWebhookTopic ?t] => change (isValidWebhookTopic t) with true
       end;
    match goal with
    | |- context [Js.falsy (Some ?t)] =>
        lazymatch t with
        | String _ _ => change (Js.falsy (Some t)) with false
        end
    end.
  all: wp_go; (apply signature_step; [assumption |]); wp_go.
  all: unfold Server.process, Server.on_preapproval;
    cbn [String.eqb Ascii.eqb Bool.eqb orb when]; wp_go.
  all: world_simpl; repeat split; reflexivity.
Qed.

Lemma subscription_notification_updates_record_witness :
  let env := Cases.env Scenario.t0 (inl Scenario.not_found) in
  (Server.webhook Scenario.opts env (Cases.notification "subscription_preapproval")
     Cases.subscribed).1
  = Return Received.
Proof.
  intros env.
  destruct (subscription_notification_updates_record Scenario.opts env
              (Cases.notification "subscription_preapproval") Cases.subscribed
              "subscription_preapproval" "pay_1" Cases.authorized Cases.subscription)
    as [H _].
  - reflexivity.
  - left. reflexivity.
  - reflexivity.
  - discriminate.
  - reflexivity.
  - vm_compute. reflexivity.
  - vm_compute. reflexivity.
  - vm_compute. reflexivity.
  - reflexivity.
  - reflexivity.
  - reflexivity.
  - exact H.
Defined.

(** X22. A notification of type [subscription_authorized_payment] never
    changes a record: whatever the request, the options and the answers of
    the provider, the four tables are after the delivery what they were
    before, and no update is sent to the adapter. The handler looks the
    subscription up and calls [onSubscriptionPayment]; it writes nothing. *)
Theorem authorized_payment_changes_no_record
  (opts : Options) (env : Env) (n : Notification.t) (w : World) :
  Notification.type n = Some "subscription_authorized_payment"%string ->
  let r := Server.webhook opts env n w in
  tables r.2 = tables w
  /\ exists evs, trace r.2 = trace w ++ evs /\ count is_update evs = 0%nat.
Proof.
  intros Htype r. subst r.
  change (wp (Server.webhook opts env n)
            (fun o w' =>
               tables w' = tables w
               /\ exists evs, trace w' = trace w ++ evs /\ count is_update evs = 0%nat) w).
  unfold Server.webhook. rewrite Htype. cbn [from_option id].
  change (isValidWebhookTopic "subscription_authorized_payment") with true.
  change (Js.falsy (Some "subscription_authorized_payment"%string)) with false.
  unfold signature_check, verify_step. wp_go.
  all: unfold Server.process, Server.on_authorized_payment;
    cbn [String.eqb Ascii.eqb Bool.eqb orb when]; wp_go.
  all: unfold tables; world_simpl; (split; [reflexivity |]);
    eexists; (split; [first [trace_norm; reflexivity | symmetry; apply app_nil_r] |]);
    reflexivity.
Qed.

Lemma authorized_payment_changes_no_record_witness :
  let env := Cases.env Scenario.t0 (inr (Cases.paid "sub_1")) in
  tables (Server.webhook Cases.throwing env
            (Cases.notification "subscription_authorized_payment") Cases.subscribed).2
  = tables Cases.subscribed.
Proof.
  intros env.
  destruct (authorized_payment_changes_no_record Cases.throwing env
              (Cases.notification "subscription_authorized_payment") Cases.subscribed)
    as [H _].
  - reflexivity.
  - exact H.
Defined.
(** ** The quota of creation requests *)

(** The rate limiter sees the requests that pass the body schema, and no
    others. *)
Lemma serve_limiter (v : Variant) framework opts user requests : forall w,
  attempts (serve v framework opts user requests w)
  = (RateLimiter.run (create_key user) 10 (60 * 1000) (reaching framework requests)
       (attempts w)).2.
Proof.
  induction requests as [|[env rawBody] requests IH]; intros w; [reflexivity |].
  change (serve v framework opts user ((env, rawBody) :: requests) w)
    with (serve v framework opts user requests
            (createPayment_endpoint v framework opts env (Some user) rawBody w).2).
  rewrite IH. unfold reaching, createPayment_endpoint. cbn [omap list_omap fst snd].
  destruct (parseBody framework rawBody) as [body|]; cbn [option_map]; [| reflexivity].
  cbn [RateLimiter.run fst snd]. f_equal. f_equal.
  pose proof (createPayment_summary v opts env user body w) as H.
  unfold wp in H. destruct H as [[H _] _]. exact H.
Qed.

(** Inside the window the count grows by one with each call until it
    reaches the maximum, where it stays. *)
Lemma run_saturates key maxAttempts windowMs times :
  forall (attempts : gmap string RateLimiter.Attempt) c r,
    attempts !! key = Some {| RateLimiter.count := c; RateLimiter.resetAt := r |} ->
    Forall (fun t => (t <= r)%Z) times ->
    (c <= maxAttempts)%Z ->
    (RateLimiter.run key maxAttempts windowMs times attempts).2 !! key
    = Some {| RateLimiter.count := Z.min maxAttempts (c + Z.of_nat (length times));
              RateLimiter.resetAt := r |}.
Proof.
  induction times as [|t times IH]; intros attempts c r Hk Hall Hc;
    cbn [RateLimiter.run length fst snd].
  - rewrite Hk. do 2 f_equal. lia.
  - inversion Hall as [|? ? Ht Hrest]; subst.
    destruct (Z.lt_ge_cases c maxAttempts) as [Hlt|Hge].
    + rewrite (check_within key maxAttempts windowMs t attempts c r) by auto.
      cbn [fst snd].
      rewrite (IH _ (c + 1)%Z r); [| apply lookup_insert_eq | assumption | lia].
      do 2 f_equal. lia.
    + rewrite (check_exhausted key maxAttempts windowMs t attempts c r) by (auto; lia).
      cbn [fst snd].
      rewrite (IH _ c r) by assumption.
      do 2 f_equal. lia.
Qed.

(** X23. The quota of [createPayment] counts the requests of a signed-in
    user that reach the handler, however the handler ends, and no others:
    a request whose body fails the schema of the endpoint is answered by
    the framework and leaves everything as it is. Starting without a record
    for the user, after requests of which at least one passed the schema and
    all that passed it were made within a minute of the first of them, the
    limiter holds their number, up to ten; and from the tenth on, a further
    request that passes the schema within that minute is refused with
    [TOO_MANY_REQUESTS] and touches neither the limiter, the store nor the
    tables. *)
Theorem eleventh_request_is_refused
  (v : Variant) (framework : Framework) (opts : Options) (user : Session.t)
  (requests : list (Env * Json)) (first : Z) (rest : list Z)
  (env : Env) (rawBody : Json) (w : World) :
  attempts w !! create_key user = None ->
  reaching framework requests = first :: rest ->
  Forall (fun t => (t <= first + 60 * 1000)%Z) rest ->
  let served := serve v framework opts user requests w in
  let r := createPayment_endpoint v framework opts env (Some user) rawBody served in
  attempts served !! create_key user
  = Some {| RateLimiter.count := Z.min 10 (1 + Z.of_nat (length rest));
            RateLimiter.resetAt := (first + 60 * 1000)%Z |}
  /\ (parseBody framework rawBody = None ->
      r.1 = Throw (invalidBody framework) /\ r.2 = served)
  /\ (is_Some (parseBody framework rawBody) ->
      (9 <= length rest)%nat -> (now env <= first + 60 * 1000)%Z ->
      r.1 = Throw (APIError TOO_MANY_REQUESTS
                     "Too many payment creation attempts. Please try again later.")
      /\ tables r.2 = tables served /\ idempotency r.2 = idempotency served
      /\ attempts r.2 = attempts served).
Proof.
  intros Hnone Hreach Hrest served r.
  assert (attempts served !! create_key user
          = Some {| RateLimiter.count := Z.min 10 (1 + Z.of_nat (length rest));
                    RateLimiter.resetAt := (first + 60 * 1000)%Z |}) as Hcount.
  { subst served. rewrite serve_limiter, Hreach.
    cbn [RateLimiter.run fst snd].
    rewrite (check_fresh (create_key user) 10 (60 * 1000) first (attempts w) Hnone).
    cbn [fst snd].
    apply run_saturates; [apply lookup_insert_eq | exact Hrest | lia]. }
  split; [exact Hcount |]. split.
  - intros Hfails. subst r. unfold createPayment_endpoint. rewrite Hfails.
    split; reflexivity.
  - intros [body Hbody] Hten Hlate. subst r. unfold createPayment_endpoint.
    rewrite Hbody.
    pose proof (check_exhausted (create_key user) 10 (60 * 1000) (now env)
                  (attempts served) _ _ Hcount Hlate) as Hcheck.
    pose proof (createPayment_summary v opts env user body served) as H.
    unfold wp, limited in H. destruct H as [[Hattempts H] _].
    rewrite Hcheck in Hattempts, H by lia.
    destruct (H eq_refl) as (Ho & Ht & Hi & _). auto.
Qed.

Lemma eleventh_request_is_refused_witness :
  let env := Scenario.env Scenario.t0 (inl Scenario.not_found) in
  let served := serve ServerTs Cases.framework Scenario.opts Scenario.user
                  ((env, JStr "no body") :: repeat (env, JObj []) 10) empty_world in
  attempts served !! create_key Scenario.user
  = Some {| RateLimiter.count := 10;
            RateLimiter.resetAt := (Scenario.t0 + 60 * 1000)%Z |}
  /\ (createPayment_endpoint ServerTs Cases.framework Scenario.opts env
        (Some Scenario.user) (JObj []) served).1
     = Throw (APIError TOO_MANY_REQUESTS
                "Too many payment creation attempts. Please try again later.").
Proof.
  intros env served.
  destruct (eleventh_request_is_refused ServerTs Cases.framework Scenario.opts
              Scenario.user ((env, JStr "no body") :: repeat (env, JObj []) 10)
              Scenario.t0 (repeat Scenario.t0 9) env (JObj []) empty_world)
    as (Hcount & _ & Hrefused).
  - reflexivity.
  - reflexivity.
  - repeat constructor; lia.
  - split; [exact Hcount |].
    destruct Hrefused as [H _]; [eexists; reflexivity | cbn; lia | cbn; lia |].
    exact H.
Defined.
(** * Further endpoints of [server.ts] *)

Ltac wp_more :=
  repeat (rew_hyps;
          first [ wp_step
                | progress unfold ask, ServerEndpoints.createSubscriptionRecord ]).

Lemma find_filter_and {A} (p q : A -> bool) (l : list A) :
  find (fun x => p x && q x) l = find p (List.filter q l).
Proof.
  induction l as [|x l IH]; [reflexivity |]. cbn.
  destruct (q x); cbn; [| now rewrite andb_false_r].
  rewrite andb_true_r. now destruct (p x).
Qed.

(** ** Reading a payment *)

(** X24. [getPayment] changes nothing, and what it answers is decided by
    the caller's own records alone: a record it returns has the requested
    id and belongs to the caller, and the answer is the same in any two
    states of the payment table that agree on the caller's records, so that
    another user's payment is reported exactly like a missing one. *)
Theorem payment_is_shown_to_its_owner_only
  (env : Env) (session : option Session.t) (paymentId : string) (w : World) :
  let r := ServerEndpoints.getPayment env session paymentId w in
  tables r.2 = tables w /\ idempotency r.2 = idempotency w
  /\ (forall p, r.1 = Return p ->
        exists user, session = Some user
                     /\ In p (mercadoPagoPayment w)
                     /\ PaymentRecord.id p = paymentId
                     /\ PaymentRecord.userId p = Session.id user)
  /\ (forall user w2,
        session = Some user ->
        List.filter (fun p => String.eqb (PaymentRecord.userId p) (Session.id user))
                    (mercadoPagoPayment w2)
        = List.filter (fun p => String.eqb (PaymentRecord.userId p) (Session.id user))
                      (mercadoPagoPayment w) ->
        (ServerEndpoints.getPayment env session paymentId w2).1 = r.1).
Proof.
  intros r. subst r. unfold ServerEndpoints.getPayment.
  destruct session as [user|].
  - repeat split.
    + unfold tables, bind, Adapter.findPayment, adapter_call, emit, gets, bind.
      cbn. destruct (adapter_down env); [reflexivity |]. cbn.
      now destruct (find _ _).
    + unfold bind, Adapter.findPayment, adapter_call, emit, gets, bind.
      cbn. destruct (adapter_down env); [reflexivity |]. cbn.
      now destruct (find _ _).
    + intros p. unfold bind, Adapter.findPayment, adapter_call, emit, gets, bind.
      cbn. destruct (adapter_down env); [discriminate |]. cbn.
      destruct (find _ _) as [q|] eqn:Hq; [| discriminate].
      cbn. intros [= <-]. exists user. split; [reflexivity |].
      apply List.find_some in Hq as [Hin Hq]. apply andb_true_iff in Hq as [H1 H2].
      apply String.eqb_eq in H1, H2. auto.
    + intros user' w2 [= <-] Hsame.
      unfold bind, Adapter.findPayment, adapter_call, emit, gets, bind.
      cbn. destruct (adapter_down env); [reflexivity |]. cbn.
      rewrite !find_filter_and, Hsame. now destruct (find _ _).
  - repeat split; try reflexivity; intros; discriminate.
Qed.

(** ** The customer of a user *)

Lemma find_none_forall {A} (select : A -> bool) (l : list A) :
  find select l = None -> Forall (fun y => select y = false) l.
Proof.
  induction l as [|x l IH]; cbn; [constructor |].
  destruct (select x) eqn:Hx; [discriminate |]. auto.
Qed.

(** X25. [getOrCreateCustomer] creates at most one customer per user: once
    a call has returned a customer, a later call of the same user returns
    the same customer after one lookup, whatever e-mail address it carries,
    without a call to the provider and without a change of the tables. *)
Theorem customer_is_created_once
  (env1 env2 : Env) (user : Session.t) (email1 email2 : option string) (w : World)
  (c : CustomerRecord.t) :
  let first := ServerEndpoints.getOrCreateCustomer env1 (Some user) email1 w in
  first.1 = Return c ->
  adapter_down env2 = None ->
  let second := ServerEndpoints.getOrCreateCustomer env2 (Some user) email2 first.2 in
  second.1 = Return c
  /\ tables second.2 = tables first.2
  /\ trace second.2
     = trace first.2 ++ [AdapterFindOne "mercadoPagoCustomer" "userId" (Session.id user)].
Proof.
  intros first Hc Hup second.
  assert (find (fun r => String.eqb (CustomerRecord.userId r) (Session.id user))
               (mercadoPagoCustomer first.2) = Some c) as Hfound.
  { revert Hc. subst first.
    change (wp (ServerEndpoints.getOrCreateCustomer env1 (Some user) email1)
              (fun o w' =>
                 o = Return c ->
                 find (fun r => String.eqb (CustomerRecord.userId r) (Session.id user))
                      (mercadoPagoCustomer w') = Some c) w).
    unfold ServerEndpoints.getOrCreateCustomer. wp_more.
    all: intros Hc; try discriminate Hc; injection Hc as <-; world_simpl.
    - assumption.
    - rewrite find_app_last by (now apply find_none_forall).
      cbn [CustomerRecord.userId]. now rewrite String.eqb_refl. }
  subst second.
  change (wp (ServerEndpoints.getOrCreateCustomer env2 (Some user) email2)
            (fun o w' =>
               o = Return c /\ tables w' = tables first.2
               /\ trace w'
                  = trace first.2
                    ++ [AdapterFindOne "mercadoPagoCustomer" "userId" (Session.id user)])
            first.2).
  unfold ServerEndpoints.getOrCreateCustomer. wp_more.
  unfold tables; world_simpl. repeat split; reflexivity.
Qed.

Lemma customer_is_created_once_witness :
  let env := Scenario.env Scenario.t0 (inl Scenario.not_found) in
  let first := ServerEndpoints.getOrCreateCustomer env (Some Scenario.user) None empty_world in
  (ServerEndpoints.getOrCreateCustomer env (Some Scenario.user) (Some "new@example.com"%string)
     first.2).1
  = Return (Cases.returned Cases.no_customer first).
Proof.
  intros env first.
  destruct (customer_is_created_once env env Scenario.user None
              (Some "new@example.com"%string) empty_world
              (Cases.returned Cases.no_customer first))
    as [H _].
  - vm_compute. reflexivity.
  - reflexivity.
  - exact H.
Defined.

(** ** Cancelling a subscription *)

(** X26. [cancelSubscription] acts on a subscription of the caller only,
    and only after the provider has accepted the cancellation. Without a
    subscription of that id owned by the caller it throws [NOT_FOUND]
    whatever the provider would answer; when the provider refuses, its error
    is thrown and the record keeps its status; when it accepts, the record
    of that id becomes [cancelled]. *)
Theorem cancellation_is_owner_only_and_follows_the_provider
  (provider : Provider) (env : Env) (user : Session.t) (subscriptionId : string)
  (w : World) :
  adapter_down env = None ->
  let own :=
    find (fun s => String.eqb (SubscriptionRecord.id s) subscriptionId
                   && String.eqb (SubscriptionRecord.userId s) (Session.id user))
         (mercadoPagoSubscription w) in
  let r := ServerEndpoints.cancelSubscription provider env (Some user) subscriptionId w in
  match own with
  | None =>
      r.1 = Throw (APIError NOT_FOUND "Subscription not found")
      /\ tables r.2 = tables w
      /\ forall other,
           ServerEndpoints.cancelSubscription other env (Some user) subscriptionId w = r
  | Some s =>
      match preApprovalUpdate provider (SubscriptionRecord.mercadoPagoSubscriptionId s)
                              "cancelled" with
      | inl error => r.1 = Throw (Foreign error) /\ tables r.2 = tables w
      | inr _ =>
          r.1 = Return tt
          /\ mercadoPagoSubscription r.2
             = update_first (fun q => String.eqb (SubscriptionRecord.id q) subscriptionId)
                            (ServerEndpoints.cancelled (now env)) (mercadoPagoSubscription w)
          /\ mercadoPagoPayment r.2 = mercadoPagoPayment w
      end
  end.
Proof.
  intros Hup own r. subst own r.
  destruct (find _ (mercadoPagoSubscription w)) as [s|] eqn:Hown.
  - destruct (preApprovalUpdate provider _ _) as [error|[]] eqn:Hanswer.
    + change (wp (ServerEndpoints.cancelSubscription provider env (Some user) subscriptionId)
                (fun o w' => o = Throw (Foreign error) /\ tables w' = tables w) w).
      unfold ServerEndpoints.cancelSubscription. wp_more.
      unfold tables; world_simpl. split; reflexivity.
    + change (wp (ServerEndpoints.cancelSubscription provider env (Some user) subscriptionId)
                (fun o w' =>
                   o = Return tt
                   /\ mercadoPagoSubscription w'
                      = update_first
                          (fun q => String.eqb (SubscriptionRecord.id q) subscriptionId)
                          (ServerEndpoints.cancelled (now env)) (mercadoPagoSubscription w)
                   /\ mercadoPagoPayment w' = mercadoPagoPayment w) w).
      unfold ServerEndpoints.cancelSubscription. wp_more.
      world_simpl. repeat split; reflexivity.
  - assert (forall other,
              wp (ServerEndpoints.cancelSubscription other env (Some user) subscriptionId)
                 (fun o w' =>
                    o = Throw (APIError NOT_FOUND "Subscription not found")
                    /\ w' = with_trace
                              (trace w ++ [AdapterFindOne "mercadoPagoSubscription" "id"
                                             subscriptionId]) w) w) as Hnone.
    { intros other. unfold ServerEndpoints.cancelSubscription. wp_more.
      split; reflexivity. }
    pose proof (Hnone provider) as [H1 H2].
    split; [exact H1 |]. split; [now rewrite H2 |].
    intros other. destruct (Hnone other) as [H3 H4].
    apply injective_projections; congruence.
Qed.

Lemma cancellation_is_owner_only_and_follows_the_provider_witness :
  let env := Scenario.env Scenario.t0 (inl Scenario.not_found) in
  let own :=
    find (fun s => String.eqb (SubscriptionRecord.id s) "sub_1"
                   && String.eqb (SubscriptionRecord.userId s) (Session.id Cases.other_user))
         (mercadoPagoSubscription Cases.subscribed) in
  let r := ServerEndpoints.cancelSubscription Cases.provider env (Some Cases.other_user)
             "sub_1" Cases.subscribed in
  match own with
  | None =>
      r.1 = Throw (APIError NOT_FOUND "Subscription not found")
      /\ tables r.2 = tables Cases.subscribed
      /\ forall other,
           ServerEndpoints.cancelSubscription other env (Some Cases.other_user) "sub_1"
             Cases.subscribed = r
  | Some s =>
      match preApprovalUpdate Cases.provider (SubscriptionRecord.mercadoPagoSubscriptionId s)
                              "cancelled" with
      | inl error => r.1 = Throw (Foreign error) /\ tables r.2 = tables Cases.subscribed
      | inr _ =>
          r.1 = Return tt
          /\ mercadoPagoSubscription r.2
             = update_first (fun q => String.eqb (SubscriptionRecord.id q) "sub_1")
                            (ServerEndpoints.cancelled (now env))
                            (mercadoPagoSubscription Cases.subscribed)
          /\ mercadoPagoPayment r.2 = mercadoPagoPayment Cases.subscribed
      end
  end.
Proof.
  intros env.
  apply (cancellation_is_owner_only_and_follows_the_provider Cases.provider env
           Cases.other_user "sub_1" Cases.subscribed).
  reflexivity.
Defined.

(** ** Creating a subscription *)

Lemma preApprovalBody_reference opts env user body subscriptionId sent :
  ServerEndpoints.preApprovalBody opts env user body subscriptionId = Some sent ->
  PreApprovalBody.external_reference sent = subscriptionId
  /\ PreApprovalBody.payer_email sent = Session.email user
  /\ PreApprovalBody.status sent = "pending"%string.
Proof.
  unfold ServerEndpoints.preApprovalBody.
  destruct (or_undefined _); [| destruct (SubscriptionBody.autoRecurring body)];
    intros [= <-]; auto.
Qed.

(** What an answered request to [createSubscription] has done. *)
Lemma createSubscription_persists opts provider env user body w :
  wp (ServerEndpoints.createSubscription opts provider env (Some user) body)
     (fun o w' =>
        forall res, o = Return res ->
          let s := SubscriptionResult.subscription res in
          mercadoPagoSubscription w' = mercadoPagoSubscription w ++ [s]
          /\ mercadoPagoPayment w' = mercadoPagoPayment w
          /\ SubscriptionRecord.status s = "pending"%string
          /\ SubscriptionRecord.userId s = Session.id user
          /\ SubscriptionRecord.planId s = ServerEndpoints.planId body
          /\ In (GenerateId (SubscriptionRecord.id s)) (trace w')
          /\ exists sent created,
               ServerEndpoints.preApprovalBody opts env user body (SubscriptionRecord.id s)
               = Some sent
               /\ preApprovalCreate provider sent = inr created
               /\ SubscriptionRecord.mercadoPagoSubscriptionId s
                  = PreApprovalCreated.id created
               /\ SubscriptionResult.checkoutUrl res
                  = PreApprovalCreated.init_point created) w.
Proof.
  unfold ServerEndpoints.createSubscription. wp_more.
  all: intros res Hres; try discriminate Hres; injection Hres as <-.
  all: cbv zeta; world_simpl; cbn [SubscriptionResult.subscription SubscriptionRecord.id].
  all: repeat (split; [reflexivity |]).
  all: (split; [rewrite !in_app_iff; cbn [In]; auto 10 |]).
  all: eexists _, _; repeat split; eassumption.
Qed.

(** X27. A subscription that [createSubscription] answers with is one new
    record, pending and owned by the caller, whose id was generated in the
    run and is the [external_reference] of the body sent to the provider
    (with the caller's e-mail address and status [pending]), and whose
    [mercadoPagoSubscriptionId] and checkout URL are those of the
    provider's answer to that body. *)
Theorem subscription_reference_is_the_record_id
  (opts : Options) (provider : Provider) (env : Env) (user : Session.t)
  (body : SubscriptionBody.t) (w : World) (res : SubscriptionResult.t) :
  let r := ServerEndpoints.createSubscription opts provider env (Some user) body w in
  r.1 = Return res ->
  let s := SubscriptionResult.subscription res in
  mercadoPagoSubscription r.2 = mercadoPagoSubscription w ++ [s]
  /\ SubscriptionRecord.status s = "pending"%string
  /\ SubscriptionRecord.userId s = Session.id user
  /\ In (GenerateId (SubscriptionRecord.id s)) (trace r.2)
  /\ exists sent created,
       preApprovalCreate provider sent = inr created
       /\ PreApprovalBody.external_reference sent = SubscriptionRecord.id s
       /\ PreApprovalBody.payer_email sent = Session.email user
       /\ PreApprovalBody.status sent = "pending"%string
       /\ SubscriptionRecord.mercadoPagoSubscriptionId s = PreApprovalCreated.id created
       /\ SubscriptionResult.checkoutUrl res = PreApprovalCreated.init_point created.
Proof.
  intros r Hres s.
  destruct (createSubscription_persists opts provider env user body w res Hres)
    as (H1 & _ & H3 & H4 & _ & H6 & sent & created & Hsent & Hanswer & H7 & H8).
  destruct (preApprovalBody_reference _ _ _ _ _ _ Hsent) as (Hr & He & Hs).
  repeat (split; [assumption |]).
  exists sent, created. repeat (split; [assumption |]). assumption.
Qed.

Lemma subscription_reference_is_the_record_id_witness :
  let env := Scenario.env Scenario.t0 (inl Scenario.not_found) in
  let r := ServerEndpoints.createSubscription Scenario.opts Cases.provider env
             (Some Scenario.user) Cases.by_plan empty_world in
  let s := SubscriptionResult.subscription (Cases.returned Cases.no_subscription r) in
  mercadoPagoSubscription r.2 = mercadoPagoSubscription empty_world ++ [s]
  /\ SubscriptionRecord.status s = "pending"%string.
Proof.
  intros env r s.
  destruct (subscription_reference_is_the_record_id Scenario.opts Cases.provider env
              Scenario.user Cases.by_plan empty_world
              (Cases.returned Cases.no_subscription r))
    as (H1 & H2 & _).
  - vm_compute. reflexivity.
  - exact (conj H1 H2).
Defined.


(** ** The marketplace split *)

(** X29. In [server.ts] a request with a marketplace configuration that is
    answered without a replay passed the fee check (the total is not
    below or equal to the fee) and has added one split record for the new
    payment: seller, fee, and the total minus the fee as net amount. *)
Theorem marketplace_split_is_recorded
  (opts : Options) (env : Env) (user : Session.t) (body : CreateBody.t) (w : World)
  (m : MarketplaceConfig.t) (result : CreateResult.t) :
  misses env body w ->
  CreateBody.marketplace body = Some m ->
  let r := Server.createPayment opts env (Some user) body w in
  r.1 = Return (IdempotencyStore.CResult result) ->
  let total := totalAmount (CreateBody.items body) in
  let fee := Server.fee_amount total (Some m) in
  PrimFloat.leb total fee = false
  /\ exists splitId,
       mercadoPagoMarketplaceSplit r.2
       = mercadoPagoMarketplaceSplit w
         ++ [{| SplitRecord.id := splitId;
                SplitRecord.paymentId := PaymentRecord.id (CreateResult.payment result);
                SplitRecord.collectorId := MarketplaceConfig.collectorId m;
                SplitRecord.collectorEmail := "";
                SplitRecord.applicationFeeAmount := fee;
                SplitRecord.applicationFeePercentage :=
                  MarketplaceConfig.applicationFeePercentage m;
                SplitRecord.netAmount := PrimFloat.sub total fee;
                SplitRecord.createdAt := now env |}].
Proof.
  intros Hmiss Hm r Hres total fee.
  pose proof (createPayment_summary ServerTs opts env user body w) as H.
  unfold wp in H. cbn [createPayment_of] in H. fold r in H.
  destruct H as [_ H]. destruct (H Hmiss) as (_ & _ & Hsplit).
  specialize (Hsplit result Hres). rewrite Hm in Hsplit. exact Hsplit.
Qed.

Lemma marketplace_split_is_recorded_witness :
  let env := Scenario.env Scenario.t0 (inl Scenario.not_found) in
  let r := Server.createPayment Scenario.opts env (Some Scenario.user) Cases.for_seller
             empty_world in
  PrimFloat.leb (totalAmount (CreateBody.items Cases.for_seller))
                (Server.fee_amount (totalAmount (CreateBody.items Cases.for_seller))
                                   (Some Cases.marketplace)) = false.
Proof.
  intros env r.
  destruct (marketplace_split_is_recorded Scenario.opts env Scenario.user Cases.for_seller
              empty_world Cases.marketplace (Cases.result_of r))
    as [H _].
  - intros key Hkey. discriminate Hkey.
  - reflexivity.
  - vm_compute. reflexivity.
  - exact H.
Defined.

(** ** Provider errors *)

(** X30. [handleMercadoPagoError] always throws an [APIError]. Its type is
    [INTERNAL_SERVER_ERROR] exactly when the provider's error has no status,
    status 0 or status 500, and then without a status the message is the
    fixed one; every status outside the table (422 or 503, say) is reported
    as [BAD_REQUEST], with the provider's message when it has one. *)
Theorem provider_errors_become_api_errors (error : MpError.t) :
  exists type message,
    handleMercadoPagoError error = APIError type message
    /\ (type = INTERNAL_SERVER_ERROR
        <-> MpError.status error = None \/ MpError.status error = Some 0%Z
            \/ MpError.status error = Some 500%Z)
    /\ (MpError.status error = None \/ MpError.status error = Some 0%Z ->
        message = "Failed to process Mercado Pago request"%string)
    /\ (forall st, MpError.status error = Some st ->
          ~ In st [0; 400; 401; 403; 404; 429; 500]%Z ->
          type = BAD_REQUEST
          /\ message = nonempty_or "An error occurred with Mercado Pago"
                                   (MpError.message error)).
Proof.
  unfold handleMercadoPagoError, errorMap.
  destruct (MpError.status error) as [st|].
  - destruct (Z.eqb_spec st 0) as [->|H0].
    + eexists _, _. split; [reflexivity |].
      split; [split; auto |]. split; [auto |].
      intros st' [= <-] Hn. exfalso. apply Hn. now left.
    + assert (forall type message (known : bool),
                (type = INTERNAL_SERVER_ERROR <-> st = 500%Z) ->
                (known = false -> type = BAD_REQUEST) ->
                (known = true -> In st [400; 401; 403; 404; 429; 500]%Z) ->
                message = nonempty_or "An error occurred with Mercado Pago"
                                      (MpError.message error) ->
                (type = INTERNAL_SERVER_ERROR
                 <-> Some st = None \/ Some st = Some 0%Z \/ Some st = Some 500%Z)
                /\ (Some st = None \/ Some st = Some 0%Z ->
                    message = "Failed to process Mercado Pago request"%string)
                /\ (forall st', Some st = Some st' ->
                      ~ In st' [0; 400; 401; 403; 404; 429; 500]%Z ->
                      type = BAD_REQUEST
                      /\ message = nonempty_or "An error occurred with Mercado Pago"
                                               (MpError.message error))) as Hshape.
      { intros type message known Ht Hk Hin Hmsg. split; [| split].
        - rewrite Ht. split; [intros ->; auto | intros [|[|]]; congruence].
        - intros [|]; congruence.
        - intros st' [= <-] Hn. split; [| exact Hmsg].
          destruct known; [| now apply Hk].
          exfalso. apply Hn. right. now apply Hin. }
      repeat match goal with
             | |- context [(st =? ?k)%Z] => destruct (Z.eqb_spec st k)
             end.
      all: eexists _, _; (split; [reflexivity |]).
      all: first
             [ apply (Hshape _ _ true);
               [ split; [discriminate | intros; lia]
               | discriminate
               | intros _; subst; cbn; tauto
               | reflexivity ]
             | apply (Hshape _ _ true);
               [ split; [intros _; assumption | intros _; reflexivity]
               | discriminate
               | intros _; subst; cbn; tauto
               | reflexivity ]
             | apply (Hshape _ _ false);
               [ split; [discriminate | intros; lia]
               | reflexivity
               | discriminate
               | reflexivity ] ].
  - eexists _, _. split; [reflexivity |].
    split; [split; auto |]. split; [auto |]. intros st' Hst. discriminate Hst.
Qed.
